(** * Hotshot Finder Mobile: scoring, fetching and ranking

    A shallow embedding of [hotshot_mobile.py].  Python [int] is [Z].
    Python [float] is read in two ways.  Module [F64] is binary64
    arithmetic as the machine does it: every operation rounds to the
    nearest float, ties to even, with the infinities, NaN and the
    [OverflowError] of a number too large for a float; the range and the
    rounding of the score and the rows the result loop keeps are stated
    over it.  The definitions outside [F64] read the same formulas over
    the exact rationals [Q] (no rounding error, no infinities); the order
    of the scores and the divisors are stated over them.  Dictionaries are
    [gmap]s, sets are [gset]s, and code that mutates [st.session_state] or
    can raise is written in a small state-and-exception monad.  What the
    page draws ([st.error], [st.info], the progress bar, the result cards
    and the CSV export) is left out. *)

From Stdlib Require Import ZArith QArith Qround Qabs Qpower Lqa Lia Sorted Ascii.
From stdpp Require Import gmap strings list fin_maps pretty.

Local Open Scope Z_scope.

(** ** Configuration constants *)

Definition SHORTS_DURATION_LIMIT : Z := 180.
Definition MAX_RESULTS_TOTAL : Z := 50.
Definition DAILY_QUOTA_LIMIT : Z := 10000.

Inductive quota_kind := Ksearch | Kvideos | Kchannels.

Definition QUOTA_COSTS (k : quota_kind) : Z :=
  match k with
  | Ksearch => 100
  | Kvideos => 1
  | Kchannels => 1
  end.

(** ** Python arithmetic on numbers *)

Module Py.

(** True division [a / b]; [None] stands for [ZeroDivisionError]. *)
Definition div (a b : Q) : option Q :=
  if Qeq_bool b 0 then None else Some (a / b)%Q.

(** [min(a, b)]: the first argument unless the second is smaller. *)
Definition min (a b : Q) : Q :=
  match (b ?= a)%Q with
  | Lt => b
  | _ => a
  end.

(** [max(a, b)]: the first argument unless the second is larger. *)
Definition max (a b : Q) : Q :=
  match (b ?= a)%Q with
  | Gt => b
  | _ => a
  end.

(** Nearest integer, ties to the even neighbour. *)
Definition round_half_even (y : Q) : Z :=
  let n := Qfloor y in
  match (y - inject_Z n ?= 1 # 2)%Q with
  | Lt => n
  | Gt => n + 1
  | Eq => if Z.even n then n else n + 1
  end.

(** [round(x, 1)]. *)
Definition round1 (x : Q) : Q :=
  (inject_Z (round_half_even (x * 10)) / 10)%Q.

End Py.

(** ** The score *)

(** The divisor of the velocity inside [calc_global_score] (lines 162-163). *)
Definition score_hours (hours_since : Q) : Q :=
  if Qle_bool hours_since 0 then (1 # 10)%Q else hours_since.

(** The four sub-scores, each with the divisions it performs. *)
Definition velocity_score (views : Z) (hours_since : Q) : option Q :=
  velocity ← Py.div (inject_Z views) (score_hours hours_since);
  r ← Py.div velocity 10000;
  Some (Py.min 40 (r * 40)%Q).

Definition engagement_score (views likes comments : Z) : option Q :=
  engagement ← Py.div (inject_Z (likes + comments * 2)) (inject_Z (Z.max views 1));
  Some (Py.min 30 ((engagement * 100) * 30)%Q).

Definition views_score (views : Z) : option Q :=
  r ← Py.div (inject_Z views) 1000000;
  Some (Py.min 20 (r * 20)%Q).

Definition sub_score (views subscribers : Z) : option Q :=
  if (0 <? subscribers)%Z then
    viewsub_ratio ← Py.div (inject_Z views) (inject_Z subscribers);
    Some (Py.min 10 (viewsub_ratio * 2)%Q)
  else Some 5%Q.

Definition calc_global_score (views likes comments subscribers : Z)
    (hours_since : Q) : option Q :=
  vs ← velocity_score views hours_since;
  es ← engagement_score views likes comments;
  ws ← views_score views;
  ss ← sub_score views subscribers;
  let total_score := (vs + es + ws + ss)%Q in
  Some (Py.round1 (Py.min 100 total_score)).

(** The velocity stored with each result row (lines 407 and 488). *)
Definition row_velocity (views : Z) (hours_since : Q) : option Q :=
  Py.div (inject_Z views) (Py.max hours_since (1 # 10)).

(** Closed forms of the sub-scores, used to reason about the option-valued
    definitions above once their divisions are known to succeed. *)
Definition velocity_score_v (views : Z) (hours_since : Q) : Q :=
  Py.min 40 (inject_Z views / score_hours hours_since / 10000 * 40)%Q.

Definition engagement_score_v (views likes comments : Z) : Q :=
  Py.min 30 (inject_Z (likes + comments * 2) / inject_Z (Z.max views 1) * 100 * 30)%Q.

Definition views_score_v (views : Z) : Q :=
  Py.min 20 (inject_Z views / 1000000 * 20)%Q.

Definition sub_score_v (views subscribers : Z) : Q :=
  if (0 <? subscribers)%Z
  then Py.min 10 (inject_Z views / inject_Z subscribers * 2)%Q
  else 5%Q.

Definition total_score_v (views likes comments subscribers : Z) (hours_since : Q) : Q :=
  (velocity_score_v views hours_since + engagement_score_v views likes comments
   + views_score_v views + sub_score_v views subscribers)%Q.


(** ** The score as the machine computes it: binary64 arithmetic *)

(** Python's [float] is IEEE 754 binary64.  A finite float is a rational
    [m * 2^e] with [|m| < 2^53] and [-1074 <= e <= 971]; the value of an
    operation is the exact result rounded to the nearest such number, ties
    to the even mantissa, and an infinity when the rounded result reaches
    [2^1024].  The two zeros are not told apart: no comparison of the
    program depends on the sign of a zero, and a division by either zero
    raises. *)
Module F64.

Inductive float :=
| Fin (q : Q)
| PInf
| NInf
| NaN.

Inductive exn := ZeroDivisionError | OverflowError.

(** The outcome of an expression: a value or an exception. *)
Inductive result (A : Type) :=
| Ok (x : A)
| Raise (e : exn).

Arguments Ok {A} x.
Arguments Raise {A} e.

#[global] Instance result_bind : MBind result :=
  fun A B (f : A -> result B) (m : result A) =>
    match m with
    | Ok x => f x
    | Raise e => Raise e
    end.

Definition pow2 (e : Z) : Q := Qpower 2 e.

(** [floor (log2 x)] for a positive [x]. *)
Definition ilog2 (x : Q) : Z :=
  let e := (Z.log2 (Qnum x) - Z.log2 (Z.pos (Qden x)))%Z in
  if Qle_bool (pow2 e) x then e else (e - 1)%Z.

(** The exponent of the last mantissa bit of [x]: 52 binary places below
    its leading bit, and never below that of the subnormal numbers. *)
Definition ulp_exponent (x : Q) : Z := Z.max (ilog2 (Qabs x) - 52) (-1074).

(** Rounding to 53 significant bits with an unbounded exponent. *)
Definition round_fin (x : Q) : Q :=
  (inject_Z (Py.round_half_even (x / pow2 (ulp_exponent x))) * pow2 (ulp_exponent x))%Q.

(** The float nearest to the real number [x]. *)
Definition rnd (x : Q) : float :=
  let y := Qred (round_fin x) in
  if Qle_bool (pow2 1024) y then PInf
  else if Qle_bool y (- pow2 1024) then NInf
  else Fin y.

(** The finite floats. *)
Definition is_binary64 (q : Q) : Prop :=
  exists m e : Z,
    (q == inject_Z m * pow2 e)%Q /\ Z.abs m < 2 ^ 53 /\ -1074 <= e <= 971.

(** The real numbers that round to a finite float: those below the
    midpoint between the largest float and [2^1024]. *)
Definition fits (x : Q) : Prop := (Qabs x < pow2 1024 - pow2 970)%Q.

Definition fitsb (x : Q) : bool := negb (Qle_bool (pow2 1024 - pow2 970) (Qabs x)).

(** [float(n)] for an [int]: [OverflowError] when [n] is too large. *)
Definition of_int (n : Z) : result float :=
  match rnd (inject_Z n) with
  | Fin q => Ok (Fin q)
  | _ => Raise OverflowError
  end.

(** [a / b] for two [int]s: the quotient correctly rounded. *)
Definition int_truediv (a b : Z) : result float :=
  if (b =? 0)%Z then Raise ZeroDivisionError
  else match rnd (inject_Z a / inject_Z b) with
       | Fin q => Ok (Fin q)
       | _ => Raise OverflowError
       end.

Definition is_pos (q : Q) : bool := negb (Qle_bool q 0).

(** The infinity with the sign of [q]; [q] is not zero. *)
Definition inf_signed (q : Q) : float := if is_pos q then PInf else NInf.

Definition fneg (x : float) : float :=
  match x with
  | Fin q => Fin (- q)
  | PInf => NInf
  | NInf => PInf
  | NaN => NaN
  end.

(** [x / y] for two floats. *)
Definition fdiv (x y : float) : result float :=
  match y with
  | Fin b =>
      if Qeq_bool b 0 then Raise ZeroDivisionError
      else Ok match x with
              | Fin a => rnd (a / b)
              | PInf => inf_signed b
              | NInf => fneg (inf_signed b)
              | NaN => NaN
              end
  | PInf | NInf =>
      Ok match x with
         | Fin _ => Fin 0
         | _ => NaN
         end
  | NaN => Ok NaN
  end.

(** [x * y]. *)
Definition fmul (x y : float) : float :=
  match x, y with
  | Fin a, Fin b => rnd (a * b)
  | Fin a, PInf | PInf, Fin a => if Qeq_bool a 0 then NaN else inf_signed a
  | Fin a, NInf | NInf, Fin a => if Qeq_bool a 0 then NaN else fneg (inf_signed a)
  | PInf, PInf | NInf, NInf => PInf
  | PInf, NInf | NInf, PInf => NInf
  | NaN, _ | _, NaN => NaN
  end.

(** [x + y]. *)
Definition fadd (x y : float) : float :=
  match x, y with
  | Fin a, Fin b => rnd (a + b)
  | Fin _, PInf | PInf, Fin _ | PInf, PInf => PInf
  | Fin _, NInf | NInf, Fin _ | NInf, NInf => NInf
  | PInf, NInf | NInf, PInf => NaN
  | NaN, _ | _, NaN => NaN
  end.

(** [x < y]: false as soon as one side is not a number. *)
Definition flt (x y : float) : bool :=
  match x, y with
  | Fin a, Fin b => negb (Qle_bool b a)
  | NInf, Fin _ | NInf, PInf | Fin _, PInf => true
  | _, _ => false
  end.

(** [x <= y]. *)
Definition fle (x y : float) : bool :=
  match x, y with
  | Fin a, Fin b => Qle_bool a b
  | NInf, Fin _ | NInf, PInf | Fin _, PInf | PInf, PInf | NInf, NInf => true
  | _, _ => false
  end.

(** [min(a, b)]: the first argument unless the second is smaller. *)
Definition fmin (a b : float) : float := if flt b a then b else a.

(** [max(a, b)]: the first argument unless the second is larger. *)
Definition fmax (a b : float) : float := if flt a b then b else a.

(** A float that is not below zero: a number from 0 on, the positive
    infinity, or not a number. *)
Definition not_negative (x : float) : Prop :=
  match x with
  | Fin q => (0 <= q)%Q
  | NInf => False
  | PInf | NaN => True
  end.

(** A divisor above zero, infinite or not a number: dividing by it raises
    nothing and keeps the sign. *)
Definition positive_divisor (x : float) : Prop :=
  match x with
  | Fin q => (0 < q)%Q
  | NInf => False
  | PInf | NaN => True
  end.

(** [round(x, 1)]: the exact value of [x] rounded to one decimal, ties to
    the even digit, and the float nearest to that decimal. *)
Definition round1 (x : float) : float :=
  match x with
  | Fin q => rnd (inject_Z (Py.round_half_even (q * 10)) / 10)
  | _ => x
  end.

(** The literal [0.1]. *)
Definition tenth : float := Eval vm_compute in rnd (1 # 10).

(** Lines 162-163. *)
Definition score_hours (hours_since : float) : float :=
  if fle hours_since (Fin 0) then tenth else hours_since.

Definition velocity_score (views : Z) (hours_since : float) : result float :=
  v ← of_int views;
  velocity ← fdiv v (score_hours hours_since);
  r ← fdiv velocity (Fin 10000);
  Ok (fmin (Fin 40) (fmul r (Fin 40))).

Definition engagement_score (views likes comments : Z) : result float :=
  engagement ← int_truediv (likes + comments * 2) (Z.max views 1);
  Ok (fmin (Fin 30) (fmul (fmul engagement (Fin 100)) (Fin 30))).

Definition views_score (views : Z) : result float :=
  r ← int_truediv views 1000000;
  Ok (fmin (Fin 20) (fmul r (Fin 20))).

Definition sub_score (views subscribers : Z) : result float :=
  if (0 <? subscribers)%Z then
    viewsub_ratio ← int_truediv views subscribers;
    Ok (fmin (Fin 10) (fmul viewsub_ratio (Fin 2)))
  else Ok (Fin 5).

Definition total_score (vs es ws ss : float) : float :=
  fadd (fadd (fadd vs es) ws) ss.

(** [calc_global_score] (lines 160-180). *)
Definition calc_global_score (views likes comments subscribers : Z)
    (hours_since : float) : result float :=
  vs ← velocity_score views hours_since;
  es ← engagement_score views likes comments;
  ws ← views_score views;
  ss ← sub_score views subscribers;
  Ok (round1 (fmin (Fin 100) (total_score vs es ws ss))).

(** Line 407 (and 488): [views / max(hours_since, 0.1)]. *)
Definition row_velocity (views : Z) (hours_since : float) : result float :=
  v ← of_int views;
  fdiv v (fmax hours_since tenth).

End F64.

(** ** Text *)

(** [sub in s] on strings.  Strings are UTF-8 byte sequences here; a
    well-formed UTF-8 string occurs in another as a byte sequence exactly
    when it occurs as a sequence of code points. *)
Fixpoint py_in (sub s : string) : bool :=
  String.prefix sub s ||
  match s with
  | EmptyString => false
  | String _ s' => py_in sub s'
  end.

(** [range(start, stop, step)] for a positive step. *)
Fixpoint range_from (fuel i stop step : nat) : list nat :=
  match fuel with
  | O => []
  | S fuel' =>
      if (i <? stop)%nat then i :: range_from fuel' (i + step) stop step else []
  end.

Definition py_range (start stop step : nat) : list nat :=
  range_from stop start stop step.

(** The slice [l[i:j]]. *)
Definition slice {A} (l : list A) (i j : nat) : list A :=
  take (j - i) (drop i l).

(** ** Insertion-ordered dictionaries

    [stats] is iterated with [.items()], so the order of its keys is kept:
    assigning to a key that is present replaces the value in place, a new
    key goes to the end. *)
Definition odict (V : Type) : Type := list (string * V).

Fixpoint od_set {V} (k : string) (v : V) (d : odict V) : odict V :=
  match d with
  | [] => [(k, v)]
  | (k', v') :: d' =>
      if decide (k = k') then (k, v) :: d' else (k', v') :: od_set k v d'
  end.

(** ** The video platform (googleapiclient) and the records it returns *)

(** An item of a [search().list] response: [item['id']['kind']] and
    [item['id']['videoId']]; [None] is a missing key. *)
Record search_item := {
  si_kind : option string;
  si_videoId : option string
}.

(** An item of a [videos().list] response with the fields the code reads. *)
Record video_item := {
  vi_id : option string;
  vi_title : option string;
  vi_channelTitle : option string;
  vi_channelId : option string;
  vi_publishedAt : option string;
  vi_duration : option string;
  vi_viewCount : option string;
  vi_likeCount : option string;
  vi_commentCount : option string;
  vi_thumbnail : option string
}.

(** An item of a [channels().list] response. *)
Record channel_item := {
  ci_id : option string;
  ci_subscriberCount : option string
}.

Record search_params := {
  sp_q : string;
  sp_maxResults : Z;
  sp_publishedAfter : Z;
  sp_regionCode : option string
}.

(** The requests the program sends; the first component is the API key the
    client was built with. *)
Inductive request :=
| ReqSearch (api_key : string) (params : search_params)
| ReqPopular (api_key : string) (region_code category_id : string) (max_results : Z)
| ReqVideos (api_key : string) (ids : list string)
| ReqChannels (api_key : string) (ids : list string).

(** What [request.execute()] gives at a given time (in seconds); [None] is
    any exception raised by building the client or by the call. *)
Record PlatformClient := {
  exec_search : Z -> string -> search_params -> option (list search_item);
  exec_popular : Z -> string -> string -> string -> Z -> option (list video_item);
  exec_videos : Z -> string -> list string -> option (list video_item);
  exec_channels : Z -> string -> list string -> option (list channel_item)
}.

(** ** Records of the program *)

(** The value stored in [stats] for one video. *)
Record video_stats := {
  title : string;
  channel_title : string;
  channel_id : string;
  published_at : string;
  duration : Z;
  views : Z;
  likes : Z;
  comments : Z;
  thumbnail : string
}.

(** One entry of [st.session_state.results]. *)
Record result_row := {
  r_video_id : string;
  r_title : string;
  r_channel_title : string;
  r_views : Z;
  r_likes : Z;
  r_comments : Z;
  r_subscribers : Z;
  r_thumbnail : string;
  r_duration : Z;
  r_hours_since : Q;
  r_velocity : Q;
  r_score : Q;
  r_search_country : string
}.

(** ** Session state, caches and the monad of the fetchers *)

(** [st.session_state.quota_used] and [.results], the four [st.cache_data]
    stores (key: the call's arguments; value: the time of the call that
    computed the entry and its result), and the trace of requests sent. *)
Record world := {
  quota_used : Z;
  results : list result_row;
  requests : list request;
  cache_keyword : gmap (string * string * option string) (Z * list string);
  cache_category : gmap (string * string * string) (Z * (list string * string));
  cache_stats : gmap (string * list string) (Z * odict video_stats);
  cache_subscribers : gmap (string * list string) (Z * gmap string Z)
}.

Definition empty_world : world :=
  {| quota_used := 0; results := []; requests := [];
     cache_keyword := ∅; cache_category := ∅;
     cache_stats := ∅; cache_subscribers := ∅ |}.

Definition set_quota_used (q : Z) (w : world) : world :=
  {| quota_used := q; results := results w; requests := requests w;
     cache_keyword := cache_keyword w; cache_category := cache_category w;
     cache_stats := cache_stats w; cache_subscribers := cache_subscribers w |}.

Definition set_results (r : list result_row) (w : world) : world :=
  {| quota_used := quota_used w; results := r; requests := requests w;
     cache_keyword := cache_keyword w; cache_category := cache_category w;
     cache_stats := cache_stats w; cache_subscribers := cache_subscribers w |}.

Definition set_requests (r : list request) (w : world) : world :=
  {| quota_used := quota_used w; results := results w; requests := r;
     cache_keyword := cache_keyword w; cache_category := cache_category w;
     cache_stats := cache_stats w; cache_subscribers := cache_subscribers w |}.

Definition set_cache_keyword c (w : world) : world :=
  {| quota_used := quota_used w; results := results w; requests := requests w;
     cache_keyword := c; cache_category := cache_category w;
     cache_stats := cache_stats w; cache_subscribers := cache_subscribers w |}.

Definition set_cache_category c (w : world) : world :=
  {| quota_used := quota_used w; results := results w; requests := requests w;
     cache_keyword := cache_keyword w; cache_category := c;
     cache_stats := cache_stats w; cache_subscribers := cache_subscribers w |}.

Definition set_cache_stats c (w : world) : world :=
  {| quota_used := quota_used w; results := results w; requests := requests w;
     cache_keyword := cache_keyword w; cache_category := cache_category w;
     cache_stats := c; cache_subscribers := cache_subscribers w |}.

Definition set_cache_subscribers c (w : world) : world :=
  {| quota_used := quota_used w; results := results w; requests := requests w;
     cache_keyword := cache_keyword w; cache_category := cache_category w;
     cache_stats := cache_stats w; cache_subscribers := c |}.

(** A computation on the session: it ends with a value or with an
    exception ([None]); what it did to the session before an exception
    stays done. *)
Definition M (A : Type) : Type := world -> option A * world.

Definition ret {A} (x : A) : M A := fun w => (Some x, w).

Definition raise {A} : M A := fun w => (None, w).

Definition bind {A B} (m : M A) (f : A -> M B) : M B :=
  fun w =>
    match m w with
    | (Some x, w') => f x w'
    | (None, w') => (None, w')
    end.

(** [try: m except Exception: return h]. *)
Definition try_except {A} (m : M A) (h : A) : M A :=
  fun w =>
    match m w with
    | (Some x, w') => (Some x, w')
    | (None, w') => (Some h, w')
    end.

(** A Python expression that may raise. *)
Definition lift {A} (o : option A) : M A :=
  match o with
  | Some x => ret x
  | None => raise
  end.

Declare Scope M_scope.
Delimit Scope M_scope with M.
Notation "'let*' x ':=' m 'in' k" := (bind m (fun x => k))
  (at level 10, x name, m at level 100, k at level 200) : M_scope.
Notation "m ';;;' k" := (bind m (fun _ => k))
  (at level 100, k at level 200, right associativity) : M_scope.

(** [st.session_state.quota_used += QUOTA_COSTS[kind]]. *)
Definition charge (kind : quota_kind) : M unit :=
  fun w => (Some tt, set_quota_used (quota_used w + QUOTA_COSTS kind) w).

(** Sending a request: it is recorded, then answered or failed. *)
Definition send {A} (rq : request) (answer : option A) : M A :=
  fun w =>
    let w' := set_requests (requests w ++ [rq]) w in
    match answer with
    | Some x => (Some x, w')
    | None => (None, w')
    end.

(** ** [st.cache_data(ttl=3600)] *)

Definition CACHE_TTL : Z := 3600.

(** An entry computed at time [stored] is served at time [now] while
    [now < stored + ttl]. *)
Definition cache_lookup {K V} `{Countable K} (c : gmap K (Z * V)) (k : K) (now : Z)
    : option V :=
  match c !! k with
  | Some (stored, v) => if (now <? stored + CACHE_TTL)%Z then Some v else None
  | None => None
  end.

(** The decorated function: a live entry is returned as it is; otherwise
    the body runs and its return value is stored under the arguments. *)
Definition cache_data {K V} `{Countable K}
    (get : world -> gmap K (Z * V)) (set : gmap K (Z * V) -> world -> world)
    (body : K -> Z -> M V) (k : K) (now : Z) : M V :=
  fun w =>
    match cache_lookup (get w) k now with
    | Some v => (Some v, w)
    | None =>
        match body k now w with
        | (Some v, w') => (Some v, set (<[k := (now, v)]> (get w')) w')
        | (None, w') => (None, w')
        end
    end.

(** ** The fetchers *)

Definition GLOBAL_TOP_COUNTRIES : list (string * string) :=
  [("US", "미국"); ("IN", "인도"); ("GB", "영국"); ("JP", "일본"); ("KR", "한국");
   ("BR", "브라질"); ("CA", "캐나다"); ("DE", "독일"); ("FR", "프랑스"); ("AU", "호주");
   ("MX", "멕시코"); ("ES", "스페인"); ("IT", "이탈리아"); ("RU", "러시아");
   ("ID", "인도네시아"); ("TH", "태국"); ("VN", "베트남"); ("PH", "필리핀");
   ("AR", "아르헨티나"); ("PL", "폴란드")].

Definition SEVEN_DAYS : Z := 7 * 24 * 3600.

Section Fetcher.

(** The platform, and three library functions the program calls:
    [int] on a string, [isodate.parse_duration] followed by
    [int(total_seconds())], and [datetime.strptime] with the format
    ['%Y-%m-%dT%H:%M:%SZ'] (result in seconds).  [None] is an exception. *)
Context (pc : PlatformClient).
Context (py_int : string -> option Z).
Context (isodate_seconds : string -> option Z).
Context (strptime : string -> option Z).

Local Open Scope M_scope.

Definition parse_duration (duration_str : string) : Z :=
  match isodate_seconds duration_str with
  | Some secs => secs
  | None => 0
  end.

(** [int(d.get(key, 0))]. *)
Definition int_field (field : option string) : option Z :=
  match field with
  | Some s => py_int s
  | None => Some 0
  end.

(** The comprehension of lines 207-208. *)
Fixpoint search_video_ids (items : list search_item) : option (list string) :=
  match items with
  | [] => Some []
  | item :: rest =>
      kind ← si_kind item;
      if decide (kind = "youtube#video") then
        vid ← si_videoId item;
        ids ← search_video_ids rest;
        Some (vid :: ids)
      else search_video_ids rest
  end.

Definition search_region (region_code : option string) : option string :=
  match region_code with
  | Some r =>
      if decide (r = "") then None
      else if decide (r = "GLOBAL") then None
      else Some r
  | None => None
  end.

Definition fetch_videos_by_keyword_body
    (args : string * string * option string) (now : Z) : M (list string) :=
  let '(api_key, keyword, region_code) := args in
  try_except
    (let params :=
       {| sp_q := keyword; sp_maxResults := MAX_RESULTS_TOTAL;
          sp_publishedAfter := now - SEVEN_DAYS;
          sp_regionCode := search_region region_code |} in
     let* response :=
       send (ReqSearch api_key params) (exec_search pc now api_key params) in
     let* video_ids := lift (search_video_ids response) in
     charge Ksearch;;;
     ret video_ids)
    [].

Definition fetch_videos_by_keyword :=
  cache_data cache_keyword set_cache_keyword fetch_videos_by_keyword_body.

Definition fetch_category_videos_body
    (args : string * string * string) (now : Z) : M (list string * string) :=
  let '(api_key, category_id, region_code) := args in
  try_except
    (let* response :=
       send (ReqPopular api_key region_code category_id 5)
            (exec_popular pc now api_key region_code category_id 5) in
     let* video_ids := lift (mapM vi_id response) in
     charge Kvideos;;;
     ret (video_ids, region_code))
    ([], region_code).

Definition fetch_category_videos :=
  cache_data cache_category set_cache_category fetch_category_videos_body.

(** The dictionary built for one item (lines 258-273). *)
Definition stats_of_item (item : video_item) : option (string * video_stats) :=
  video_id ← vi_id item;
  v ← int_field (vi_viewCount item);
  l ← int_field (vi_likeCount item);
  c ← int_field (vi_commentCount item);
  Some (video_id,
        {| title := default "" (vi_title item);
           channel_title := default "" (vi_channelTitle item);
           channel_id := default "" (vi_channelId item);
           published_at := default "" (vi_publishedAt item);
           duration := parse_duration (default "PT0S" (vi_duration item));
           views := v; likes := l; comments := c;
           thumbnail := default "" (vi_thumbnail item) |}).

Fixpoint add_stats (items : list video_item) (stats : odict video_stats)
    : option (odict video_stats) :=
  match items with
  | [] => Some stats
  | item :: rest =>
      '(video_id, data) ← stats_of_item item;
      add_stats rest (od_set video_id data stats)
  end.

(** The loop of lines 247-273 over the batch starts. *)
Fixpoint stats_loop (api_key : string) (now : Z) (video_ids : list string)
    (starts : list nat) (stats : odict video_stats) : M (odict video_stats) :=
  match starts with
  | [] => ret stats
  | i :: rest =>
      let batch := slice video_ids i (i + 50) in
      let* response :=
        send (ReqVideos api_key batch) (exec_videos pc now api_key batch) in
      charge Kvideos;;;
      let* stats' := lift (add_stats response stats) in
      stats_loop api_key now video_ids rest stats'
  end.

Definition fetch_stats_body (args : string * list string) (now : Z)
    : M (odict video_stats) :=
  let '(api_key, video_ids) := args in
  try_except
    (stats_loop api_key now video_ids (py_range 0 (length video_ids) 50) [])
    [].

Definition fetch_stats :=
  cache_data cache_stats set_cache_stats fetch_stats_body.

Definition subscribers_of_item (item : channel_item) : option (string * Z) :=
  cid ← ci_id item;
  n ← int_field (ci_subscriberCount item);
  Some (cid, n).

Fixpoint add_subscribers (items : list channel_item) (subscribers : gmap string Z)
    : option (gmap string Z) :=
  match items with
  | [] => Some subscribers
  | item :: rest =>
      '(cid, n) ← subscribers_of_item item;
      add_subscribers rest (<[cid := n]> subscribers)
  end.

Fixpoint subscribers_loop (api_key : string) (now : Z) (unique_ids : list string)
    (starts : list nat) (subscribers : gmap string Z) : M (gmap string Z) :=
  match starts with
  | [] => ret subscribers
  | i :: rest =>
      let batch := slice unique_ids i (i + 50) in
      let* response :=
        send (ReqChannels api_key batch) (exec_channels pc now api_key batch) in
      charge Kchannels;;;
      let* subscribers' := lift (add_subscribers response subscribers) in
      subscribers_loop api_key now unique_ids rest subscribers'
  end.

(** [list(set(channel_ids))]: the distinct ids, in the order the set
    enumerates them. *)
Definition distinct_ids (channel_ids : list string) : list string :=
  elements (list_to_set channel_ids : gset string).

Definition fetch_subscriber_counts_body (args : string * list string) (now : Z)
    : M (gmap string Z) :=
  let '(api_key, channel_ids) := args in
  try_except
    (let unique_ids := distinct_ids channel_ids in
     subscribers_loop api_key now unique_ids
       (py_range 0 (length unique_ids) 50) ∅)
    ∅.

Definition fetch_subscriber_counts :=
  cache_data cache_subscribers set_cache_subscribers fetch_subscriber_counts_body.

End Fetcher.

(** The counts of a video fit a float: [views], which lines 407 and 165
    convert, and the quotient of line 168.  Python raises [OverflowError]
    when one of them does not. *)
Definition counts_fit (data : video_stats) : bool :=
  F64.fitsb (inject_Z (views data)) &&
  F64.fitsb (inject_Z (likes data + comments data * 2)
             / inject_Z (Z.max (views data) 1)).

(** ** The two searches and the sidebar *)

Section Searches.

Context (pc : PlatformClient).
Context (py_int : string -> option Z).
Context (isodate_seconds : string -> option Z).
Context (strptime : string -> option Z).

Local Open Scope M_scope.

(** The body of the result loops (lines 403-427 and 484-508); [None] is
    an exception, which the loop swallows: a publish time that does not
    parse, or the [OverflowError] of the float arithmetic of lines 407-411
    on a count that does not fit a float.  The numbers stored are those of
    the real-number formulas. *)
Definition make_row (now : Z) (subscribers : gmap string Z)
    (search_country : string) (video_id : string) (data : video_stats)
    : option result_row :=
  published ← strptime (published_at data);
  hours_since ← Py.div (inject_Z (now - published)) 3600;
  let channel_subs := default 0 (subscribers !! channel_id data) in
  if counts_fit data then
    velocity ← row_velocity (views data) hours_since;
    score ← calc_global_score (views data) (likes data) (comments data)
              channel_subs hours_since;
    Some {| r_video_id := video_id; r_title := title data;
            r_channel_title := channel_title data;
            r_views := views data; r_likes := likes data;
            r_comments := comments data; r_subscribers := channel_subs;
            r_thumbnail := thumbnail data; r_duration := duration data;
            r_hours_since := hours_since; r_velocity := velocity;
            r_score := score; r_search_country := search_country |}
  else None.

Definition make_rows (now : Z) (subscribers : gmap string Z)
    (country_of : string -> string) (stats : odict video_stats)
    : list result_row :=
  omap (fun '(video_id, data) =>
          make_row now subscribers (country_of video_id) video_id data) stats.

(** Lines 473-512 and 391-431: statistics, subscribers, rows. *)
Definition enrich (api_key : string) (now : Z) (video_ids : list string)
    (country_of : string -> string) : M unit :=
  let* stats := fetch_stats pc py_int isodate_seconds (api_key, video_ids) now in
  let channel_ids := map (fun s => channel_id s.2) stats in
  let* subscribers := fetch_subscriber_counts pc py_int (api_key, channel_ids) now in
  fun w => (Some tt, set_results (make_rows now subscribers country_of stats) w).

(** The keyword button (lines 368-431); [region_code] is ["GLOBAL"] or a
    country code. *)
Definition keyword_search (api_key keyword region_code : string) (now : Z)
    : M unit :=
  if decide (api_key = "") then ret tt
  else if decide (keyword = "") then ret tt
  else
    let* video_ids :=
      fetch_videos_by_keyword pc
        (api_key, keyword,
         if decide (region_code = "GLOBAL") then None else Some region_code) now in
    match video_ids with
    | [] => ret tt
    | _ => enrich api_key now video_ids (fun _ => region_code)
    end.

(** Lines 460-463 for the ids of one country. *)
Definition merge_ids (code : string) (video_ids : list string)
    (acc : list string * gmap string string) : list string * gmap string string :=
  foldl (fun '(all_video_ids, video_country_map) vid =>
           match video_country_map !! vid with
           | None => (all_video_ids ++ [vid], <[vid := code]> video_country_map)
           | Some _ => (all_video_ids, video_country_map)
           end) acc video_ids.

(** The loop of lines 450-463. *)
Fixpoint sweep (api_key category_id : string) (now : Z)
    (countries : list (string * string))
    (acc : list string * gmap string string)
    : M (list string * gmap string string) :=
  match countries with
  | [] => ret acc
  | (code, _) :: rest =>
      let* fetched := fetch_category_videos pc (api_key, category_id, code) now in
      sweep api_key category_id now rest (merge_ids code fetched.1 acc)
  end.

(** The category button (lines 436-512). *)
Definition category_search (api_key category_id : string) (now : Z) : M unit :=
  if decide (api_key = "") then ret tt
  else
    let* merged := sweep api_key category_id now GLOBAL_TOP_COUNTRIES ([], ∅) in
    let '(all_video_ids, video_country_map) := merged in
    match all_video_ids with
    | [] => ret tt
    | _ =>
        enrich api_key now (take 50 all_video_ids)
          (fun video_id => default "UNKNOWN" (video_country_map !! video_id))
    end.

(** The sidebar: the remaining quota shown, and the reset button. *)
Definition remaining (w : world) : Z := DAILY_QUOTA_LIMIT - quota_used w.

Definition reset_quota : M unit := fun w => (Some tt, set_quota_used 0 w).

(** The operations that touch the quota counter, and their runs. *)
Inductive operation :=
| OpKeyword (api_key keyword : string) (region_code : option string)
| OpCategory (api_key category_id region_code : string)
| OpStats (api_key : string) (video_ids : list string)
| OpSubscribers (api_key : string) (channel_ids : list string)
| OpKeywordSearch (api_key keyword region_code : string)
| OpCategorySearch (api_key category_id : string)
| OpReset.

Definition is_reset (op : operation) : bool :=
  match op with
  | OpReset => true
  | _ => false
  end.

Definition run_op (op : operation) (now : Z) (w : world) : world :=
  match op with
  | OpKeyword k q r => (fetch_videos_by_keyword pc (k, q, r) now w).2
  | OpCategory k c r => (fetch_category_videos pc (k, c, r) now w).2
  | OpStats k ids => (fetch_stats pc py_int isodate_seconds (k, ids) now w).2
  | OpSubscribers k ids => (fetch_subscriber_counts pc py_int (k, ids) now w).2
  | OpKeywordSearch k q r => (keyword_search k q r now w).2
  | OpCategorySearch k c => (category_search k c now w).2
  | OpReset => (reset_quota w).2
  end.

Fixpoint run_ops (ops : list (operation * Z)) (w : world) : world :=
  match ops with
  | [] => w
  | (op, now) :: rest => run_ops rest (run_op op now w)
  end.

End Searches.

(** ** Sorting the results (lines 520-529) *)

(** [list.sort(key=..., reverse=...)] is a stable sort; it is modelled by
    insertion from the right, where [before x y] says that the key of [x]
    must come strictly before the key of [y]. *)
Section Sort.
Context {A : Type} (before : A -> A -> bool).

Fixpoint sort_insert (x : A) (l : list A) : list A :=
  match l with
  | [] => [x]
  | y :: l' => if before y x then y :: sort_insert x l' else x :: y :: l'
  end.

Definition py_sort (l : list A) : list A := foldr sort_insert [] l.
End Sort.

Definition Qltb (a b : Q) : bool := negb (Qle_bool b a).

Definition by_score_desc (x y : result_row) : bool := Qltb (r_score y) (r_score x).
Definition by_views_desc (x y : result_row) : bool := (r_views y <? r_views x)%Z.
Definition by_velocity_desc (x y : result_row) : bool := Qltb (r_velocity y) (r_velocity x).
Definition by_hours_asc (x y : result_row) : bool := Qltb (r_hours_since x) (r_hours_since y).

(** The four entries of the sort select box. *)
Definition SORT_SCORE : string := "떡상점수 (높은순)".
Definition SORT_VIEWS : string := "조회수 (많은순)".
Definition SORT_VELOCITY : string := "시간당 조회수 (높은순)".
Definition SORT_UPLOAD : string := "업로드 시간 (최신순)".

Definition sort_results (sort_option : string) (rows : list result_row)
    : list result_row :=
  if py_in "떡상점수" sort_option then py_sort by_score_desc rows
  else if py_in "조회수" sort_option then py_sort by_views_desc rows
  else if py_in "시간당" sort_option then py_sort by_velocity_desc rows
  else if py_in "업로드" sort_option then py_sort by_hours_asc rows
  else rows.

(** [x] occurs somewhere before [y] in [l]. *)
Definition occurs_before {A} (x y : A) (l : list A) : Prop :=
  [x; y] `sublist_of` l.

(** A result row with the given id, views and age, the other fields as the
    result loop computes them for a channel without subscriber data and a
    video without likes or comments. *)
Definition plain_row (video_id : string) (v : Z) (hours : Q) : option result_row :=
  velocity ← row_velocity v hours;
  score ← calc_global_score v 0 0 0 hours;
  Some {| r_video_id := video_id; r_title := ""; r_channel_title := "";
          r_views := v; r_likes := 0; r_comments := 0; r_subscribers := 0;
          r_thumbnail := ""; r_duration := 0; r_hours_since := hours;
          r_velocity := velocity; r_score := score; r_search_country := "GLOBAL" |}.

(** The batches the loops of [fetch_stats] and [fetch_subscriber_counts]
    go through: one slice of 50 per start of the range. *)
Definition batches (ids : list string) : list (list string) :=
  map (fun i => slice ids i (i + 50)) (py_range 0 (length ids) 50).

(** The session after a computation changed the counter and sent requests. *)
Definition touch (q : Z) (rqs : list request) (w : world) : world :=
  set_requests rqs (set_quota_used q w).

(** ** Properties of computations used below *)

(** The quota counter does not go down. *)
Definition grows {A} (m : M A) : Prop :=
  forall w, quota_used w <= quota_used (m w).2.

(** The computation does not look at the quota counter: started with any
    other value of the counter it returns the same value, leaves the same
    session and adds the same amount. *)
Definition oblivious {A} (m : M A) : Prop :=
  forall w q,
    m (set_quota_used q w)
    = ((m w).1, set_quota_used (q + (quota_used (m w).2 - quota_used w)) (m w).2).

(** No exception leaves the computation. *)
Definition returns {A} (m : M A) : Prop :=
  forall w, is_Some (m w).1.

(** The parameters of the search request (lines 192-202). *)
Definition keyword_params (keyword : string) (region_code : option string)
    (now : Z) : search_params :=
  {| sp_q := keyword; sp_maxResults := MAX_RESULTS_TOTAL;
     sp_publishedAfter := now - SEVEN_DAYS;
     sp_regionCode := search_region region_code |}.

(** A batch of videos is answered when the call returns items that all
    convert; a batch of channels likewise. *)
Definition videos_answered (pc : PlatformClient) (py_int : string -> option Z)
    (isodate_seconds : string -> option Z)
    (api_key : string) (now : Z) (batch : list string) : Prop :=
  exists items,
    exec_videos pc now api_key batch = Some items /\
    Forall (fun item => is_Some (stats_of_item py_int isodate_seconds item)) items.

Definition channels_answered (pc : PlatformClient) (py_int : string -> option Z)
    (api_key : string) (now : Z) (batch : list string) : Prop :=
  exists items,
    exec_channels pc now api_key batch = Some items /\
    Forall (fun item => is_Some (subscribers_of_item py_int item)) items.

(** ** Sample platforms and inputs used in the examples *)

(** A platform on which every call raises. *)
Definition pc_down : PlatformClient :=
  {| exec_search := fun _ _ _ => None;
     exec_popular := fun _ _ _ _ _ => None;
     exec_videos := fun _ _ _ => None;
     exec_channels := fun _ _ _ => None |}.

(** A platform that answers every call with an empty page. *)
Definition pc_quiet : PlatformClient :=
  {| exec_search := fun _ _ _ => Some [];
     exec_popular := fun _ _ _ _ _ => Some [];
     exec_videos := fun _ _ _ => Some [];
     exec_channels := fun _ _ _ => Some [] |}.

(** A platform whose search returns a page with an item that has no kind,
    and whose statistics lookup answers only a batch that starts with the
    id ["v0"]. *)
Definition pc_broken : PlatformClient :=
  {| exec_search := fun _ _ _ =>
       Some [ {| si_kind := Some "youtube#video"; si_videoId := Some "a" |};
              {| si_kind := None; si_videoId := None |} ];
     exec_popular := fun _ _ _ _ _ => Some [];
     exec_videos := fun _ _ ids =>
       match ids with
       | first :: _ => if decide (first = "v0") then Some [] else None
       | [] => None
       end;
     exec_channels := fun _ _ _ => Some [] |}.

Definition plain_video (video_id : string) : video_item :=
  {| vi_id := Some video_id; vi_title := None; vi_channelTitle := None;
     vi_channelId := None; vi_publishedAt := None; vi_duration := None;
     vi_viewCount := None; vi_likeCount := None; vi_commentCount := None;
     vi_thumbnail := None |}.

(** A platform whose search finds the videos ["a"] and ["b"], where ["a"]
    and ["b"] trend in the United States and ["b"] and ["c"] in India, and
    trending fails in Japan. *)
Definition pc_demo : PlatformClient :=
  {| exec_search := fun _ _ _ =>
       Some [ {| si_kind := Some "youtube#video"; si_videoId := Some "a" |};
              {| si_kind := Some "youtube#channel"; si_videoId := None |};
              {| si_kind := Some "youtube#video"; si_videoId := Some "b" |} ];
     exec_popular := fun _ _ region _ _ =>
       if decide (region = "US") then Some [plain_video "a"; plain_video "b"]
       else if decide (region = "IN") then Some [plain_video "b"; plain_video "c"]
       else if decide (region = "JP") then None
       else Some [];
     exec_videos := fun _ _ ids => Some (map plain_video ids);
     exec_channels := fun _ _ _ => Some [] |}.

Definition no_int : string -> option Z := fun _ => None.

Definition ids_upto (n : nat) : list string :=
  map (fun i => String.append "v" (pretty i)) (seq 0 n).

(** What [st.cache_data] makes of a fetcher [f] with body [body] and store
    [get]/[set]: a call at [t1] that finds no live entry runs the body once
    and stores its value without touching the quota counter or the request
    trace any further; a call with the same arguments before [t1 + 3600]
    returns that value and leaves the session as it is; a call at or after
    [t1 + 3600] runs the body again. *)
Definition cache_contract {K V} `{Countable K}
    (get : world -> gmap K (Z * V)) (set : gmap K (Z * V) -> world -> world)
    (body f : K -> Z -> M V) : Prop :=
  forall k t1 w,
    cache_lookup (get w) k t1 = None ->
    exists v w',
      body k t1 w = (Some v, w') /\
      let w1 := set (<[k := (t1, v)]> (get w')) w' in
      f k t1 w = (Some v, w1) /\
      quota_used w1 = quota_used w' /\
      requests w1 = requests w' /\
      (forall t2, t2 < t1 + CACHE_TTL -> f k t2 w1 = (Some v, w1)) /\
      (forall t3, t1 + CACHE_TTL <= t3 ->
         exists v3 w3,
           body k t3 w1 = (Some v3, w3) /\
           f k t3 w1 = (Some v3, set (<[k := (t3, v3)]> (get w3)) w3)).

(** Keyword searches for the same word, one every hour. *)
Definition hourly_searches (n : nat) : list (operation * Z) :=
  map (fun i => (OpKeyword "key" "cats" None, CACHE_TTL * Z.of_nat i)) (seq 0 n).

(** ** The sweep seen from outside *)

(** Merging the ids of the countries in order (lines 450-463 without the
    fetching). *)
Definition merge_all (fetched : list (string * list string))
    (acc : list string * gmap string string) : list string * gmap string string :=
  foldl (fun acc '(code, video_ids) => merge_ids code video_ids acc) acc fetched.

(** What the sweep fetches: for each country in order its code and the ids
    its listing returned, and the session after the last listing. *)
Fixpoint sweep_fetched (pc : PlatformClient) (api_key category_id : string)
    (now : Z) (countries : list (string * string)) (w : world)
    : list (string * list string) * world :=
  match countries with
  | [] => ([], w)
  | (code, _) :: rest =>
      let r := fetch_category_videos pc (api_key, category_id, code) now w in
      let video_ids := match r.1 with Some fetched => fetched.1 | None => [] end in
      let tail := sweep_fetched pc api_key category_id now rest r.2 in
      ((code, video_ids) :: tail.1, tail.2)
  end.


(** The accumulator of the sweep is consistent: no id twice, and the ids
    listed are the ids tagged. *)
Definition merged_ok (acc : list string * gmap string string) : Prop :=
  NoDup acc.1 /\ forall v, v ∈ acc.1 <-> is_Some (acc.2 !! v).

Definition is_channels_request (rq : request) : Prop :=
  match rq with
  | ReqChannels _ _ => True
  | _ => False
  end.

(** ** The region select box (lines 345-346 and 376) *)

(** [s.split(sep)] for a separator of one character. *)
Fixpoint split_on (sep : Ascii.ascii) (s : string) : list string :=
  match s with
  | EmptyString => [EmptyString]
  | String c s' =>
      if decide (c = sep) then EmptyString :: split_on sep s'
      else match split_on sep s' with
           | piece :: pieces => String c piece :: pieces
           | [] => [String c EmptyString]
           end
  end.

Fixpoint has_char (c : Ascii.ascii) (s : string) : bool :=
  match s with
  | EmptyString => false
  | String c' s' => bool_decide (c' = c) || has_char c s'
  end.

(** The entry [f"{name} ({code})"] of a country. *)
Definition region_option (name code : string) : string :=
  String.append name (String.append " (" (String.append code ")")).

Definition REGION_ALL : string := "전세계 (ALL)".

Definition region_options : list string :=
  REGION_ALL :: map (fun c : string * string => region_option c.2 c.1) GLOBAL_TOP_COUNTRIES.

(** Line 376; [None] is the [IndexError] of [split("(")[1]]. *)
Definition region_code_of (region : string) : option string :=
  if String.prefix "전세계" region then Some "GLOBAL"
  else
    piece ← split_on "("%char region !! 1%nat;
    split_on ")"%char piece !! 0%nat.

(** ** The table shown and exported (lines 534-544 and 575-576) *)

(** [{c['code']: c['name'] for c in GLOBAL_TOP_COUNTRIES}]: a later pair
    with the same code replaces an earlier one. *)
Definition dict_of_pairs (pairs : list (string * string)) : gmap string string :=
  foldl (fun m (p : string * string) => <[p.1 := p.2]> m) ∅ pairs.

Definition COUNTRY_CODE_TO_NAME : gmap string string :=
  dict_of_pairs GLOBAL_TOP_COUNTRIES.

(** [COUNTRY_CODE_TO_NAME.get(code, code)]. *)
Definition country_name (code : string) : string :=
  default code (COUNTRY_CODE_TO_NAME !! code).

Definition format_text (duration : Z) : string :=
  if (duration <=? SHORTS_DURATION_LIMIT)%Z then "Shorts" else "일반".

Definition watch_url (video_id : string) : string :=
  String.append "https://www.youtube.com/watch?v=" video_id.

Record export_row := {
  e_rank : Z;
  e_title : string;
  e_channel : string;
  e_country : string;
  e_format : string;
  e_views : Z;
  e_likes : Z;
  e_score : Q;
  e_url : string
}.

(** The rows of the data frame: [enumerate(results)] with the rank
    [idx + 1]. *)
Definition export_rows (rows : list result_row) : list export_row :=
  imap (fun idx r =>
          {| e_rank := Z.of_nat idx + 1;
             e_title := r_title r;
             e_channel := r_channel_title r;
             e_country := country_name (r_search_country r);
             e_format := format_text (r_duration r);
             e_views := r_views r;
             e_likes := r_likes r;
             e_score := r_score r;
             e_url := watch_url (r_video_id r) |}) rows.

(** What the page shows after a run of the script with the sort entry
    [sort_option]: the stored results, sorted, as table rows. *)
Definition displayed (sort_option : string) (w : world) : list export_row :=
  export_rows (sort_results sort_option (results w)).

(** ** Requests and what they cost *)

Definition request_cost (rq : request) : Z :=
  match rq with
  | ReqSearch _ _ => QUOTA_COSTS Ksearch
  | ReqPopular _ _ _ _ => QUOTA_COSTS Kvideos
  | ReqVideos _ _ => QUOTA_COSTS Kvideos
  | ReqChannels _ _ => QUOTA_COSTS Kchannels
  end.

Definition cost_of (rqs : list request) : Z :=
  foldr (fun rq total => request_cost rq + total) 0 rqs.

(** The computation sends requests and raises the counter by no more than
    they cost. *)
Definition accounted {A} (m : M A) : Prop :=
  forall w,
    exists rqs,
      requests (m w).2 = requests w ++ rqs /\
      quota_used w <= quota_used (m w).2 <= quota_used w + cost_of rqs.

(** The computation changes nothing of the session but the counter and the
    trace of requests. *)
Definition frames {A} (m : M A) : Prop :=
  forall w, exists q rqs, (m w).2 = touch q rqs w.

(** A precondition on the session, a postcondition on the outcome. *)
Definition triple {A} (P : world -> Prop) (m : M A)
    (Q : option A -> world -> Prop) : Prop :=
  forall w, P w -> Q (m w).1 (m w).2.

(** The keys of [stats] are distinct, as in any dictionary. *)
Definition unique_keys {V} (d : odict V) : Prop := NoDup (map fst d).

(** Every stored value of the statistics cache has distinct keys and the
    results list no video twice. *)
Definition session_ok (w : world) : Prop :=
  (forall k stored stats,
     cache_stats w !! k = Some (stored, stats) -> unique_keys stats) /\
  NoDup (map r_video_id (results w)).

(** ** Items of a search page *)

(** An item the comprehension of lines 207-208 can read: it has a kind,
    and a video id when the kind is that of a video. *)
Definition readable_item (item : search_item) : Prop :=
  is_Some (si_kind item) /\
  (si_kind item = Some "youtube#video" -> is_Some (si_videoId item)).

(** The video id of an item of the video kind. *)
Definition video_id_of (item : search_item) : option string :=
  if decide (si_kind item = Some "youtube#video") then si_videoId item else None.

(** An item [fetch_stats] cannot convert: line 258 or one of the [int]
    calls of lines 269-271 raises. *)
Definition unreadable_video (py_int isodate_seconds : string -> option Z)
    (item : video_item) : Prop :=
  stats_of_item py_int isodate_seconds item = None.

(** The stored publish time of a statistics entry parses. *)
Definition dated (strptime : string -> option Z) (entry : string * video_stats) : Prop :=
  is_Some (strptime (published_at entry.2)).

(** The entries the result loop makes a row of: the publish time parses
    and the counts fit a float. *)
Definition kept (strptime : string -> option Z) (entry : string * video_stats) : Prop :=
  dated strptime entry /\ counts_fit entry.2 = true.

(** The numbers a row shows are those its score and velocity were computed
    from. *)
Definition row_consistent (row : result_row) : Prop :=
  calc_global_score (r_views row) (r_likes row) (r_comments row)
    (r_subscribers row) (r_hours_since row) = Some (r_score row) /\
  row_velocity (r_views row) (r_hours_since row) = Some (r_velocity row).

(** The fields of the session a fetcher with store [get] leaves alone when
    called with the arguments [k]: the entries of its store under other
    arguments, the three other stores, and the results. *)
Definition keeps_others {K V} `{Countable K} (get : world -> gmap K (Z * V))
    (k : K) (w w' : world) : Prop :=
  (forall k', k' <> k -> get w' !! k' = get w !! k') /\
  results w' = results w.

(** A repeated call after a reset of the counter: the first call at [t1],
    then the reset button, then the same call at [t2]. *)
Definition call_reset_call {K V} (f : K -> Z -> M V) (k : K) (t1 t2 : Z) (w : world)
    : option V * option V * world :=
  let first := f k t1 w in
  let second := f k t2 (reset_quota first.2).2 in
  (first.1, second.1, second.2).

(** The region argument the keyword button passes to the fetcher (lines
    379-383). *)
Definition region_argument (region_code : string) : option string :=
  if decide (region_code = "GLOBAL") then None else Some region_code.

(** A statistics request for at most 50 ids. *)
Definition is_videos_batch (api_key : string) (rq : request) : Prop :=
  exists ids, rq = ReqVideos api_key ids /\ (length ids <= 50)%nat.

(* ================================================================= *)
(** * Properties *)

(** ** Python [min], [max] and [round] *)

Section PyFacts.
Local Open Scope Q_scope.

Lemma py_min_spec a b :
  (b < a /\ Py.min a b = b) \/ (a <= b /\ Py.min a b = a).
Proof.
  unfold Py.min. destruct (Qcompare_spec b a) as [E|L|G].
  - right. split; [rewrite E; apply Qle_refl | reflexivity].
  - left. split; [exact L | reflexivity].
  - right. split; [apply Qlt_le_weak, G | reflexivity].
Qed.

Lemma py_min_le_l a b : Py.min a b <= a.
Proof. destruct (py_min_spec a b) as [[L ->]|[L ->]]; lra. Qed.


Lemma py_min_glb a b c : c <= a -> c <= b -> c <= Py.min a b.
Proof. intros Ha Hb. destruct (py_min_spec a b) as [[L ->]|[L ->]]; lra. Qed.


Lemma py_max_spec a b :
  (a < b /\ Py.max a b = b) \/ (b <= a /\ Py.max a b = a).
Proof.
  unfold Py.max. destruct (Qcompare_spec b a) as [E|L|G].
  - right. split; [rewrite E; apply Qle_refl | reflexivity].
  - right. split; [apply Qlt_le_weak, L | reflexivity].
  - left. split; [exact G | reflexivity].
Qed.

Lemma round_half_even_comp x y :
  x == y -> Py.round_half_even x = Py.round_half_even y.
Proof.
  intros E. unfold Py.round_half_even.
  rewrite (Qfloor_comp _ _ E).
  assert (C : (x - inject_Z (Qfloor y) ?= 1 # 2) = (y - inject_Z (Qfloor y) ?= 1 # 2))
    by (apply Qcompare_comp; [rewrite E|]; reflexivity).
  rewrite C. reflexivity.
Qed.

Lemma round_half_even_bounds y :
  (Qfloor y <= Py.round_half_even y <= Qfloor y + 1)%Z.
Proof.
  unfold Py.round_half_even.
  destruct (_ ?= _); [destruct (Z.even _)|..]; lia.
Qed.

Lemma round_half_even_Z z : Py.round_half_even (inject_Z z) = z.
Proof.
  unfold Py.round_half_even. rewrite Qfloor_Z.
  destruct (Qcompare_spec (inject_Z z - inject_Z z) (1 # 2)) as [E|L|G];
    [lra | reflexivity | lra].
Qed.

Lemma round_half_even_mono x y :
  x <= y -> (Py.round_half_even x <= Py.round_half_even y)%Z.
Proof.
  intros Hxy.
  pose proof (Qfloor_resp_le _ _ Hxy) as Hf.
  pose proof (round_half_even_bounds x) as Bx.
  pose proof (round_half_even_bounds y) as By.
  destruct (Z.eq_dec (Qfloor x) (Qfloor y)) as [E|N]; [|lia].
  unfold Py.round_half_even in *. rewrite E in *.
  destruct (Qcompare_spec (x - inject_Z (Qfloor y)) (1 # 2)) as [Ex|Lx|Gx];
    destruct (Qcompare_spec (y - inject_Z (Qfloor y)) (1 # 2)) as [Ey|Ly|Gy];
    try destruct (Z.even (Qfloor y)); try lia; lra.
Qed.


End PyFacts.

(** ** The score: every division succeeds *)

Section ScoreFacts.
Local Open Scope Q_scope.

Lemma py_div_some a b : ~ b == 0 -> Py.div a b = Some (a / b).
Proof.
  intros N. unfold Py.div.
  destruct (Qeq_bool b 0) eqn:E; [|reflexivity].
  apply Qeq_bool_eq in E. contradiction.
Qed.

Lemma py_div_zero a b : b == 0 -> Py.div a b = None.
Proof. intros E. unfold Py.div. rewrite (Qeq_eq_bool _ _ E). reflexivity. Qed.

Lemma score_hours_nonpos h : h <= 0 -> score_hours h = 1 # 10.
Proof.
  intros H. unfold score_hours.
  apply Qle_bool_iff in H. rewrite H. reflexivity.
Qed.

Lemma score_hours_pos_id h : 0 < h -> score_hours h = h.
Proof.
  intros H. unfold score_hours.
  destruct (Qle_bool h 0) eqn:E; [|reflexivity].
  apply Qle_bool_iff in E. lra.
Qed.

Lemma score_hours_pos h : 0 < score_hours h.
Proof.
  destruct (Qlt_le_dec 0 h) as [P|N].
  - rewrite score_hours_pos_id; assumption.
  - rewrite score_hours_nonpos by assumption. reflexivity.
Qed.

Lemma inject_Z_pos z : (0 < z)%Z -> 0 < inject_Z z.
Proof. intros H. change 0 with (inject_Z 0). rewrite <- Zlt_Qlt. exact H. Qed.

Lemma velocity_score_eq views h :
  velocity_score views h = Some (velocity_score_v views h).
Proof.
  unfold velocity_score, velocity_score_v.
  pose proof (score_hours_pos h) as P.
  rewrite py_div_some by lra. cbn.
  rewrite py_div_some by discriminate. reflexivity.
Qed.

Lemma engagement_score_eq views likes comments :
  engagement_score views likes comments
  = Some (engagement_score_v views likes comments).
Proof.
  unfold engagement_score, engagement_score_v.
  assert (P : 0 < inject_Z (Z.max views 1)) by (apply inject_Z_pos; lia).
  rewrite py_div_some by lra. reflexivity.
Qed.

Lemma views_score_eq views : views_score views = Some (views_score_v views).
Proof.
  unfold views_score, views_score_v.
  rewrite py_div_some by discriminate. reflexivity.
Qed.

Lemma sub_score_eq views subscribers :
  sub_score views subscribers = Some (sub_score_v views subscribers).
Proof.
  unfold sub_score, sub_score_v.
  destruct (0 <? subscribers)%Z eqn:E; [|reflexivity].
  apply Z.ltb_lt in E. apply inject_Z_pos in E.
  rewrite py_div_some by lra. reflexivity.
Qed.

Lemma calc_global_score_eq views likes comments subscribers h :
  calc_global_score views likes comments subscribers h
  = Some (Py.round1 (Py.min 100 (total_score_v views likes comments subscribers h))).
Proof.
  unfold calc_global_score.
  rewrite velocity_score_eq, engagement_score_eq, views_score_eq, sub_score_eq.
  reflexivity.
Qed.

(** *** Quotients *)


End ScoreFacts.

(** ** Binary64 arithmetic

    Facts about rounding to the nearest float, and about the operations
    of the score on floats that are not negative. *)

Section FloatFacts.
Local Open Scope Q_scope.
Import F64.

Lemma pow2_pos e : 0 < pow2 e.
Proof. apply Qpower_0_lt. reflexivity. Qed.

Lemma pow2_add a b : pow2 (a + b) == pow2 a * pow2 b.
Proof. apply Qpower_plus. discriminate. Qed.

Lemma pow2_le a b : (a <= b)%Z -> pow2 a <= pow2 b.
Proof. intros H. apply Qpower_le_compat_l; [exact H | discriminate]. Qed.

Lemma pow2_lt a b : (a < b)%Z -> pow2 a < pow2 b.
Proof. intros H. apply Qpower_lt_compat_l; [exact H | reflexivity]. Qed.

Lemma pow2_Z e : (0 <= e)%Z -> pow2 e == inject_Z (2 ^ e).
Proof. intros H. unfold pow2. rewrite Zpower_Qpower by exact H. reflexivity. Qed.

Lemma pow2_lt_inv a b : pow2 a < pow2 b -> (a < b)%Z.
Proof. intros H. apply (Qpower_lt_compat_l_inv 2); [exact H | reflexivity]. Qed.

(** A multiple of [2^e] is an integer multiple of any smaller power. *)
Lemma pow2_grid m e u :
  (u <= e)%Z -> inject_Z m * pow2 e == inject_Z (m * 2 ^ (e - u)) * pow2 u.
Proof.
  intros H. rewrite inject_Z_mult, <- pow2_Z by lia.
  replace e with ((e - u) + u)%Z at 1 by lia. rewrite pow2_add. ring.
Qed.

Lemma round_half_even_near y :
  y - (1 # 2) <= inject_Z (Py.round_half_even y) /\
  inject_Z (Py.round_half_even y) <= y + (1 # 2).
Proof.
  pose proof (Qfloor_le y) as Lo. pose proof (Qlt_floor y) as Hi.
  rewrite inject_Z_plus in Hi. change (inject_Z 1) with 1 in Hi.
  assert (P : inject_Z (Qfloor y + 1) == inject_Z (Qfloor y) + 1)
    by (rewrite inject_Z_plus; reflexivity).
  unfold Py.round_half_even.
  destruct (Qcompare_spec (y - inject_Z (Qfloor y)) (1 # 2)) as [E|L|G].
  - destruct (Z.even (Qfloor y)); [|rewrite P]; lra.
  - lra.
  - rewrite P. lra.
Qed.

Lemma pow2_sub a b :
  (0 <= a)%Z -> (0 <= b)%Z -> pow2 (a - b) == inject_Z (2 ^ a) / inject_Z (2 ^ b).
Proof.
  intros Ha Hb. unfold pow2 at 1. rewrite Qpower_minus by discriminate.
  fold (pow2 a) (pow2 b). rewrite !pow2_Z by assumption. reflexivity.
Qed.

Lemma Qmake_lt_div n d p q :
  (0 < q)%Z -> (n * q < p * Z.pos d)%Z -> n # d < inject_Z p / inject_Z q.
Proof.
  intros Hq H. apply Qlt_shift_div_l.
  - change 0 with (inject_Z 0). rewrite <- Zlt_Qlt. exact Hq.
  - unfold Qlt, Qmult, inject_Z. cbn. lia.
Qed.

Lemma Qmake_ge_div n d p q :
  (0 < q)%Z -> (p * Z.pos d <= n * q)%Z -> inject_Z p / inject_Z q <= n # d.
Proof.
  intros Hq H. apply Qle_shift_div_r.
  - change 0 with (inject_Z 0). rewrite <- Zlt_Qlt. exact Hq.
  - unfold Qle, Qmult, inject_Z. cbn. lia.
Qed.

Lemma ilog2_spec x :
  0 < x -> pow2 (ilog2 x) <= x /\ x < pow2 (ilog2 x + 1).
Proof.
  destruct x as [n d]. intros Hx.
  assert (Hn : (0 < n)%Z) by (unfold Qlt in Hx; cbn in Hx; lia).
  pose proof (Z.log2_spec n Hn) as [Ln Un].
  pose proof (Z.log2_spec (Z.pos d) eq_refl) as [Ld Ud].
  pose proof (Z.log2_nonneg n) as An. pose proof (Z.log2_nonneg (Z.pos d)) as Ad.
  unfold ilog2. cbn [Qnum Qden].
  set (a := Z.log2 n) in *. set (b := Z.log2 (Z.pos d)) in *.
  assert (Pa : (0 < 2 ^ a)%Z) by (apply Z.pow_pos_nonneg; lia).
  assert (Pb : (0 < 2 ^ b)%Z) by (apply Z.pow_pos_nonneg; lia).
  assert (Sa : (2 ^ Z.succ a = 2 * 2 ^ a)%Z) by (apply Z.pow_succ_r; lia).
  assert (Sb : (2 ^ Z.succ b = 2 * 2 ^ b)%Z) by (apply Z.pow_succ_r; lia).
  destruct (Qle_bool (pow2 (a - b)) (n # d)) eqn:E.
  - apply Qle_bool_iff in E. split; [exact E|].
    replace (a - b + 1)%Z with (Z.succ a - b)%Z by lia.
    rewrite pow2_sub by lia. apply Qmake_lt_div; [exact Pb | nia].
  - assert (L : n # d < pow2 (a - b)).
    { apply Qnot_le_lt. intros C. apply Qle_bool_iff in C. congruence. }
    split.
    + replace (a - b - 1)%Z with (a - Z.succ b)%Z by lia.
      rewrite pow2_sub by lia. apply Qmake_ge_div; [lia | nia].
    + replace (a - b - 1 + 1)%Z with (a - b)%Z by lia. exact L.
Qed.

Lemma ilog2_unique x e :
  pow2 e <= x -> x < pow2 (e + 1) -> ilog2 x = e.
Proof.
  intros Lo Hi.
  assert (Hx : 0 < x) by (pose proof (pow2_pos e); lra).
  destruct (ilog2_spec x Hx) as [Lo' Hi'].
  assert (A : (ilog2 x < e + 1)%Z) by (apply pow2_lt_inv; lra).
  assert (B : (e < ilog2 x + 1)%Z) by (apply pow2_lt_inv; lra).
  lia.
Qed.

Lemma ilog2_mono x y : 0 < x -> x <= y -> (ilog2 x <= ilog2 y)%Z.
Proof.
  intros Hx Hxy.
  destruct (ilog2_spec x Hx) as [Lx _].
  destruct (ilog2_spec y) as [_ Uy]; [lra|].
  assert (A : (ilog2 x < ilog2 y + 1)%Z) by (apply pow2_lt_inv; lra).
  lia.
Qed.

Lemma ilog2_lt x k : 0 < x -> x < pow2 k -> (ilog2 x < k)%Z.
Proof.
  intros Hx H. destruct (ilog2_spec x Hx) as [Lx _].
  apply pow2_lt_inv. lra.
Qed.

Lemma ulp_exponent_min x : (-1074 <= ulp_exponent x)%Z.
Proof. unfold ulp_exponent. lia. Qed.

Lemma ulp_exponent_lt x k :
  ~ x == 0 -> Qabs x < pow2 k -> (ulp_exponent x <= Z.max (k - 53) (-1074))%Z.
Proof.
  intros Nx H.
  assert (P : 0 < Qabs x).
  { destruct (Q_dec x 0) as [[L|G]|E]; [| |contradiction];
      apply Qabs_case; intros; lra. }
  pose proof (ilog2_lt _ _ P H). unfold ulp_exponent. lia.
Qed.

Lemma ulp_exponent_ge x k :
  pow2 k <= Qabs x -> (k - 52 <= ulp_exponent x)%Z.
Proof.
  intros H. pose proof (pow2_pos k) as P.
  pose proof (ilog2_mono _ _ P H) as M.
  rewrite (ilog2_unique (pow2 k) k) in M;
    [|apply Qle_refl | apply pow2_lt; lia].
  unfold ulp_exponent. lia.
Qed.

Lemma scaled_ulp x : x / pow2 (ulp_exponent x) * pow2 (ulp_exponent x) == x.
Proof. pose proof (pow2_pos (ulp_exponent x)). field. lra. Qed.

Lemma round_fin_zero x : x == 0 -> round_fin x == 0.
Proof.
  intros E. unfold round_fin. generalize (pow2 (ulp_exponent x)). intros p.
  rewrite (round_half_even_comp (x / p) 0).
  - change (Py.round_half_even 0) with 0%Z. ring.
  - rewrite E. unfold Qdiv. ring.
Qed.

Lemma round_fin_le x m e :
  (ulp_exponent x <= e)%Z -> x <= inject_Z m * pow2 e ->
  round_fin x <= inject_Z m * pow2 e.
Proof.
  intros Hu Hx. rewrite (pow2_grid m e _ Hu) in *.
  pose proof (pow2_pos (ulp_exponent x)) as P.
  unfold round_fin. apply Qmult_le_compat_r; [|lra].
  rewrite <- Zle_Qle.
  rewrite <- (round_half_even_Z (m * 2 ^ (e - ulp_exponent x))).
  apply round_half_even_mono. apply Qle_shift_div_r; assumption.
Qed.

Lemma round_fin_ge x m e :
  (ulp_exponent x <= e)%Z -> inject_Z m * pow2 e <= x ->
  inject_Z m * pow2 e <= round_fin x.
Proof.
  intros Hu Hx. rewrite (pow2_grid m e _ Hu) in *.
  pose proof (pow2_pos (ulp_exponent x)) as P.
  unfold round_fin. apply Qmult_le_compat_r; [|lra].
  rewrite <- Zle_Qle.
  rewrite <- (round_half_even_Z (m * 2 ^ (e - ulp_exponent x))).
  apply round_half_even_mono. apply Qle_shift_div_l; assumption.
Qed.

Lemma round_fin_near x :
  x - pow2 (ulp_exponent x) * (1 # 2) <= round_fin x /\
  round_fin x <= x + pow2 (ulp_exponent x) * (1 # 2).
Proof.
  pose proof (pow2_pos (ulp_exponent x)) as P.
  pose proof (round_half_even_near (x / pow2 (ulp_exponent x))) as [Lo Hi].
  pose proof (scaled_ulp x) as S.
  unfold round_fin.
  set (y := x / pow2 (ulp_exponent x)) in *.
  set (r := inject_Z (Py.round_half_even y)) in *.
  set (p := pow2 (ulp_exponent x)) in *.
  clearbody r. clearbody y. clearbody p.
  split.
  - apply (Qmult_le_compat_r _ _ p) in Lo; [|lra].
    assert (E : x - p * (1 # 2) == (y - (1 # 2)) * p) by (rewrite <- S; ring).
    rewrite E. exact Lo.
  - apply (Qmult_le_compat_r _ _ p) in Hi; [|lra].
    assert (E : x + p * (1 # 2) == (y + (1 # 2)) * p) by (rewrite <- S; ring).
    rewrite E. exact Hi.
Qed.

Lemma round_fin_nonneg x : 0 <= x -> 0 <= round_fin x.
Proof.
  intros H. pose proof (pow2_pos (ulp_exponent x)) as P.
  unfold round_fin. apply Qmult_le_0_compat; [|lra].
  change 0 with (inject_Z 0). rewrite <- Zle_Qle.
  rewrite <- (round_half_even_Z 0). apply round_half_even_mono.
  apply Qle_shift_div_l; [exact P|]. change (inject_Z 0) with 0. lra.
Qed.

Lemma rnd_spec x :
  match rnd x with
  | Fin q => q == round_fin x /\ - pow2 1024 < q /\ q < pow2 1024
  | PInf => pow2 1024 <= round_fin x
  | NInf => round_fin x <= - pow2 1024
  | NaN => False
  end.
Proof.
  unfold rnd. cbv zeta. pose proof (Qred_correct (round_fin x)) as R.
  destruct (Qle_bool (pow2 1024) (Qred (round_fin x))) eqn:E1.
  - apply Qle_bool_iff in E1. rewrite R in E1. exact E1.
  - assert (L1 : Qred (round_fin x) < pow2 1024).
    { apply Qnot_le_lt. intros C. apply Qle_bool_iff in C. congruence. }
    destruct (Qle_bool (Qred (round_fin x)) (- pow2 1024)) eqn:E2.
    + apply Qle_bool_iff in E2. rewrite R in E2. exact E2.
    + assert (L2 : - pow2 1024 < Qred (round_fin x)).
      { apply Qnot_le_lt. intros C. apply Qle_bool_iff in C. congruence. }
      split; [exact R | split; assumption].
Qed.

Lemma rnd_finite x :
  - pow2 1024 < round_fin x -> round_fin x < pow2 1024 ->
  exists q, rnd x = Fin q /\ q == round_fin x.
Proof.
  intros Lo Hi. pose proof (rnd_spec x) as S.
  destruct (rnd x) as [q| | |]; [|lra|lra|contradiction].
  exists q. split; [reflexivity | apply S].
Qed.

Lemma ulp_half_970 x :
  ~ x == 0 -> Qabs x < pow2 1024 -> pow2 (ulp_exponent x) * (1 # 2) <= pow2 970.
Proof.
  intros Nx H. pose proof (ulp_exponent_lt x 1024 Nx H) as U.
  assert (L : pow2 (ulp_exponent x) <= pow2 971) by (apply pow2_le; lia).
  assert (E : pow2 971 == 2 * pow2 970)
    by (change 971%Z with (1 + 970)%Z; rewrite pow2_add; reflexivity).
  lra.
Qed.

(** A real number that fits rounds to a finite float, at most [2^970]
    away from it. *)
Lemma rnd_fits x :
  fits x ->
  exists q, rnd x = Fin q /\ q == round_fin x /\
            x - pow2 970 <= q /\ q <= x + pow2 970.
Proof.
  unfold fits. intros F.
  pose proof (pow2_pos 970) as P970.
  assert (Ax : - (pow2 1024 - pow2 970) < x /\ x < pow2 1024 - pow2 970).
  { revert F. apply Qabs_case; intros; lra. }
  assert (B : x - pow2 970 <= round_fin x /\ round_fin x <= x + pow2 970).
  { destruct (Qeq_dec x 0) as [E|N].
    - rewrite (round_fin_zero x E). lra.
    - pose proof (round_fin_near x) as [Lo Hi].
      assert (A : Qabs x < pow2 1024) by lra.
      pose proof (ulp_half_970 x N A). lra. }
  destruct (rnd_finite x) as [q [E Q]]; [lra | lra |].
  exists q. split; [exact E | split; [exact Q | lra]].
Qed.

Lemma rnd_nonneg x :
  0 <= x ->
  match rnd x with
  | Fin q => 0 <= q
  | PInf => True
  | _ => False
  end.
Proof.
  intros H. pose proof (round_fin_nonneg x H) as N.
  pose proof (pow2_pos 1024) as P.
  pose proof (rnd_spec x) as S.
  destruct (rnd x) as [q| | |]; [|exact I|lra|exact S].
  destruct S as [E _]. lra.
Qed.

(** Rounding does not cross an integer below [2^53]. *)
Lemma rnd_le_int x N :
  0 <= x -> x <= inject_Z N -> (N < 2 ^ 53)%Z ->
  exists q, rnd x = Fin q /\ 0 <= q /\ q <= inject_Z N.
Proof.
  intros H0 H1 HN.
  pose proof (round_fin_nonneg x H0) as R0.
  assert (R1 : round_fin x <= inject_Z N).
  { destruct (Qeq_dec x 0) as [E|Nx].
    - rewrite (round_fin_zero x E). lra.
    - assert (U : (ulp_exponent x <= 0)%Z).
      { assert (A : Qabs x < pow2 53).
        { rewrite Qabs_pos by exact H0. rewrite pow2_Z by lia.
          eapply Qle_lt_trans; [exact H1|]. rewrite <- Zlt_Qlt. exact HN. }
        pose proof (ulp_exponent_lt x 53 Nx A). lia. }
      pose proof (round_fin_le x N 0 U) as L.
      change (pow2 0) with 1 in L. rewrite Qmult_1_r in L. apply L, H1. }
  assert (B : inject_Z N < pow2 1024).
  { rewrite pow2_Z by lia. rewrite <- Zlt_Qlt.
    eapply Z.lt_trans; [exact HN | reflexivity]. }
  pose proof (pow2_pos 1024) as P.
  destruct (rnd_finite x) as [q [E Q]]; [lra | lra |].
  exists q. split; [exact E | split; lra].
Qed.

Lemma pow2_shift m e : inject_Z (2 ^ m) * pow2 e == pow2 (m + e) \/ (m < 0)%Z.
Proof.
  destruct (Z_lt_le_dec m 0) as [N|P]; [right; exact N | left].
  rewrite pow2_add, (pow2_Z m) by exact P. reflexivity.
Qed.

Lemma pow2_shift_52 e : inject_Z (2 ^ 52) * pow2 e == pow2 (52 + e).
Proof. destruct (pow2_shift 52 e) as [E|N]; [exact E | lia]. Qed.

Lemma pow2_shift_53 e : inject_Z (2 ^ 53) * pow2 e == pow2 (53 + e).
Proof. destruct (pow2_shift 53 e) as [E|N]; [exact E | lia]. Qed.

(** From the midpoint between the largest float and [2^1024] on, the
    rounded value is infinite. *)
Lemma rnd_overflow x : pow2 1024 - pow2 970 <= x -> rnd x = PInf.
Proof.
  intros H.
  assert (C1 : pow2 1023 <= pow2 1024 - pow2 970)
    by (unfold Qle; vm_compute; discriminate).
  pose proof (pow2_pos 1023) as P1023. pose proof (pow2_pos 1024) as P1024.
  assert (A : pow2 1023 <= Qabs x) by (rewrite Qabs_pos; lra).
  pose proof (ulp_exponent_ge x 1023 A) as U.
  assert (R : pow2 1024 <= round_fin x).
  { destruct (Z.eq_dec (ulp_exponent x) 971%Z) as [E|N].
    - unfold round_fin. rewrite E.
      assert (M : (2 ^ 53 <= Py.round_half_even (x / pow2 971))%Z).
      { assert (V : Py.round_half_even ((pow2 1024 - pow2 970) / pow2 971) = (2 ^ 53)%Z)
          by (vm_compute; reflexivity).
        rewrite <- V. apply round_half_even_mono.
        unfold Qdiv. apply Qmult_le_compat_r; [exact H|].
        apply Qlt_le_weak, Qinv_lt_0_compat, pow2_pos. }
      rewrite Zle_Qle in M.
      apply (Qmult_le_compat_r _ _ (pow2 971)) in M;
        [|apply Qlt_le_weak, pow2_pos].
      rewrite pow2_shift_53 in M. exact M.
    - assert (I : ulp_exponent x = (ilog2 (Qabs x) - 52)%Z)
        by (unfold ulp_exponent in *; lia).
      destruct (ilog2_spec (Qabs x)) as [Lo _]; [lra|].
      replace (ilog2 (Qabs x)) with (52 + ulp_exponent x)%Z in Lo by lia.
      rewrite Qabs_pos in Lo by lra.
      rewrite <- pow2_shift_52 in Lo.
      pose proof (round_fin_ge x (2 ^ 52) _ (Z.le_refl _) Lo) as G.
      rewrite pow2_shift_52 in G.
      assert (L : pow2 1024 <= pow2 (52 + ulp_exponent x)) by (apply pow2_le; lia).
      lra. }
  pose proof (rnd_spec x) as S.
  destruct (rnd x) as [q| | |]; [lra | reflexivity | lra | contradiction].
Qed.

Lemma round_fin_mantissa x :
  ~ x == 0 ->
  (Z.abs (Py.round_half_even (x / pow2 (ulp_exponent x))) <= 2 ^ 53)%Z.
Proof.
  intros Nx.
  assert (P : 0 < Qabs x).
  { destruct (Q_dec x 0) as [[L|G]|E]; [| |contradiction];
      apply Qabs_case; intros; lra. }
  destruct (ilog2_spec (Qabs x) P) as [_ Hi].
  pose proof (pow2_pos (ulp_exponent x)) as Pu.
  assert (B : Qabs x < inject_Z (2 ^ 53) * pow2 (ulp_exponent x)).
  { rewrite pow2_shift_53. eapply Qlt_le_trans; [exact Hi|].
    apply pow2_le. unfold ulp_exponent. lia. }
  assert (Bx : - (inject_Z (2 ^ 53) * pow2 (ulp_exponent x)) < x
               /\ x < inject_Z (2 ^ 53) * pow2 (ulp_exponent x)).
  { revert B. apply Qabs_case; intros; lra. }
  destruct Bx as [B1 B2].
  assert (U : (Py.round_half_even (x / pow2 (ulp_exponent x)) <= 2 ^ 53)%Z).
  { rewrite <- (round_half_even_Z (2 ^ 53)). apply round_half_even_mono.
    apply Qle_shift_div_r; [exact Pu | lra]. }
  assert (L : (- 2 ^ 53 <= Py.round_half_even (x / pow2 (ulp_exponent x)))%Z).
  { rewrite <- (round_half_even_Z (- 2 ^ 53)). apply round_half_even_mono.
    apply Qle_shift_div_l; [exact Pu|].
    rewrite inject_Z_opp. lra. }
  lia.
Qed.

Lemma round_fin_exponent x :
  - pow2 1024 < round_fin x -> round_fin x < pow2 1024 ->
  (ulp_exponent x <= 971)%Z.
Proof.
  intros Lo Hi.
  destruct (Z_le_gt_dec (ulp_exponent x) 971%Z) as [L|G]; [exact L | exfalso].
  assert (I : ulp_exponent x = (ilog2 (Qabs x) - 52)%Z)
    by (unfold ulp_exponent in *; lia).
  assert (B : pow2 1024 <= pow2 (52 + ulp_exponent x)) by (apply pow2_le; lia).
  assert (Nx : 0 < Qabs x).
  { destruct (Qeq_dec x 0) as [E|N].
    - pose proof (round_fin_zero x E) as Z0.
      exfalso. clear Lo Hi B.
      assert (U0 : (ilog2 (Qabs x) <= 0)%Z).
      { unfold ilog2.
        assert (Q0 : Qnum (Qabs x) = 0%Z).
        { destruct x as [n d]. unfold Qeq in E. cbn in *.
          assert (n = 0%Z) by lia. subst n. reflexivity. }
        rewrite Q0. change (Z.log2 0) with 0%Z.
        pose proof (Z.log2_nonneg (Z.pos (Qden (Qabs x)))) as Ln.
        destruct (Qle_bool _ _); lia. }
      lia.
    - destruct (Q_dec x 0) as [[L|G']|E]; [| |contradiction];
        apply Qabs_case; intros; lra. }
  destruct (ilog2_spec (Qabs x) Nx) as [Lx _].
  replace (ilog2 (Qabs x)) with (52 + ulp_exponent x)%Z in Lx by lia.
  rewrite <- pow2_shift_52 in Lx, B.
  destruct (Qlt_le_dec 0 x) as [Px|Mx].
  - rewrite Qabs_pos in Lx by lra.
    pose proof (round_fin_ge x (2 ^ 52) _ (Z.le_refl _) Lx). lra.
  - rewrite Qabs_neg in Lx by exact Mx.
    assert (Lx' : x <= inject_Z (- 2 ^ 52) * pow2 (ulp_exponent x))
      by (rewrite inject_Z_opp; lra).
    pose proof (round_fin_le x (- 2 ^ 52) _ (Z.le_refl _) Lx') as R.
    rewrite inject_Z_opp in R. lra.
Qed.

(** The rounded value is a float: 53 bits of mantissa and an exponent in
    the range of the format. *)
Lemma rnd_binary64 x q : rnd x = Fin q -> is_binary64 q.
Proof.
  intros E. pose proof (rnd_spec x) as S. rewrite E in S.
  destruct S as (Q & Lo & Hi). rewrite Q in Lo, Hi.
  destruct (Qeq_dec x 0) as [Z0|Nx].
  { exists 0%Z, 0%Z. rewrite Q, (round_fin_zero x Z0).
    split; [reflexivity | split; [reflexivity | lia]]. }
  pose proof (round_fin_mantissa x Nx) as M.
  pose proof (round_fin_exponent x Lo Hi) as U.
  pose proof (ulp_exponent_min x) as U'.
  unfold round_fin in *.
  set (m := Py.round_half_even (x / pow2 (ulp_exponent x))) in *.
  set (u := ulp_exponent x) in *.
  destruct (Z.eq_dec (Z.abs m) (2 ^ 53)%Z) as [T|T].
  - assert (U2 : (u <= 970)%Z).
    { destruct (Z_le_gt_dec u 970%Z) as [L|G]; [exact L | exfalso].
      assert (B : pow2 1024 <= pow2 (53 + u)) by (apply pow2_le; lia).
      rewrite <- pow2_shift_53 in B.
      destruct (Z.abs_eq_or_opp m) as [A|A]; rewrite A in T.
      + rewrite T in Hi. lra.
      + assert (Em : m = (- 2 ^ 53)%Z) by lia.
        rewrite Em, inject_Z_opp in Lo. lra. }
    exists (m / 2)%Z, (u + 1)%Z. split; [|split; [|lia]].
    + rewrite Q. rewrite Z.add_comm, pow2_add.
      change (pow2 1) with 2.
      assert (Em : m = (2 * (m / 2))%Z).
      { destruct (Z.abs_eq_or_opp m) as [A|A]; rewrite A in T.
        - rewrite T. reflexivity.
        - assert (Em : m = (- 2 ^ 53)%Z) by lia. rewrite Em. reflexivity. }
      rewrite Em at 1. rewrite inject_Z_mult. change (inject_Z 2) with 2. ring.
    + destruct (Z.abs_eq_or_opp m) as [A|A]; rewrite A in T.
      * rewrite T. vm_compute. reflexivity.
      * assert (Em : m = (- 2 ^ 53)%Z) by lia. rewrite Em. vm_compute. reflexivity.
  - exists m, u. split; [exact Q | split; lia].
Qed.

Lemma fits_le x y : Qabs x <= Qabs y -> fits y -> fits x.
Proof. unfold fits. intros L F. lra. Qed.

Lemma rnd_fits_nonneg x :
  0 <= x -> fits x -> exists q, rnd x = Fin q /\ 0 <= q.
Proof.
  intros H F. destruct (rnd_fits x F) as (q & E & _).
  exists q. split; [exact E|].
  pose proof (rnd_nonneg x H) as N. rewrite E in N. exact N.
Qed.

(** Results up to 100: the float is within [2^-47] of the real number. *)
Lemma rnd_small x N :
  0 <= x -> x <= inject_Z N -> (N <= 100)%Z ->
  exists q, rnd x = Fin q /\ 0 <= q /\ q <= inject_Z N /\
            x - pow2 (-47) <= q /\ q <= x + pow2 (-47).
Proof.
  intros H0 H1 HN.
  destruct (rnd_le_int x N H0 H1) as (q & E & Q0 & Q1); [lia|].
  exists q. split; [exact E|]. split; [exact Q0|]. split; [exact Q1|].
  pose proof (rnd_spec x) as S. rewrite E in S. destruct S as [Q _].
  pose proof (pow2_pos (-47)) as P47.
  destruct (Qeq_dec x 0) as [Z0|Nx].
  - rewrite (round_fin_zero x Z0) in Q. lra.
  - pose proof (round_fin_near x) as [Lo Hi].
    assert (A : Qabs x < pow2 7).
    { rewrite Qabs_pos by exact H0. eapply Qle_lt_trans; [exact H1|].
      rewrite pow2_Z by lia. rewrite <- Zlt_Qlt. change (2 ^ 7)%Z with 128%Z. lia. }
    pose proof (ulp_exponent_lt x 7 Nx A) as U.
    assert (L : pow2 (ulp_exponent x) <= pow2 (-46)) by (apply pow2_le; lia).
    assert (T : pow2 (-46) == 2 * pow2 (-47)) by reflexivity.
    lra.
Qed.

Lemma is_pos_true q : 0 < q -> is_pos q = true.
Proof.
  intros H. unfold is_pos. destruct (Qle_bool q 0) eqn:E; [|reflexivity].
  apply Qle_bool_iff in E. lra.
Qed.

Lemma Qeq_bool_pos q : 0 < q -> Qeq_bool q 0 = false.
Proof.
  intros H. destruct (Qeq_bool q 0) eqn:E; [|reflexivity].
  apply Qeq_bool_eq in E. lra.
Qed.

Lemma rnd_not_negative x : 0 <= x -> not_negative (rnd x).
Proof.
  intros H. pose proof (rnd_nonneg x H) as N.
  destruct (rnd x); [exact N | exact I | contradiction | contradiction].
Qed.

Lemma score_hours_divisor h : positive_divisor (score_hours h).
Proof.
  unfold score_hours. destruct h as [q| | |]; cbn; try exact I; try reflexivity.
  destruct (Qle_bool q 0) eqn:E; cbn; [reflexivity|].
  apply Qnot_le_lt. intros C. apply Qle_bool_iff in C. congruence.
Qed.

(** Dividing by a positive divisor raises nothing. *)
Lemma fdiv_returns x d :
  positive_divisor d -> exists y, fdiv x d = Ok y.
Proof.
  intros D. destruct d as [b| | |]; cbn in D; try contradiction.
  - unfold fdiv. rewrite (Qeq_bool_pos b D). eexists. reflexivity.
  - eexists. reflexivity.
  - eexists. reflexivity.
Qed.

Lemma fdiv_not_negative x d :
  not_negative x -> positive_divisor d ->
  exists y, fdiv x d = Ok y /\ not_negative y.
Proof.
  intros X D. destruct d as [b| | |]; cbn in D; try contradiction.
  - unfold fdiv. rewrite (Qeq_bool_pos b D). eexists. split; [reflexivity|].
    destruct x as [a| | |]; cbn in X; try contradiction.
    + apply rnd_not_negative. apply Qle_shift_div_l; [exact D | lra].
    + unfold inf_signed. rewrite (is_pos_true b D). exact I.
    + exact I.
  - eexists. split; [reflexivity|]. destruct x; cbn; try exact I. apply Qle_refl.
  - eexists. split; [reflexivity|]. exact I.
Qed.

Lemma fmul_not_negative x c :
  not_negative x -> 0 < c -> not_negative (fmul x (Fin c)).
Proof.
  intros X C. destruct x as [a| | |]; cbn in X; try contradiction; cbn.
  - apply rnd_not_negative. apply Qmult_le_0_compat; lra.
  - rewrite (Qeq_bool_pos c C). unfold inf_signed. rewrite (is_pos_true c C). exact I.
  - exact I.
Qed.

(** The cap: [min(cap, x)] of a float that is not negative lies between 0
    and the cap. *)
Lemma fmin_cap cap x :
  0 <= cap -> not_negative x ->
  exists q, fmin (Fin cap) x = Fin q /\ 0 <= q /\ q <= cap.
Proof.
  intros C X. unfold fmin. destruct x as [a| | |]; cbn in X; try contradiction; cbn.
  - destruct (Qle_bool cap a) eqn:E; cbn.
    + exists cap. split; [reflexivity | lra].
    + exists a. split; [reflexivity|]. split; [exact X|].
      apply Qlt_le_weak, Qnot_le_lt. intros L. apply Qle_bool_iff in L. congruence.
  - exists cap. split; [reflexivity | lra].
  - exists cap. split; [reflexivity | lra].
Qed.

Lemma of_int_fits n :
  fits (inject_Z n) -> exists q, of_int n = Ok (Fin q).
Proof.
  intros F. destruct (rnd_fits _ F) as (q & E & _).
  exists q. unfold of_int. rewrite E. reflexivity.
Qed.

Lemma of_int_nonneg n :
  (0 <= n)%Z -> fits (inject_Z n) -> exists q, of_int n = Ok (Fin q) /\ 0 <= q.
Proof.
  intros H F.
  assert (H' : 0 <= inject_Z n) by (change 0 with (inject_Z 0); rewrite <- Zle_Qle; exact H).
  destruct (rnd_fits_nonneg _ H' F) as (q & E & Q).
  exists q. unfold of_int. rewrite E. split; [reflexivity | exact Q].
Qed.

(** Below the midpoint on the negative side the rounded value is the
    negative infinity. *)
Lemma rnd_overflow_neg x : x <= - (pow2 1024 - pow2 970) -> rnd x = NInf.
Proof.
  intros H.
  assert (C1 : pow2 1023 <= pow2 1024 - pow2 970)
    by (unfold Qle; vm_compute; discriminate).
  pose proof (pow2_pos 1023) as P1023. pose proof (pow2_pos 1024) as P1024.
  assert (A : pow2 1023 <= Qabs x) by (rewrite Qabs_neg; lra).
  pose proof (ulp_exponent_ge x 1023 A) as U.
  assert (R : round_fin x <= - pow2 1024).
  { destruct (Z.eq_dec (ulp_exponent x) 971%Z) as [E|N].
    - unfold round_fin. rewrite E.
      assert (M : (Py.round_half_even (x / pow2 971) <= - 2 ^ 53)%Z).
      { assert (V : Py.round_half_even (- (pow2 1024 - pow2 970) / pow2 971)
                    = (- 2 ^ 53)%Z)
          by (vm_compute; reflexivity).
        rewrite <- V. apply round_half_even_mono.
        unfold Qdiv. apply Qmult_le_compat_r; [exact H|].
        apply Qlt_le_weak, Qinv_lt_0_compat, pow2_pos. }
      rewrite Zle_Qle in M.
      apply (Qmult_le_compat_r _ _ (pow2 971)) in M;
        [|apply Qlt_le_weak, pow2_pos].
      rewrite inject_Z_opp in M.
      assert (S : - inject_Z (2 ^ 53) * pow2 971 == - pow2 1024)
        by (rewrite <- (pow2_shift_53 971); ring).
      rewrite S in M. exact M.
    - assert (I : ulp_exponent x = (ilog2 (Qabs x) - 52)%Z)
        by (unfold ulp_exponent in *; lia).
      destruct (ilog2_spec (Qabs x)) as [Lo _]; [lra|].
      replace (ilog2 (Qabs x)) with (52 + ulp_exponent x)%Z in Lo by lia.
      rewrite Qabs_neg in Lo by lra.
      rewrite <- pow2_shift_52 in Lo.
      assert (Lo' : x <= inject_Z (- 2 ^ 52) * pow2 (ulp_exponent x))
        by (rewrite inject_Z_opp; lra).
      pose proof (round_fin_le x (- 2 ^ 52) _ (Z.le_refl _) Lo') as G.
      rewrite inject_Z_opp in G.
      assert (L : pow2 1024 <= pow2 (52 + ulp_exponent x)) by (apply pow2_le; lia).
      rewrite <- pow2_shift_52 in L. lra. }
  pose proof (rnd_spec x) as S.
  destruct (rnd x) as [q| | |]; [lra | lra | reflexivity | contradiction].
Qed.

Lemma fitsb_spec x : fitsb x = true <-> fits x.
Proof.
  unfold fitsb, fits. destruct (Qle_bool _ _) eqn:E; unfold negb.
  - apply Qle_bool_iff in E. split; [discriminate | intros F; destruct (Qlt_not_le _ _ F E)].
  - split; [intros _ | reflexivity].
    apply Qnot_le_lt. intros C. apply Qle_bool_iff in C. congruence.
Qed.

(** A real number that does not fit rounds to an infinity. *)
Lemma rnd_not_fits x : ~ fits x -> rnd x = PInf \/ rnd x = NInf.
Proof.
  unfold fits. intros N. apply Qnot_lt_le in N.
  destruct (Qlt_le_dec x 0) as [L|G].
  - right. apply rnd_overflow_neg. rewrite Qabs_neg in N by lra. lra.
  - left. apply rnd_overflow. rewrite Qabs_pos in N by lra. exact N.
Qed.

Lemma of_int_overflow n : ~ fits (inject_Z n) -> of_int n = Raise OverflowError.
Proof.
  intros N. unfold of_int.
  destruct (rnd_not_fits _ N) as [-> | ->]; reflexivity.
Qed.

Lemma int_truediv_fits a b :
  b <> 0%Z -> fits (inject_Z a / inject_Z b) ->
  exists q, int_truediv a b = Ok (Fin q).
Proof.
  intros Nb F. destruct (rnd_fits _ F) as (q & E & _).
  exists q. unfold int_truediv.
  destruct (Z.eqb_spec b 0) as [Z0|_]; [contradiction|].
  rewrite E. reflexivity.
Qed.

Lemma quotient_nonneg a b : (0 <= a)%Z -> (0 < b)%Z -> 0 <= inject_Z a / inject_Z b.
Proof.
  intros Ha Hb. apply Qle_shift_div_l.
  - change 0 with (inject_Z 0). rewrite <- Zlt_Qlt. exact Hb.
  - rewrite Qmult_0_l. change 0 with (inject_Z 0). rewrite <- Zle_Qle. exact Ha.
Qed.

Lemma int_truediv_nonneg a b :
  (0 <= a)%Z -> (0 < b)%Z -> fits (inject_Z a / inject_Z b) ->
  exists q, int_truediv a b = Ok (Fin q) /\ 0 <= q.
Proof.
  intros Ha Hb F.
  destruct (rnd_fits_nonneg _ (quotient_nonneg a b Ha Hb) F) as (q & E & Q).
  exists q. unfold int_truediv.
  destruct (Z.eqb_spec b 0) as [Z0|_]; [lia|].
  rewrite E. split; [reflexivity | exact Q].
Qed.

Lemma int_truediv_overflow a b :
  b <> 0%Z -> ~ fits (inject_Z a / inject_Z b) ->
  int_truediv a b = Raise OverflowError.
Proof.
  intros Nb N. unfold int_truediv.
  destruct (Z.eqb_spec b 0) as [Z0|_]; [contradiction|].
  destruct (rnd_not_fits _ N) as [-> | ->]; reflexivity.
Qed.

Lemma Qabs_inject_Z_ge_1 b : b <> 0%Z -> 1 <= Qabs (inject_Z b).
Proof.
  intros Nb. apply Qabs_case; intros H.
  - change 0 with (inject_Z 0) in H. rewrite <- Zle_Qle in H.
    change 1 with (inject_Z 1). rewrite <- Zle_Qle. lia.
  - change 0 with (inject_Z 0) in H. rewrite <- Zle_Qle in H.
    rewrite <- inject_Z_opp. change 1 with (inject_Z 1). rewrite <- Zle_Qle. lia.
Qed.

(** A quotient by an integer other than zero is no larger than the
    dividend. *)
Lemma quotient_abs_le a b :
  b <> 0%Z -> Qabs (inject_Z a / inject_Z b) <= Qabs (inject_Z a).
Proof.
  intros Nb. pose proof (Qabs_inject_Z_ge_1 b Nb) as B.
  pose proof (Qabs_nonneg (inject_Z a)) as A.
  unfold Qdiv. rewrite Qabs_Qmult, Qabs_Qinv.
  apply Qle_shift_div_r; [lra|].
  assert (P : 0 <= Qabs (inject_Z a) * (Qabs (inject_Z b) - 1))
    by (apply Qmult_le_0_compat; lra).
  lra.
Qed.

Lemma int_truediv_views views d :
  d <> 0%Z -> fits (inject_Z views) -> exists q, int_truediv views d = Ok (Fin q).
Proof.
  intros Nd F. apply int_truediv_fits; [exact Nd|].
  apply (fits_le _ (inject_Z views)); [apply quotient_abs_le, Nd | exact F].
Qed.

Lemma bind_ok {A B} (x : A) (f : A -> result B) : mbind f (Ok x) = f x.
Proof. reflexivity. Qed.

Lemma bind_raise {A B} e (f : A -> result B) : mbind f (Raise e) = Raise e.
Proof. reflexivity. Qed.

Lemma float_velocity_score views h :
  (0 <= views)%Z -> fits (inject_Z views) ->
  exists vs, velocity_score views h = Ok (Fin vs) /\ 0 <= vs /\ vs <= 40.
Proof.
  intros Hv F. destruct (of_int_nonneg views Hv F) as (v & Ev & Pv).
  destruct (fdiv_not_negative (Fin v) (score_hours h) Pv (score_hours_divisor h))
    as (y & Ey & Ny).
  destruct (fdiv_not_negative y (Fin 10000) Ny eq_refl) as (r & Er & Nr).
  unfold velocity_score. rewrite Ev, bind_ok, Ey, bind_ok, Er, bind_ok.
  destruct (fmin_cap 40 (fmul r (Fin 40))) as (q & Eq & Q);
    [discriminate | apply fmul_not_negative; [exact Nr | reflexivity] |].
  exists q. rewrite Eq. split; [reflexivity | exact Q].
Qed.

Lemma float_velocity_score_returns views h :
  fits (inject_Z views) -> exists vs, velocity_score views h = Ok vs.
Proof.
  intros F. destruct (of_int_fits views F) as (v & Ev).
  destruct (fdiv_returns (Fin v) (score_hours h) (score_hours_divisor h)) as (y & Ey).
  destruct (fdiv_returns y (Fin 10000) eq_refl) as (r & Er).
  unfold velocity_score. rewrite Ev, bind_ok, Ey, bind_ok, Er, bind_ok.
  eexists. reflexivity.
Qed.

Lemma float_velocity_score_overflow views h :
  ~ fits (inject_Z views) -> velocity_score views h = Raise OverflowError.
Proof.
  intros N. unfold velocity_score. rewrite (of_int_overflow views N). reflexivity.
Qed.

Lemma float_engagement_score views likes comments :
  (0 <= likes)%Z -> (0 <= comments)%Z ->
  fits (inject_Z (likes + comments * 2) / inject_Z (Z.max views 1)) ->
  exists es, engagement_score views likes comments = Ok (Fin es) /\ 0 <= es /\ es <= 30.
Proof.
  intros Hl Hc F.
  destruct (int_truediv_nonneg (likes + comments * 2) (Z.max views 1)) as (e & Ee & Pe);
    [lia | lia | exact F |].
  unfold engagement_score. rewrite Ee, bind_ok.
  destruct (fmin_cap 30 (fmul (fmul (Fin e) (Fin 100)) (Fin 30))) as (q & Eq & Q);
    [discriminate | |].
  { apply fmul_not_negative; [|reflexivity].
    apply fmul_not_negative; [exact Pe | reflexivity]. }
  exists q. rewrite Eq. split; [reflexivity | exact Q].
Qed.

Lemma float_engagement_score_returns views likes comments :
  fits (inject_Z (likes + comments * 2) / inject_Z (Z.max views 1)) ->
  exists es, engagement_score views likes comments = Ok es.
Proof.
  intros F.
  destruct (int_truediv_fits (likes + comments * 2) (Z.max views 1)) as (e & Ee);
    [lia | exact F |].
  unfold engagement_score. rewrite Ee, bind_ok. eexists. reflexivity.
Qed.

Lemma float_engagement_score_overflow views likes comments :
  ~ fits (inject_Z (likes + comments * 2) / inject_Z (Z.max views 1)) ->
  engagement_score views likes comments = Raise OverflowError.
Proof.
  intros N. unfold engagement_score.
  rewrite (int_truediv_overflow (likes + comments * 2) (Z.max views 1)) by (lia || exact N).
  reflexivity.
Qed.

Lemma float_views_score views :
  (0 <= views)%Z -> fits (inject_Z views) ->
  exists ws, views_score views = Ok (Fin ws) /\ 0 <= ws /\ ws <= 20.
Proof.
  intros Hv F.
  destruct (int_truediv_nonneg views 1000000) as (r & Er & Pr); [lia | lia | |].
  { apply (fits_le _ (inject_Z views)); [apply quotient_abs_le; lia | exact F]. }
  unfold views_score. rewrite Er, bind_ok.
  destruct (fmin_cap 20 (fmul (Fin r) (Fin 20))) as (q & Eq & Q);
    [discriminate | apply fmul_not_negative; [exact Pr | reflexivity] |].
  exists q. rewrite Eq. split; [reflexivity | exact Q].
Qed.

Lemma float_views_score_returns views :
  fits (inject_Z views) -> exists ws, views_score views = Ok ws.
Proof.
  intros F. destruct (int_truediv_views views 1000000) as (r & Er); [lia | exact F |].
  unfold views_score. rewrite Er, bind_ok. eexists. reflexivity.
Qed.

Lemma float_sub_score views subscribers :
  (0 <= views)%Z -> fits (inject_Z views) ->
  exists ss, sub_score views subscribers = Ok (Fin ss) /\ 0 <= ss /\ ss <= 10 /\
             ((subscribers <= 0)%Z -> ss = 5).
Proof.
  intros Hv F. unfold sub_score.
  destruct (Z.ltb_spec 0 subscribers) as [P|N].
  - destruct (int_truediv_nonneg views subscribers) as (r & Er & Pr); [lia | lia | |].
    { apply (fits_le _ (inject_Z views)); [apply quotient_abs_le; lia | exact F]. }
    rewrite Er, bind_ok.
    destruct (fmin_cap 10 (fmul (Fin r) (Fin 2))) as (q & Eq & Q0 & Q1);
      [discriminate | apply fmul_not_negative; [exact Pr | reflexivity] |].
    exists q. rewrite Eq. repeat split; try assumption. lia.
  - exists 5. repeat split; discriminate.
Qed.

Lemma float_sub_score_returns views subscribers :
  fits (inject_Z views) -> exists ss, sub_score views subscribers = Ok ss.
Proof.
  intros F. unfold sub_score.
  destruct (Z.ltb_spec 0 subscribers) as [P|N]; [|eexists; reflexivity].
  destruct (int_truediv_views views subscribers) as (r & Er); [lia | exact F |].
  rewrite Er, bind_ok. eexists. reflexivity.
Qed.

(** The sum of the four sub-scores: each addition is off by at most
    [2^-47]. *)
Lemma float_total_score vs es ws ss :
  0 <= vs -> vs <= 40 -> 0 <= es -> es <= 30 -> 0 <= ws -> ws <= 20 ->
  0 <= ss -> ss <= 10 ->
  exists t, total_score (Fin vs) (Fin es) (Fin ws) (Fin ss) = Fin t /\
            0 <= t /\ t <= 100 /\
            vs + es + ws + ss - 3 * pow2 (-47) <= t /\
            t <= vs + es + ws + ss + 3 * pow2 (-47).
Proof.
  intros V0 V1 E0 E1 W0 W1 S0 S1. unfold total_score. cbn [fadd].
  destruct (rnd_small (vs + es) 70) as (a & Ea & A0 & A1 & A2 & A3);
    [lra | change (inject_Z 70) with 70; lra | lia |].
  change (inject_Z 70) with 70 in A1.
  rewrite Ea. cbn [fadd].
  destruct (rnd_small (a + ws) 90) as (b & Eb & B0 & B1 & B2 & B3);
    [lra | change (inject_Z 90) with 90; lra | lia |].
  change (inject_Z 90) with 90 in B1.
  rewrite Eb. cbn [fadd].
  destruct (rnd_small (b + ss) 100) as (c & Ec & C0 & C1 & C2 & C3);
    [lra | change (inject_Z 100) with 100; lra | lia |].
  change (inject_Z 100) with 100 in C1.
  exists c. rewrite Ec. repeat split; try assumption; lra.
Qed.

(** [round(x, 1)] of a float between 0 and 100: the float nearest to a
    multiple of 0.1 that is within 0.05 of [x]. *)
Lemma float_round1 t :
  0 <= t -> t <= 100 ->
  exists k r,
    round1 (Fin t) = Fin r /\ rnd (inject_Z k / 10) = Fin r /\
    (0 <= k <= 1000)%Z /\
    t - (1 # 20) <= inject_Z k / 10 /\ inject_Z k / 10 <= t + (1 # 20) /\
    inject_Z k / 10 - pow2 (-47) <= r /\ r <= inject_Z k / 10 + pow2 (-47) /\
    is_binary64 r /\ 0 <= r /\ r <= 100.
Proof.
  intros T0 T1. set (k := Py.round_half_even (t * 10)).
  assert (K0 : (0 <= k)%Z).
  { rewrite <- (round_half_even_Z 0). apply round_half_even_mono.
    change (inject_Z 0) with 0. lra. }
  assert (K1 : (k <= 1000)%Z).
  { rewrite <- (round_half_even_Z 1000). apply round_half_even_mono.
    change (inject_Z 1000) with 1000. lra. }
  pose proof (round_half_even_near (t * 10)) as [N0 N1]. fold k in N0, N1.
  assert (Q0 : 0 <= inject_Z k) by (change 0 with (inject_Z 0); rewrite <- Zle_Qle; exact K0).
  assert (Q1 : inject_Z k <= 1000) by (change 1000 with (inject_Z 1000); rewrite <- Zle_Qle; exact K1).
  assert (D : inject_Z k / 10 == inject_Z k * (1 # 10)) by (unfold Qdiv; reflexivity).
  destruct (rnd_small (inject_Z k / 10) 100) as (r & Er & R0 & R1 & R2 & R3);
    [rewrite D; lra | rewrite D; change (inject_Z 100) with 100; lra | lia |].
  change (inject_Z 100) with 100 in R1.
  exists k, r. split; [exact Er|]. split; [exact Er|]. split; [lia|].
  split; [rewrite D; lra|]. split; [rewrite D; lra|].
  split; [exact R2|]. split; [exact R3|].
  split; [exact (rnd_binary64 _ _ Er) | split; assumption].
Qed.

Lemma fmin_100 t :
  0 <= t -> t <= 100 -> fmin (Fin 100) (Fin t) = Fin (Py.min 100 t) /\
  0 <= Py.min 100 t /\ Py.min 100 t <= 100.
Proof.
  intros T0 T1. split.
  - unfold fmin, flt, Py.min.
    destruct (Qcompare_spec t 100) as [E|L|G].
    + destruct (Qle_bool 100 t) eqn:B; [reflexivity|].
      exfalso. assert (C : 100 <= t) by lra. apply Qle_bool_iff in C. congruence.
    + destruct (Qle_bool 100 t) eqn:B; [|reflexivity].
      apply Qle_bool_iff in B. lra.
    + lra.
  - split; [apply py_min_glb; lra | apply py_min_le_l].
Qed.

Lemma fmax_tenth_divisor h : positive_divisor (fmax h tenth).
Proof.
  unfold fmax. destruct h as [q| | |]; cbn; try exact I; try reflexivity.
  destruct (Qle_bool _ q) eqn:E; cbn; [|reflexivity].
  apply Qle_bool_iff in E. eapply Qlt_le_trans; [|exact E]. reflexivity.
Qed.

(** The score and the velocity of a row raise nothing exactly when the
    counts fit a float, whatever the signs and the age. *)
Lemma float_score_returns views likes comments subscribers h :
  fits (inject_Z views) /\
  fits (inject_Z (likes + comments * 2) / inject_Z (Z.max views 1))
  <-> (exists v, row_velocity views h = Ok v) /\
      (exists r, calc_global_score views likes comments subscribers h = Ok r).
Proof.
  split.
  - intros [Fv Fe]. split.
    + destruct (of_int_fits views Fv) as (v & Ev).
      destruct (fdiv_returns (Fin v) (fmax h tenth) (fmax_tenth_divisor h)) as (y & Ey).
      unfold row_velocity. rewrite Ev, bind_ok, Ey. eexists. reflexivity.
    + destruct (float_velocity_score_returns views h Fv) as (vs & Ev).
      destruct (float_engagement_score_returns views likes comments Fe) as (es & Ee).
      destruct (float_views_score_returns views Fv) as (ws & Ew).
      destruct (float_sub_score_returns views subscribers Fv) as (ss & Es).
      unfold calc_global_score. rewrite Ev, bind_ok, Ee, bind_ok, Ew, bind_ok, Es, bind_ok.
      eexists. reflexivity.
  - intros [[v Ev] [r Er]].
    assert (Fv : fits (inject_Z views)).
    { destruct (Qlt_le_dec (Qabs (inject_Z views)) (pow2 1024 - pow2 970)) as [F|N];
        [exact F | exfalso].
      unfold row_velocity in Ev. rewrite of_int_overflow in Ev; [discriminate|].
      unfold fits. lra. }
    split; [exact Fv|].
    destruct (Qlt_le_dec
                (Qabs (inject_Z (likes + comments * 2) / inject_Z (Z.max views 1)))
                (pow2 1024 - pow2 970)) as [F|N]; [exact F | exfalso].
    destruct (float_velocity_score_returns views h Fv) as (vs & Evs).
    unfold calc_global_score in Er. rewrite Evs, bind_ok in Er.
    rewrite float_engagement_score_overflow in Er; [discriminate|].
    unfold fits. lra.
Qed.

End FloatFacts.

(** ** The score: range, totality and monotonicity *)

Section ScoreTheorems.
Local Open Scope Q_scope.

(** C3, as far as it holds.  For non-negative views, likes, comments and
    subscribers and any float [hours_since] (the infinities and NaN
    included), the function returns a score exactly when Python can turn
    [views] and the quotient [(likes + 2 * comments) / max(views, 1)] into
    a float, that is when both are below [2^1024 - 2^970]; otherwise it
    raises [OverflowError].  When it returns, the four sub-scores are
    floats in [0,40], [0,30], [0,20] and [0,10] (the last one being 5
    without subscribers); their float sum is within [3 * 2^-47] of their
    real sum and lies in [0,100], so the cap at 100 changes nothing; and
    the score is a float in [0,100], within [2^-47] of a multiple [k/10]
    of 0.1 that is within 0.05 of the capped sum.  Rounding first and
    capping afterwards, as the specification words it, gives the same
    number. *)
Theorem calc_global_score_range views likes comments subscribers hours_since :
  (0 <= views)%Z -> (0 <= likes)%Z -> (0 <= comments)%Z -> (0 <= subscribers)%Z ->
  let quotient := inject_Z (likes + comments * 2) / inject_Z (Z.max views 1) in
  (F64.fits (inject_Z views) -> F64.fits quotient ->
   exists vs es ws ss total k r r',
     F64.velocity_score views hours_since = F64.Ok (F64.Fin vs) /\
     0 <= vs /\ vs <= 40 /\
     F64.engagement_score views likes comments = F64.Ok (F64.Fin es) /\
     0 <= es /\ es <= 30 /\
     F64.views_score views = F64.Ok (F64.Fin ws) /\
     0 <= ws /\ ws <= 20 /\
     F64.sub_score views subscribers = F64.Ok (F64.Fin ss) /\
     0 <= ss /\ ss <= 10 /\ (subscribers = 0%Z -> ss = 5) /\
     F64.total_score (F64.Fin vs) (F64.Fin es) (F64.Fin ws) (F64.Fin ss)
     = F64.Fin total /\
     Qabs (total - (vs + es + ws + ss)) <= 3 * F64.pow2 (-47) /\
     0 <= total /\ total <= 100 /\
     F64.calc_global_score views likes comments subscribers hours_since
     = F64.Ok (F64.Fin r) /\
     (0 <= k <= 1000)%Z /\
     Qabs (inject_Z k / 10 - Py.min 100 total) <= 1 # 20 /\
     Qabs (r - inject_Z k / 10) <= F64.pow2 (-47) /\
     F64.is_binary64 r /\
     0 <= r /\ r <= 100 /\
     F64.fmin (F64.Fin 100) (F64.round1 (F64.Fin total)) = F64.Fin r' /\ r' == r) /\
  (~ (F64.fits (inject_Z views) /\ F64.fits quotient) ->
   F64.calc_global_score views likes comments subscribers hours_since
   = F64.Raise F64.OverflowError).
Proof.
  intros Hv Hl Hc Hs quotient. split.
  - intros Fv Fe.
    destruct (float_velocity_score views hours_since Hv Fv) as (vs & Ev & V0 & V1).
    destruct (float_engagement_score views likes comments Hl Hc Fe) as (es & Ee & E0 & E1).
    destruct (float_views_score views Hv Fv) as (ws & Ew & W0 & W1).
    destruct (float_sub_score views subscribers Hv Fv) as (ss & Es & S0 & S1 & S5).
    destruct (float_total_score vs es ws ss V0 V1 E0 E1 W0 W1 S0 S1)
      as (total & Et & T0 & T1 & T2 & T3).
    destruct (fmin_100 total T0 T1) as (Em & M0 & M1).
    destruct (float_round1 (Py.min 100 total) M0 M1)
      as (k & r & Er & Ek & K & N0 & N1 & R2 & R3 & Rb & R0 & R1).
    assert (Emin : Py.min 100 total == total).
    { destruct (py_min_spec 100 total) as [[L ->]|[L ->]]; lra. }
    exists vs, es, ws, ss, total, k, r.
    assert (Ealt : exists r', F64.fmin (F64.Fin 100) (F64.round1 (F64.Fin total))
                              = F64.Fin r' /\ r' == r).
    { assert (C : F64.round1 (F64.Fin total) = F64.round1 (F64.Fin (Py.min 100 total))).
      { unfold F64.round1.
        rewrite (round_half_even_comp (total * 10) (Py.min 100 total * 10));
          [reflexivity | rewrite Emin; reflexivity]. }
      rewrite C, Er. destruct (fmin_100 r R0 R1) as (Em2 & _). rewrite Em2.
      exists (Py.min 100 r). split; [reflexivity|].
      destruct (py_min_spec 100 r) as [[L ->]|[L ->]]; lra. }
    destruct Ealt as (r' & Ea & Ra). exists r'.
    repeat match goal with |- _ /\ _ => split end;
      try assumption; try lia;
      try (apply Qabs_Qle_condition; split; lra).
    + intros ->. apply S5. lia.
    + unfold F64.calc_global_score.
      rewrite Ev, bind_ok, Ee, bind_ok, Ew, bind_ok, Es, bind_ok, Et, Em.
      rewrite Er. reflexivity.
  - intros N.
    destruct (Qlt_le_dec (Qabs (inject_Z views)) (F64.pow2 1024 - F64.pow2 970)) as [Fv|Nv].
    + assert (Ne : ~ F64.fits quotient) by (intros Fe; apply N; split; assumption).
      destruct (float_velocity_score views hours_since Hv Fv) as (vs & Ev & _).
      unfold F64.calc_global_score. rewrite Ev, bind_ok.
      rewrite (float_engagement_score_overflow views likes comments Ne).
      reflexivity.
    + unfold F64.calc_global_score.
      rewrite (float_velocity_score_overflow views hours_since); [reflexivity|].
      unfold F64.fits. lra.
Qed.

Lemma calc_global_score_range_witness :
  exists vs es ws ss total k r r',
    F64.velocity_score 2500 (F64.Fin 1) = F64.Ok (F64.Fin vs) /\
    0 <= vs /\ vs <= 40 /\
    F64.engagement_score 2500 0 0 = F64.Ok (F64.Fin es) /\
    0 <= es /\ es <= 30 /\
    F64.views_score 2500 = F64.Ok (F64.Fin ws) /\
    0 <= ws /\ ws <= 20 /\
    F64.sub_score 2500 0 = F64.Ok (F64.Fin ss) /\
    0 <= ss /\ ss <= 10 /\ (0%Z = 0%Z -> ss = 5) /\
    F64.total_score (F64.Fin vs) (F64.Fin es) (F64.Fin ws) (F64.Fin ss)
    = F64.Fin total /\
    Qabs (total - (vs + es + ws + ss)) <= 3 * F64.pow2 (-47) /\
    0 <= total /\ total <= 100 /\
    F64.calc_global_score 2500 0 0 0 (F64.Fin 1) = F64.Ok (F64.Fin r) /\
    (0 <= k <= 1000)%Z /\
    Qabs (inject_Z k / 10 - Py.min 100 total) <= 1 # 20 /\
    Qabs (r - inject_Z k / 10) <= F64.pow2 (-47) /\
    F64.is_binary64 r /\
    0 <= r /\ r <= 100 /\
    F64.fmin (F64.Fin 100) (F64.round1 (F64.Fin total)) = F64.Fin r' /\ r' == r.
Proof.
  apply (calc_global_score_range 2500 0 0 0 (F64.Fin 1)); try lia;
    unfold F64.fits; vm_compute; reflexivity.
Defined.

(** C3 fails for counts that do not fit a float: with [2^1024] views the
    conversion of line 165 raises [OverflowError], and with [2^1024] likes
    on a video without views the division of line 168 does; no score is
    returned.  One less than [2^1024 - 2^970] views still gives a score. *)
Lemma calc_global_score_overflow_counterexample :
  F64.calc_global_score (2 ^ 1024) 0 0 0 (F64.Fin 1) = F64.Raise F64.OverflowError /\
  F64.calc_global_score 0 (2 ^ 1024) 0 0 (F64.Fin 1) = F64.Raise F64.OverflowError /\
  F64.calc_global_score (2 ^ 1024 - 2 ^ 970) 0 0 0 (F64.Fin 1)
  = F64.Raise F64.OverflowError /\
  F64.calc_global_score (2 ^ 1024 - 2 ^ 970 - 1) 0 0 0 (F64.Fin 1)
  = F64.Ok (F64.Fin 65).
Proof. vm_compute. repeat split. Qed.

(** The real-number formula and the machine differ by a rounding step:
    2500 views after one hour sum to 15.05 exactly, which rounds to the
    even tenth 15.0, while the float sum lies just above 15.05 and the
    function returns the float next to 15.1. *)
Example score_float_demo :
  calc_global_score 2500 0 0 0 1 = Some (150 # 10) /\
  F64.calc_global_score 2500 0 0 0 (F64.Fin 1)
  = F64.Ok (F64.Fin (8500544296661811 # 562949953421312)) /\
  F64.rnd (151 # 10) = F64.Fin (8500544296661811 # 562949953421312).
Proof. vm_compute. repeat split. Qed.

(** On the inputs the statements about the order and the floor use, the
    machine returns the values of the real-number formula: 35.0 and 5.5
    for 100 and 10000 views after 1000 hours with one like, 13.0 and 9.0
    for 100 views after 0.05 and after 0.1 hours, and the row velocity
    1000.0 for 100 views after 0.05 hours. *)
Example score_float_agrees :
  F64.calc_global_score 100 1 0 0 (F64.Fin 1000) = F64.Ok (F64.Fin 35) /\
  F64.calc_global_score 10000 1 0 0 (F64.Fin 1000) = F64.Ok (F64.rnd (55 # 10)) /\
  F64.calc_global_score 100 0 0 0 (F64.rnd (1 # 20)) = F64.Ok (F64.Fin 13) /\
  F64.calc_global_score 100 0 0 0 (F64.rnd (1 # 10)) = F64.Ok (F64.Fin 9) /\
  F64.row_velocity 100 (F64.rnd (1 # 20)) = F64.Ok (F64.Fin 1000) /\
  F64.calc_global_score 100000 2000 300 0 (F64.Fin 2) = F64.Ok (F64.Fin 77).
Proof. vm_compute. repeat split. Qed.


End ScoreTheorems.

Section ScoreMonotone.
Local Open Scope Q_scope.

Example score_demo :
  calc_global_score 100000 2000 300 0 2 = Some (770 # 10).
Proof. vm_compute. reflexivity. Qed.








End ScoreMonotone.

(** ** The floor on [hours_since] *)

Section HoursFloor.
Local Open Scope Q_scope.

(** Inside the score the divisor agrees with [max(hours_since, 0.1)]
    exactly outside the open interval (0, 0.1). *)
Lemma score_hours_floor_iff h :
  score_hours h == Py.max h (1 # 10) <-> h <= 0 \/ 1 # 10 <= h.
Proof.
  split.
  - intros E. destruct (Qlt_le_dec 0 h) as [P|N]; [|left; exact N].
    right. rewrite score_hours_pos_id in E by exact P.
    destruct (py_max_spec h (1 # 10)) as [[L M]|[L M]]; rewrite M in E; lra.
  - intros [N|G].
    + rewrite score_hours_nonpos by exact N.
      destruct (py_max_spec h (1 # 10)) as [[L ->]|[L ->]]; lra.
    + rewrite score_hours_pos_id by lra.
      destruct (py_max_spec h (1 # 10)) as [[L ->]|[L ->]]; lra.
Qed.

(** C2 at a video published three minutes ago ([hours_since] = 0.05) with
    100 views: the score divides by 0.05, not by [max(0.05, 0.1) = 0.1],
    so its velocity is 2000 where the row's velocity is 1000, and the
    score is 13.0 where the floored divisor gives 9.0.  At
    [hours_since <= 0] the divisor is 0.1. *)
Theorem score_hours_below_floor :
  score_hours (1 # 20) = 1 # 20 /\
  Py.max (1 # 20) (1 # 10) = 1 # 10 /\
  (exists v, Py.div (inject_Z 100) (score_hours (1 # 20)) = Some v /\ v == 2000) /\
  (exists v, row_velocity 100 (1 # 20) = Some v /\ v == 1000) /\
  (exists r, calc_global_score 100 0 0 0 (1 # 20) = Some r /\ r == 13) /\
  (exists r, calc_global_score 100 0 0 0 (1 # 10) = Some r /\ r == 9) /\
  score_hours 0 = 1 # 10 /\
  score_hours (-3) = 1 # 10.
Proof.
  repeat match goal with |- _ /\ _ => split end;
    try (vm_compute; reflexivity);
    eexists; (split; [vm_compute; reflexivity | vm_compute; reflexivity]).
Qed.

End HoursFloor.

(** ** Sorting *)

Section SortFacts.
Context {A : Type} (before : A -> A -> bool).

Lemma sort_insert_sublist x l : l `sublist_of` sort_insert before x l.
Proof.
  induction l as [|y l IH]; cbn.
  - apply sublist_nil_l.
  - destruct (before y x).
    + apply sublist_skip, IH.
    + apply sublist_cons. reflexivity.
Qed.

Lemma sort_insert_perm x l : sort_insert before x l ≡ₚ x :: l.
Proof.
  induction l as [|y l IH]; cbn; [reflexivity|].
  destruct (before y x); [|reflexivity].
  rewrite IH. apply Permutation_swap.
Qed.

Lemma py_sort_perm l : py_sort before l ≡ₚ l.
Proof.
  induction l as [|x l IH]; cbn; [reflexivity|].
  rewrite sort_insert_perm, IH. reflexivity.
Qed.

Lemma sort_insert_new x y l :
  y ∈ l -> before y x = false -> occurs_before x y (sort_insert before x l).
Proof.
  unfold occurs_before. induction l as [|z l IH]; intros Hin Hb.
  - inversion Hin.
  - cbn. destruct (before z x) eqn:E.
    + apply sublist_cons, IH; [|exact Hb].
      apply elem_of_cons in Hin as [->|Hin]; [congruence | exact Hin].
    + apply sublist_skip. apply singleton_sublist_l. exact Hin.
Qed.

(** The sort keeps the order of any two elements unless the later one
    must come strictly before the earlier one; in particular it keeps the
    order of two elements with equal keys. *)
Lemma py_sort_stable x y l :
  occurs_before x y l -> before y x = false ->
  occurs_before x y (py_sort before l).
Proof.
  unfold occurs_before. induction l as [|z l IH]; intros Hs Hb.
  - inversion Hs.
  - change (py_sort before (z :: l)) with (sort_insert before z (py_sort before l)).
    inversion Hs as [| ? ? ? Hs' | ? ? ? Hs']; subst.
    + apply sort_insert_new; [|exact Hb].
      apply singleton_sublist_l in Hs'.
      rewrite py_sort_perm. exact Hs'.
    + etransitivity; [apply IH; assumption | apply sort_insert_sublist].
Qed.

(** The result is in order: no element has to come strictly before the
    one in front of it. *)
Lemma sort_insert_sorted x l :
  (forall a b, before a b = true -> before b a = false) ->
  Sorted (fun a b => before b a = false) l ->
  Sorted (fun a b => before b a = false) (sort_insert before x l).
Proof.
  intros Hasym Hs. induction l as [|y l IH]; cbn.
  - repeat constructor.
  - apply Sorted_inv in Hs as [Hs Hh]. destruct (before y x) eqn:E.
    + constructor; [apply IH, Hs|].
      destruct l as [|z l]; cbn.
      * constructor. apply Hasym, E.
      * destruct (before z x); constructor;
          [apply HdRel_inv in Hh; exact Hh | apply Hasym, E].
    + constructor; [constructor; assumption | constructor; exact E].
Qed.

Lemma py_sort_sorted l :
  (forall a b, before a b = true -> before b a = false) ->
  Sorted (fun a b => before b a = false) (py_sort before l).
Proof.
  intros Hasym. induction l as [|x l IH]; cbn; [constructor|].
  apply sort_insert_sorted; assumption.
Qed.

End SortFacts.

Section SortResults.
Local Open Scope Q_scope.

Lemma Qltb_tie a b : a == b -> Qltb b a = false.
Proof.
  intros E. unfold Qltb.
  assert (L : Qle_bool a b = true) by (apply Qle_bool_iff; rewrite E; apply Qle_refl).
  rewrite L. reflexivity.
Qed.

(** Which sort each entry of the select box runs. *)
Lemma sort_results_score rows :
  sort_results SORT_SCORE rows = py_sort by_score_desc rows.
Proof. reflexivity. Qed.

Lemma sort_results_views rows :
  sort_results SORT_VIEWS rows = py_sort by_views_desc rows.
Proof. reflexivity. Qed.

Lemma sort_results_upload rows :
  sort_results SORT_UPLOAD rows = py_sort by_hours_asc rows.
Proof. reflexivity. Qed.

(** The entry for the velocity contains the word tested by the views
    branch, which comes first. *)
Lemma sort_results_velocity rows :
  sort_results SORT_VELOCITY rows = py_sort by_views_desc rows.
Proof. reflexivity. Qed.

(** Each of the four [sort] calls keeps the fetch order of rows with
    equal keys. *)
Lemma sort_calls_stable x y rows :
  occurs_before x y rows ->
  (r_score x == r_score y -> occurs_before x y (py_sort by_score_desc rows)) /\
  (r_views x = r_views y -> occurs_before x y (py_sort by_views_desc rows)) /\
  (r_velocity x == r_velocity y -> occurs_before x y (py_sort by_velocity_desc rows)) /\
  (r_hours_since x == r_hours_since y -> occurs_before x y (py_sort by_hours_asc rows)).
Proof.
  intros Ho. repeat split; intros E; apply py_sort_stable; try exact Ho.
  - apply Qltb_tie. symmetry. exact E.
  - unfold by_views_desc. rewrite E. apply Z.ltb_irrefl.
  - apply Qltb_tie. symmetry. exact E.
  - apply Qltb_tie. exact E.
Qed.

(** For the score, views and upload-time entries the displayed list keeps
    the fetch order of ties. *)
Lemma sort_results_stable x y rows :
  occurs_before x y rows ->
  (r_score x == r_score y -> occurs_before x y (sort_results SORT_SCORE rows)) /\
  (r_views x = r_views y -> occurs_before x y (sort_results SORT_VIEWS rows)) /\
  (r_hours_since x == r_hours_since y ->
     occurs_before x y (sort_results SORT_UPLOAD rows)).
Proof.
  intros Ho. destruct (sort_calls_stable x y rows Ho) as (S1 & S2 & _ & S4).
  rewrite sort_results_score, sort_results_views, sort_results_upload.
  repeat split; assumption.
Qed.

(** C9 at the velocity entry: two fetched rows, the first with 100 views
    after one hour and the second with 200 views after two hours, have
    the same velocity; sorting by velocity would keep them in fetch
    order, but the select-box entry is dispatched to the sort by views
    and the displayed list has them swapped. *)
Theorem sort_results_velocity_swaps_ties :
  exists a b,
    plain_row "A" 100 1 = Some a /\ plain_row "B" 200 2 = Some b /\
    r_velocity a == r_velocity b /\
    py_sort by_velocity_desc [a; b] = [a; b] /\
    sort_results SORT_VELOCITY [a; b] = [b; a].
Proof.
  eexists. eexists.
  split; [vm_compute; reflexivity|].
  split; [vm_compute; reflexivity|].
  split; [vm_compute; reflexivity|].
  split; vm_compute; reflexivity.
Qed.

End SortResults.

(** ** Ranges and batches *)

Section Batches.
Local Open Scope nat_scope.

Lemma range_from_nil fuel i stop step : stop <= i -> range_from fuel i stop step = [].
Proof.
  intros H. destruct fuel; [reflexivity|]. cbn [range_from].
  destruct (i <? stop) eqn:E; [apply Nat.ltb_lt in E; lia | reflexivity].
Qed.

(** With enough fuel the range is [i, i+50, ...] below [stop]. *)
Lemma range_from_50 fuel i stop :
  stop <= i + fuel ->
  range_from fuel i stop 50
  = map (fun j => i + j * 50) (seq 0 ((stop - i + 49) / 50)).
Proof.
  revert i. induction fuel as [|fuel IH]; intros i H.
  - cbn [range_from]. assert (E : (stop - i + 49) / 50 = 0)
      by (apply Nat.div_small; lia).
    rewrite E. reflexivity.
  - cbn [range_from]. destruct (i <? stop) eqn:E.
    + apply Nat.ltb_lt in E. rewrite IH by lia.
      assert (D : (stop - i + 49) / 50 = S ((stop - (i + 50) + 49) / 50)).
      { destruct (le_lt_dec stop (i + 50)) as [L|L].
        - replace (stop - (i + 50)) with 0 by lia.
          replace (stop - i + 49) with (1 * 50 + (stop - i - 1)) by lia.
          rewrite Nat.div_add_l by lia.
          rewrite (Nat.div_small (0 + 49)) by lia.
          rewrite (Nat.div_small (stop - i - 1)) by lia. reflexivity.
        - replace (stop - i + 49) with (1 * 50 + (stop - (i + 50) + 49)) by lia.
          rewrite Nat.div_add_l by lia. reflexivity. }
      rewrite D. cbn [seq map]. f_equal; [lia|].
      rewrite <- seq_shift, map_map. apply map_ext. intros j. lia.
    + apply Nat.ltb_ge in E.
      assert (D : (stop - i + 49) / 50 = 0) by (apply Nat.div_small; lia).
      rewrite D. reflexivity.
Qed.

Lemma py_range_50 n :
  py_range 0 n 50 = map (fun j => j * 50) (seq 0 ((n + 49) / 50)).
Proof.
  unfold py_range. rewrite range_from_50 by lia.
  rewrite Nat.sub_0_r. reflexivity.
Qed.

Lemma batches_length ids : length (batches ids) = (length ids + 49) / 50.
Proof.
  unfold batches. rewrite py_range_50, !length_map, length_seq. reflexivity.
Qed.

(** The slices taken at the starts [i, i+50, ...] of a list. *)
Lemma batches_from_concat (ids : list string) k i :
  length ids <= i + k * 50 ->
  concat (map (fun j => slice ids (i + j * 50) (i + j * 50 + 50)) (seq 0 k))
  = drop i ids.
Proof.
  revert i. induction k as [|k IH]; intros i H.
  - cbn. rewrite drop_ge by lia. reflexivity.
  - cbn [seq map concat]. rewrite <- seq_shift, map_map.
    rewrite (map_ext _ (fun j => slice ids (i + 50 + j * 50) (i + 50 + j * 50 + 50))).
    2:{ intros j. f_equal; lia. }
    rewrite IH by lia. unfold slice.
    replace (i + 0 * 50 + 50 - (i + 0 * 50)) with 50 by lia.
    replace (i + 0 * 50) with i by lia.
    rewrite <- (take_drop 50 (drop i ids)) at 2.
    rewrite drop_drop. reflexivity.
Qed.

Lemma batches_concat ids : concat (batches ids) = ids.
Proof.
  unfold batches. rewrite py_range_50, map_map.
  pose proof (Nat.div_mod_eq (length ids + 49) 50) as D.
  pose proof (Nat.mod_upper_bound (length ids + 49) 50) as U.
  rewrite (map_ext _ (fun j => slice ids (0 + j * 50) (0 + j * 50 + 50)))
    by (intros j; reflexivity).
  rewrite batches_from_concat by lia. reflexivity.
Qed.

Lemma batches_sizes ids :
  Forall (fun b : list string => 0 < length b <= 50) (batches ids).
Proof.
  unfold batches. rewrite py_range_50, map_map.
  apply Forall_forall. intros b Hb.
  apply list_elem_of_In, in_map_iff in Hb as (j & <- & Hj).
  apply in_seq in Hj.
  pose proof (Nat.div_mod_eq (length ids + 49) 50) as D.
  pose proof (Nat.mod_upper_bound (length ids + 49) 50) as U.
  unfold slice. rewrite length_take, length_drop. lia.
Qed.

End Batches.

(** ** The monad *)

Section MonadFacts.
Context {A B : Type}.

Lemma set_quota_used_id w q : q = quota_used w -> set_quota_used q w = w.
Proof. intros ->. destruct w. reflexivity. Qed.

Lemma grows_ret (x : A) : grows (ret x).
Proof. intros w. cbn. lia. Qed.

Lemma grows_raise : grows (@raise A).
Proof. intros w. cbn. lia. Qed.

Lemma grows_lift (o : option A) : grows (lift o).
Proof. destruct o; [apply grows_ret | apply grows_raise]. Qed.

Lemma grows_charge kind : grows (charge kind).
Proof. intros w. cbn. destruct kind; cbn; lia. Qed.

Lemma grows_send rq (answer : option A) : grows (send rq answer).
Proof. intros w. unfold send. destruct answer; cbn; lia. Qed.

Lemma grows_bind (m : M A) (f : A -> M B) :
  grows m -> (forall x, grows (f x)) -> grows (bind m f).
Proof.
  intros Hm Hf w. unfold bind. specialize (Hm w).
  destruct (m w) as [[x|] w1]; cbn in *; [|exact Hm].
  specialize (Hf x w1). lia.
Qed.

Lemma grows_try_except (m : M A) h : grows m -> grows (try_except m h).
Proof.
  intros Hm w. unfold try_except. specialize (Hm w).
  destruct (m w) as [[x|] w1]; exact Hm.
Qed.

Lemma oblivious_ret (x : A) : oblivious (ret x).
Proof.
  intros w q. cbn. rewrite Z.sub_diag, Z.add_0_r. reflexivity.
Qed.

Lemma oblivious_raise : oblivious (@raise A).
Proof.
  intros w q. cbn. rewrite Z.sub_diag, Z.add_0_r. reflexivity.
Qed.

Lemma oblivious_lift (o : option A) : oblivious (lift o).
Proof. destruct o; [apply oblivious_ret | apply oblivious_raise]. Qed.

Lemma oblivious_charge kind : oblivious (charge kind).
Proof.
  intros w q. unfold charge, set_quota_used. cbn. do 2 f_equal. lia.
Qed.

Lemma oblivious_send rq (answer : option A) : oblivious (send rq answer).
Proof.
  intros w q. unfold send. destruct answer; cbn;
    rewrite Z.sub_diag, Z.add_0_r; reflexivity.
Qed.

Lemma oblivious_bind (m : M A) (f : A -> M B) :
  oblivious m -> (forall x, oblivious (f x)) -> oblivious (bind m f).
Proof.
  intros Hm Hf w q. unfold bind. rewrite Hm.
  destruct (m w) as [[x|] w1]; cbn; [|reflexivity].
  rewrite Hf. f_equal. f_equal. lia.
Qed.

Lemma oblivious_try_except (m : M A) h : oblivious m -> oblivious (try_except m h).
Proof.
  intros Hm w q. unfold try_except. rewrite Hm.
  destruct (m w) as [[x|] w1]; reflexivity.
Qed.

Lemma returns_ret (x : A) : returns (ret x).
Proof. intros w. cbn. eauto. Qed.

Lemma returns_try_except (m : M A) h : returns (try_except m h).
Proof.
  intros w. unfold try_except. destruct (m w) as [[x|] w1]; cbn; eauto.
Qed.

Lemma returns_bind (m : M A) (f : A -> M B) :
  returns m -> (forall x, returns (f x)) -> returns (bind m f).
Proof.
  intros Hm Hf w. unfold bind. specialize (Hm w).
  destruct (m w) as [[x|] w1]; cbn in *; [apply Hf|].
  destruct Hm as [? [=]].
Qed.

End MonadFacts.

(** ** The cache *)

Section CacheFacts.
Context {K V : Type} `{Countable K}.
Context (get : world -> gmap K (Z * V)) (set : gmap K (Z * V) -> world -> world).
Context (body : K -> Z -> M V).

(** The store is a field of the session other than the quota counter. *)
Hypothesis get_set : forall c w, get (set c w) = c.
Hypothesis quota_set : forall c w, quota_used (set c w) = quota_used w.
Hypothesis requests_set : forall c w, requests (set c w) = requests w.
Hypothesis get_quota : forall q w, get (set_quota_used q w) = get w.
Hypothesis set_quota : forall c q w,
  set c (set_quota_used q w) = set_quota_used q (set c w).

Lemma cache_lookup_insert (c : gmap K (Z * V)) k stored v now :
  cache_lookup (<[k := (stored, v)]> c) k now
  = if (now <? stored + CACHE_TTL)%Z then Some v else None.
Proof. unfold cache_lookup. rewrite lookup_insert_eq. reflexivity. Qed.

Lemma cache_data_hit k now w v :
  cache_lookup (get w) k now = Some v ->
  cache_data get set body k now w = (Some v, w).
Proof. intros E. unfold cache_data. rewrite E. reflexivity. Qed.

Lemma cache_data_miss k now w :
  cache_lookup (get w) k now = None ->
  cache_data get set body k now w
  = match body k now w with
    | (Some v, w') => (Some v, set (<[k := (now, v)]> (get w')) w')
    | (None, w') => (None, w')
    end.
Proof. intros E. unfold cache_data. rewrite E. reflexivity. Qed.

Lemma grows_cache_data k now :
  grows (body k now) -> grows (cache_data get set body k now).
Proof.
  intros Hb w. unfold cache_data.
  destruct (cache_lookup (get w) k now); [cbn; lia|].
  specialize (Hb w). destruct (body k now w) as [[v|] w1]; cbn in *;
    [rewrite quota_set|]; exact Hb.
Qed.

Lemma returns_cache_data k now :
  returns (body k now) -> returns (cache_data get set body k now).
Proof.
  intros Hb w. unfold cache_data.
  destruct (cache_lookup (get w) k now); [cbn; eauto|].
  specialize (Hb w). destruct (body k now w) as [[v|] w1]; cbn in *; eauto.
Qed.

Lemma oblivious_cache_data k now :
  oblivious (body k now) -> oblivious (cache_data get set body k now).
Proof.
  intros Hb w q. unfold cache_data. rewrite get_quota.
  destruct (cache_lookup (get w) k now).
  - cbn. rewrite Z.sub_diag, Z.add_0_r. reflexivity.
  - rewrite Hb. destruct (body k now w) as [[v|] w1]; cbn; [|reflexivity].
    rewrite get_quota, set_quota, quota_set. reflexivity.
Qed.

(** The first of two calls finds no live entry, the second comes within
    the time to live: the second returns the value of the first and
    leaves the session as it is.  A call after the time to live runs the
    body again. *)
Lemma cache_data_twice k t1 w v w1 :
  cache_lookup (get w) k t1 = None ->
  cache_data get set body k t1 w = (Some v, w1) ->
  (exists w', body k t1 w = (Some v, w') /\ w1 = set (<[k := (t1, v)]> (get w')) w') /\
  (forall t2, (t2 < t1 + CACHE_TTL)%Z ->
     cache_data get set body k t2 w1 = (Some v, w1)) /\
  (forall t3, (t1 + CACHE_TTL <= t3)%Z ->
     cache_data get set body k t3 w1
     = match body k t3 w1 with
       | (Some v', w') => (Some v', set (<[k := (t3, v')]> (get w')) w')
       | (None, w') => (None, w')
       end).
Proof.
  intros Hmiss Hcall. rewrite (cache_data_miss _ _ _ Hmiss) in Hcall.
  destruct (body k t1 w) as [[v0|] w'] eqn:Eb; [|discriminate].
  injection Hcall as -> <-.
  split; [eexists; split; reflexivity|]. split.
  - intros t2 Ht. apply cache_data_hit.
    rewrite get_set, cache_lookup_insert.
    apply Z.ltb_lt in Ht. rewrite Ht. reflexivity.
  - intros t3 Ht. apply cache_data_miss.
    rewrite get_set, cache_lookup_insert.
    apply Z.ltb_ge in Ht. rewrite Ht. reflexivity.
Qed.

End CacheFacts.

(** ** The fetchers *)

Ltac m_steps :=
  repeat first
    [ apply grows_try_except | apply grows_bind | apply grows_send
    | apply grows_charge | apply grows_lift | apply grows_ret
    | apply oblivious_try_except | apply oblivious_bind | apply oblivious_send
    | apply oblivious_charge | apply oblivious_lift | apply oblivious_ret
    | apply returns_try_except
    | match goal with
      | |- forall _, grows _ => intro
      | |- forall _, oblivious _ => intro
      end ].

Section FetchFacts.
Context (pc : PlatformClient).
Context (py_int : string -> option Z).
Context (isodate_seconds : string -> option Z).

Lemma touch_touch q1 r1 q2 r2 w : touch q2 r2 (touch q1 r1 w) = touch q2 r2 w.
Proof. reflexivity. Qed.

(** *** Keyword search *)

Lemma keyword_body_ok api_key keyword region_code now w items ids :
  exec_search pc now api_key (keyword_params keyword region_code now) = Some items ->
  search_video_ids items = Some ids ->
  fetch_videos_by_keyword_body pc (api_key, keyword, region_code) now w
  = (Some ids,
     touch (quota_used w + QUOTA_COSTS Ksearch)
       (requests w ++ [ReqSearch api_key (keyword_params keyword region_code now)]) w).
Proof.
  intros He Hi. unfold fetch_videos_by_keyword_body, try_except, bind, send.
  fold (keyword_params keyword region_code now). rewrite He. cbn. rewrite Hi.
  reflexivity.
Qed.

Lemma keyword_body_fail api_key keyword region_code now w :
  exec_search pc now api_key (keyword_params keyword region_code now) = None ->
  fetch_videos_by_keyword_body pc (api_key, keyword, region_code) now w
  = (Some [],
     set_requests
       (requests w ++ [ReqSearch api_key (keyword_params keyword region_code now)]) w).
Proof.
  intros He. unfold fetch_videos_by_keyword_body, try_except, bind, send.
  fold (keyword_params keyword region_code now). rewrite He. reflexivity.
Qed.

Lemma keyword_body_unreadable api_key keyword region_code now w items :
  exec_search pc now api_key (keyword_params keyword region_code now) = Some items ->
  search_video_ids items = None ->
  fetch_videos_by_keyword_body pc (api_key, keyword, region_code) now w
  = (Some [],
     set_requests
       (requests w ++ [ReqSearch api_key (keyword_params keyword region_code now)]) w).
Proof.
  intros He Hi. unfold fetch_videos_by_keyword_body, try_except, bind, send.
  fold (keyword_params keyword region_code now). rewrite He. cbn. rewrite Hi.
  reflexivity.
Qed.

Lemma keyword_body_props args now :
  grows (fetch_videos_by_keyword_body pc args now) /\
  oblivious (fetch_videos_by_keyword_body pc args now) /\
  returns (fetch_videos_by_keyword_body pc args now).
Proof.
  destruct args as [[api_key keyword] region_code].
  unfold fetch_videos_by_keyword_body. repeat split; m_steps.
Qed.

(** *** Trending videos of one country *)

Lemma category_body_ok api_key category_id region_code now w items ids :
  exec_popular pc now api_key region_code category_id 5 = Some items ->
  mapM vi_id items = Some ids ->
  fetch_category_videos_body pc (api_key, category_id, region_code) now w
  = (Some (ids, region_code),
     touch (quota_used w + QUOTA_COSTS Kvideos)
       (requests w ++ [ReqPopular api_key region_code category_id 5]) w).
Proof.
  intros He Hi. unfold fetch_category_videos_body, try_except, bind, send.
  rewrite He. cbn. rewrite Hi. reflexivity.
Qed.

Lemma category_body_fail api_key category_id region_code now w :
  exec_popular pc now api_key region_code category_id 5 = None ->
  fetch_category_videos_body pc (api_key, category_id, region_code) now w
  = (Some ([], region_code),
     set_requests (requests w ++ [ReqPopular api_key region_code category_id 5]) w).
Proof.
  intros He. unfold fetch_category_videos_body, try_except, bind, send.
  rewrite He. reflexivity.
Qed.

Lemma category_body_unreadable api_key category_id region_code now w items :
  exec_popular pc now api_key region_code category_id 5 = Some items ->
  mapM vi_id items = None ->
  fetch_category_videos_body pc (api_key, category_id, region_code) now w
  = (Some ([], region_code),
     set_requests (requests w ++ [ReqPopular api_key region_code category_id 5]) w).
Proof.
  intros He Hi. unfold fetch_category_videos_body, try_except, bind, send.
  rewrite He. cbn. rewrite Hi. reflexivity.
Qed.

Lemma category_body_props args now :
  grows (fetch_category_videos_body pc args now) /\
  oblivious (fetch_category_videos_body pc args now) /\
  returns (fetch_category_videos_body pc args now).
Proof.
  destruct args as [[api_key category_id] region_code].
  unfold fetch_category_videos_body. repeat split; m_steps.
Qed.

(** *** Statistics *)

Lemma add_stats_ok items stats :
  Forall (fun item => is_Some (stats_of_item py_int isodate_seconds item)) items ->
  is_Some (add_stats py_int isodate_seconds items stats).
Proof.
  intros Hf. revert stats. induction Hf as [|item items [[vid data] Hi] _ IH];
    intros stats; cbn; [eauto|].
  rewrite Hi. cbn. apply IH.
Qed.

Lemma stats_loop_ok api_key now ids starts :
  Forall (fun i => videos_answered pc py_int isodate_seconds api_key now (slice ids i (i + 50))) starts ->
  forall stats w,
  exists stats',
    stats_loop pc py_int isodate_seconds api_key now ids starts stats w
    = (Some stats',
       touch (quota_used w + QUOTA_COSTS Kvideos * Z.of_nat (length starts))
         (requests w
          ++ map (fun i => ReqVideos api_key (slice ids i (i + 50))) starts) w).
Proof.
  induction 1 as [|i starts (items & He & Hi) _ IH]; intros stats w.
  - exists stats. cbn. unfold ret, touch.
    destruct w. cbn. rewrite app_nil_r, Z.add_0_r. reflexivity.
  - destruct (add_stats_ok items stats Hi) as [stats1 Hs].
    cbn [stats_loop]. unfold bind at 1, send. rewrite He.
    unfold bind at 1, charge. unfold bind at 1. rewrite Hs. cbn [lift ret].
    destruct (IH stats1 (set_quota_used
      (quota_used (set_requests (requests w ++ [ReqVideos api_key (slice ids i (i + 50))]) w)
       + QUOTA_COSTS Kvideos)
      (set_requests (requests w ++ [ReqVideos api_key (slice ids i (i + 50))]) w)))
      as [stats' ->].
    exists stats'. unfold touch, set_requests, set_quota_used. cbn.
    replace (quota_used w + 1 + 1 * Z.of_nat (length starts))
      with (quota_used w + 1 * Z.of_nat (S (length starts))) by lia.
    rewrite <- app_assoc. reflexivity.
Qed.

Lemma stats_loop_fail api_key now ids starts :
  Exists (fun i => exec_videos pc now api_key (slice ids i (i + 50)) = None) starts ->
  forall stats w,
    (stats_loop pc py_int isodate_seconds api_key now ids starts stats w).1 = None.
Proof.
  induction starts as [|i starts IH]; intros Hex stats w.
  - inversion Hex.
  - cbn [stats_loop]. unfold bind at 1, send.
    destruct (exec_videos pc now api_key (slice ids i (i + 50))) as [items|] eqn:He;
      [|reflexivity].
    unfold bind at 1, charge. unfold bind at 1.
    destruct (add_stats py_int isodate_seconds items stats) as [stats1|];
      [|reflexivity].
    cbn [lift ret]. apply IH.
    inversion Hex as [? ? Hh|? ? Ht]; subst; [congruence | exact Ht].
Qed.

Lemma stats_loop_props api_key now ids starts stats :
  grows (stats_loop pc py_int isodate_seconds api_key now ids starts stats) /\
  oblivious (stats_loop pc py_int isodate_seconds api_key now ids starts stats).
Proof.
  revert stats. induction starts as [|i starts IH]; intros stats;
    cbn [stats_loop]; split; m_steps; apply IH.
Qed.

Lemma stats_body_props args now :
  grows (fetch_stats_body pc py_int isodate_seconds args now) /\
  oblivious (fetch_stats_body pc py_int isodate_seconds args now) /\
  returns (fetch_stats_body pc py_int isodate_seconds args now).
Proof.
  destruct args as [api_key ids]. unfold fetch_stats_body.
  repeat split; m_steps; apply stats_loop_props.
Qed.

End FetchFacts.

Section FetchFacts2.
Context (pc : PlatformClient).
Context (py_int : string -> option Z).
Context (isodate_seconds : string -> option Z).
Context (strptime : string -> option Z).

(** *** Subscriber counts *)

Lemma add_subscribers_ok items subscribers :
  Forall (fun item => is_Some (subscribers_of_item py_int item)) items ->
  is_Some (add_subscribers py_int items subscribers).
Proof.
  intros Hf. revert subscribers.
  induction Hf as [|item items [[cid n] Hi] _ IH]; intros subscribers; cbn; [eauto|].
  rewrite Hi. cbn. apply IH.
Qed.

Lemma subscribers_loop_ok api_key now ids starts :
  Forall (fun i => channels_answered pc py_int api_key now (slice ids i (i + 50))) starts ->
  forall subscribers w,
  exists subscribers',
    subscribers_loop pc py_int api_key now ids starts subscribers w
    = (Some subscribers',
       touch (quota_used w + QUOTA_COSTS Kchannels * Z.of_nat (length starts))
         (requests w
          ++ map (fun i => ReqChannels api_key (slice ids i (i + 50))) starts) w).
Proof.
  induction 1 as [|i starts (items & He & Hi) _ IH]; intros subscribers w.
  - exists subscribers. cbn. unfold ret, touch.
    destruct w. cbn. rewrite app_nil_r, Z.add_0_r. reflexivity.
  - destruct (add_subscribers_ok items subscribers Hi) as [subs1 Hs].
    cbn [subscribers_loop]. unfold bind at 1, send. rewrite He.
    unfold bind at 1, charge. unfold bind at 1. rewrite Hs. cbn [lift ret].
    destruct (IH subs1 (set_quota_used
      (quota_used (set_requests (requests w ++ [ReqChannels api_key (slice ids i (i + 50))]) w)
       + QUOTA_COSTS Kchannels)
      (set_requests (requests w ++ [ReqChannels api_key (slice ids i (i + 50))]) w)))
      as [subs' ->].
    exists subs'. unfold touch, set_requests, set_quota_used. cbn.
    replace (quota_used w + 1 + 1 * Z.of_nat (length starts))
      with (quota_used w + 1 * Z.of_nat (S (length starts))) by lia.
    rewrite <- app_assoc. reflexivity.
Qed.

Lemma subscribers_loop_fail api_key now ids starts :
  Exists (fun i => exec_channels pc now api_key (slice ids i (i + 50)) = None) starts ->
  forall subscribers w,
    (subscribers_loop pc py_int api_key now ids starts subscribers w).1 = None.
Proof.
  induction starts as [|i starts IH]; intros Hex subscribers w.
  - inversion Hex.
  - cbn [subscribers_loop]. unfold bind at 1, send.
    destruct (exec_channels pc now api_key (slice ids i (i + 50))) as [items|] eqn:He;
      [|reflexivity].
    unfold bind at 1, charge. unfold bind at 1.
    destruct (add_subscribers py_int items subscribers) as [subs1|];
      [|reflexivity].
    cbn [lift ret]. apply IH.
    inversion Hex as [? ? Hh|? ? Ht]; subst; [congruence | exact Ht].
Qed.

Lemma subscribers_loop_props api_key now ids starts subscribers :
  grows (subscribers_loop pc py_int api_key now ids starts subscribers) /\
  oblivious (subscribers_loop pc py_int api_key now ids starts subscribers).
Proof.
  revert subscribers. induction starts as [|i starts IH]; intros subscribers;
    cbn [subscribers_loop]; split; m_steps; apply IH.
Qed.

Lemma subscribers_body_props args now :
  grows (fetch_subscriber_counts_body pc py_int args now) /\
  oblivious (fetch_subscriber_counts_body pc py_int args now) /\
  returns (fetch_subscriber_counts_body pc py_int args now).
Proof.
  destruct args as [api_key ids]. unfold fetch_subscriber_counts_body.
  repeat split; m_steps; apply subscribers_loop_props.
Qed.

(** *** The cached fetchers *)

Lemma fetch_videos_by_keyword_props args now :
  grows (fetch_videos_by_keyword pc args now) /\
  oblivious (fetch_videos_by_keyword pc args now) /\
  returns (fetch_videos_by_keyword pc args now).
Proof.
  destruct (keyword_body_props pc args now) as (G & O & R).
  unfold fetch_videos_by_keyword. repeat split.
  - apply grows_cache_data; [reflexivity | exact G].
  - apply oblivious_cache_data; try reflexivity; exact O.
  - apply returns_cache_data, R.
Qed.

Lemma fetch_category_videos_props args now :
  grows (fetch_category_videos pc args now) /\
  oblivious (fetch_category_videos pc args now) /\
  returns (fetch_category_videos pc args now).
Proof.
  destruct (category_body_props pc args now) as (G & O & R).
  unfold fetch_category_videos. repeat split.
  - apply grows_cache_data; [reflexivity | exact G].
  - apply oblivious_cache_data; try reflexivity; exact O.
  - apply returns_cache_data, R.
Qed.

Lemma fetch_stats_props args now :
  grows (fetch_stats pc py_int isodate_seconds args now) /\
  oblivious (fetch_stats pc py_int isodate_seconds args now) /\
  returns (fetch_stats pc py_int isodate_seconds args now).
Proof.
  destruct (stats_body_props pc py_int isodate_seconds args now) as (G & O & R).
  unfold fetch_stats. repeat split.
  - apply grows_cache_data; [reflexivity | exact G].
  - apply oblivious_cache_data; try reflexivity; exact O.
  - apply returns_cache_data, R.
Qed.

Lemma fetch_subscriber_counts_props args now :
  grows (fetch_subscriber_counts pc py_int args now) /\
  oblivious (fetch_subscriber_counts pc py_int args now) /\
  returns (fetch_subscriber_counts pc py_int args now).
Proof.
  destruct (subscribers_body_props args now) as (G & O & R).
  unfold fetch_subscriber_counts. repeat split.
  - apply grows_cache_data; [reflexivity | exact G].
  - apply oblivious_cache_data; try reflexivity; exact O.
  - apply returns_cache_data, R.
Qed.

(** *** The two searches *)

Lemma enrich_props api_key now ids country_of :
  grows (enrich pc py_int isodate_seconds strptime api_key now ids country_of) /\
  oblivious (enrich pc py_int isodate_seconds strptime api_key now ids country_of) /\
  returns (enrich pc py_int isodate_seconds strptime api_key now ids country_of).
Proof.
  unfold enrich. repeat split.
  - apply grows_bind; [apply fetch_stats_props|]. intros stats.
    apply grows_bind; [apply fetch_subscriber_counts_props|]. intros subs w.
    cbn. lia.
  - apply oblivious_bind; [apply fetch_stats_props|]. intros stats.
    apply oblivious_bind; [apply fetch_subscriber_counts_props|]. intros subs w q.
    cbn. rewrite Z.sub_diag, Z.add_0_r. reflexivity.
  - apply returns_bind; [apply fetch_stats_props|]. intros stats.
    apply returns_bind; [apply fetch_subscriber_counts_props|]. intros subs w.
    cbn. eauto.
Qed.

Lemma keyword_search_props api_key keyword region_code now :
  grows (keyword_search pc py_int isodate_seconds strptime api_key keyword region_code now) /\
  oblivious (keyword_search pc py_int isodate_seconds strptime api_key keyword region_code now) /\
  returns (keyword_search pc py_int isodate_seconds strptime api_key keyword region_code now).
Proof.
  unfold keyword_search.
  destruct (decide (api_key = ""));
    [repeat split; [apply grows_ret | apply oblivious_ret | apply returns_ret]|].
  destruct (decide (keyword = ""));
    [repeat split; [apply grows_ret | apply oblivious_ret | apply returns_ret]|].
  repeat split.
  - apply grows_bind; [apply fetch_videos_by_keyword_props|].
    intros [|v ids]; [apply grows_ret | apply enrich_props].
  - apply oblivious_bind; [apply fetch_videos_by_keyword_props|].
    intros [|v ids]; [apply oblivious_ret | apply enrich_props].
  - apply returns_bind; [apply fetch_videos_by_keyword_props|].
    intros [|v ids]; [apply returns_ret | apply enrich_props].
Qed.

Lemma sweep_props api_key category_id now countries acc :
  grows (sweep pc api_key category_id now countries acc) /\
  oblivious (sweep pc api_key category_id now countries acc) /\
  returns (sweep pc api_key category_id now countries acc).
Proof.
  revert acc. induction countries as [|[code name] rest IH]; intros acc;
    cbn [sweep].
  - repeat split; [apply grows_ret | apply oblivious_ret | apply returns_ret].
  - repeat split.
    + apply grows_bind; [apply fetch_category_videos_props|]. intros f. apply IH.
    + apply oblivious_bind; [apply fetch_category_videos_props|]. intros f. apply IH.
    + apply returns_bind; [apply fetch_category_videos_props|]. intros f. apply IH.
Qed.

Lemma category_search_props api_key category_id now :
  grows (category_search pc py_int isodate_seconds strptime api_key category_id now) /\
  oblivious (category_search pc py_int isodate_seconds strptime api_key category_id now) /\
  returns (category_search pc py_int isodate_seconds strptime api_key category_id now).
Proof.
  unfold category_search.
  destruct (decide (api_key = ""));
    [repeat split; [apply grows_ret | apply oblivious_ret | apply returns_ret]|].
  repeat split.
  - apply grows_bind; [apply sweep_props|].
    intros [[|v all] m]; [apply grows_ret | apply enrich_props].
  - apply oblivious_bind; [apply sweep_props|].
    intros [[|v all] m]; [apply oblivious_ret | apply enrich_props].
  - apply returns_bind; [apply sweep_props|].
    intros [[|v all] m]; [apply returns_ret | apply enrich_props].
Qed.

End FetchFacts2.

(** ** Batches of the statistics lookup *)

Section StatsBatches.
Context (pc : PlatformClient).
Context (py_int : string -> option Z).
Context (isodate_seconds : string -> option Z).

Lemma fetch_stats_body_ok api_key ids now w :
  Forall (videos_answered pc py_int isodate_seconds api_key now) (batches ids) ->
  exists stats,
    fetch_stats_body pc py_int isodate_seconds (api_key, ids) now w
    = (Some stats,
       touch (quota_used w + QUOTA_COSTS Kvideos * Z.of_nat (length (batches ids)))
         (requests w ++ map (ReqVideos api_key) (batches ids)) w).
Proof.
  intros Ha. unfold batches in *. rewrite Forall_fmap in Ha.
  destruct (stats_loop_ok pc py_int isodate_seconds api_key now ids _ Ha [] w)
    as [stats E].
  exists stats. unfold fetch_stats_body, try_except. rewrite E.
  rewrite length_map, map_map. reflexivity.
Qed.

Lemma fetch_stats_body_fail api_key ids now w :
  Exists (fun b => exec_videos pc now api_key b = None) (batches ids) ->
  (fetch_stats_body pc py_int isodate_seconds (api_key, ids) now w).1 = Some [].
Proof.
  intros He. unfold batches in He. rewrite Exists_fmap in He.
  pose proof (stats_loop_fail pc py_int isodate_seconds api_key now ids _ He [] w) as E.
  unfold fetch_stats_body, try_except.
  destruct (stats_loop _ _ _ _ _ _ _ _ _) as [[s|] w']; cbn in *;
    [discriminate | reflexivity].
Qed.

Lemma batches_120 (ids : list string) :
  length ids = 120%nat -> map length (batches ids) = [50; 50; 20]%nat.
Proof.
  intros L. unfold batches. rewrite L.
  change (py_range 0 120 50) with [0; 50; 100]%nat.
  cbn [map]. unfold slice. rewrite !length_take, !length_drop, L. reflexivity.
Qed.

(** C6, as far as it holds: when the call finds no live cache entry and
    every lookup is answered with items that convert, fetching the
    statistics of [ids] goes through ceil(n/50) batches that are
    consecutive pieces of [ids] with between 1 and 50 ids each, sends
    exactly one [videos().list] request per batch, in order, and adds the
    "videos" weight to the quota counter once per batch; 120 ids make the
    batches 50, 50, 20 and cost 3 units. *)
Theorem fetch_stats_batches api_key ids now w :
  cache_lookup (cache_stats w) (api_key, ids) now = None ->
  Forall (videos_answered pc py_int isodate_seconds api_key now) (batches ids) ->
  let w' := (fetch_stats pc py_int isodate_seconds (api_key, ids) now w).2 in
  length (batches ids) = ((length ids + 49) / 50)%nat /\
  concat (batches ids) = ids /\
  Forall (fun b : list string => (0 < length b <= 50)%nat) (batches ids) /\
  requests w' = requests w ++ map (ReqVideos api_key) (batches ids) /\
  quota_used w'
  = quota_used w + QUOTA_COSTS Kvideos * Z.of_nat (length (batches ids)) /\
  (length ids = 120%nat ->
     map length (batches ids) = [50; 50; 20]%nat /\
     length (requests w') = (length (requests w) + 3)%nat /\
     quota_used w' = quota_used w + 3).
Proof.
  intros Hmiss Ha w'.
  destruct (fetch_stats_body_ok api_key ids now w Ha) as [stats Eb].
  assert (Ew : requests w' = requests w ++ map (ReqVideos api_key) (batches ids)
               /\ quota_used w'
                  = quota_used w + QUOTA_COSTS Kvideos * Z.of_nat (length (batches ids))).
  { subst w'. unfold fetch_stats.
    rewrite (cache_data_miss _ _ _ _ _ _ Hmiss), Eb. split; reflexivity. }
  destruct Ew as [Er Eq].
  repeat match goal with |- _ /\ _ => split end.
  - apply batches_length.
  - apply batches_concat.
  - apply batches_sizes.
  - exact Er.
  - exact Eq.
  - intros L. pose proof (batches_120 ids L) as B.
    assert (L3 : length (batches ids) = 3%nat)
      by (rewrite <- (length_map length), B; reflexivity).
    repeat split.
    + exact B.
    + rewrite Er, length_app, length_map, L3. reflexivity.
    + rewrite Eq, L3. reflexivity.
Qed.

End StatsBatches.

Lemma fetch_stats_batches_witness :
  let ids := ids_upto 120 in
  let w' := (fetch_stats pc_quiet no_int no_int ("key", ids) 0 empty_world).2 in
  length (batches ids) = ((length ids + 49) / 50)%nat /\
  concat (batches ids) = ids /\
  Forall (fun b : list string => (0 < length b <= 50)%nat) (batches ids) /\
  requests w' = requests empty_world ++ map (ReqVideos "key") (batches ids) /\
  quota_used w'
  = quota_used empty_world + QUOTA_COSTS Kvideos * Z.of_nat (length (batches ids)) /\
  (length ids = 120%nat ->
     map length (batches ids) = [50; 50; 20]%nat /\
     length (requests w') = (length (requests empty_world) + 3)%nat /\
     quota_used w' = quota_used empty_world + 3).
Proof.
  apply (fetch_stats_batches pc_quiet no_int no_int "key" (ids_upto 120) 0 empty_world).
  - reflexivity.
  - apply Forall_forall. intros b _. exists []. split; [reflexivity | constructor].
Defined.

(** C6 fails without the two conditions: the loop sits in one [try], so
    with 120 ids and a platform that answers the first batch only, the
    second lookup raises and ends the loop after 2 requests and 1 charge,
    the empty dictionary being returned; and the same call ten seconds
    later is served from the cache, with no request and no charge. *)
Lemma fetch_stats_batches_counterexample :
  let ids := ids_upto 120 in
  let first := fetch_stats pc_broken no_int no_int ("key", ids) 0 empty_world in
  let second := fetch_stats pc_broken no_int no_int ("key", ids) 10 first.2 in
  length ids = 120%nat /\
  map length (batches ids) = [50; 50; 20]%nat /\
  first.1 = Some [] /\
  requests first.2 = map (ReqVideos "key") (take 2 (batches ids)) /\
  quota_used first.2 = 1 /\
  second.1 = Some [] /\
  requests second.2 = requests first.2 /\
  quota_used second.2 = 1.
Proof. vm_compute. repeat split. Qed.

(** ** Failing remote calls *)

Section Failures.
Context (pc : PlatformClient).
Context (py_int : string -> option Z).
Context (isodate_seconds : string -> option Z).
Context (strptime : string -> option Z).

Lemma fetch_subscriber_counts_body_fail api_key ids now w :
  Exists (fun b => exec_channels pc now api_key b = None) (batches (distinct_ids ids)) ->
  (fetch_subscriber_counts_body pc py_int (api_key, ids) now w).1 = Some ∅.
Proof.
  intros He. unfold batches in He. rewrite Exists_fmap in He.
  pose proof (subscribers_loop_fail pc py_int api_key now _ _ He ∅ w) as E.
  unfold fetch_subscriber_counts_body, try_except.
  destruct (subscribers_loop _ _ _ _ _ _ _ _) as [[s|] w']; cbn in *;
    [discriminate | reflexivity].
Qed.

Lemma cache_data_miss_value {K V} `{Countable K}
    (get : world -> gmap K (Z * V)) set (body : K -> Z -> M V) k now w v :
  cache_lookup (get w) k now = None ->
  (body k now w).1 = Some v ->
  (cache_data get set body k now w).1 = Some v.
Proof.
  intros Hm Hb. rewrite (cache_data_miss _ _ _ _ _ _ Hm).
  destruct (body k now w) as [[v'|] w']; cbn in *; [exact Hb | discriminate].
Qed.

(** A country whose listing fails adds nothing and the sweep goes on with
    the next one. *)
Lemma sweep_failed_country api_key category_id now code name rest acc w :
  cache_lookup (cache_category w) (api_key, category_id, code) now = None ->
  exec_popular pc now api_key code category_id 5 = None ->
  sweep pc api_key category_id now ((code, name) :: rest) acc w
  = sweep pc api_key category_id now rest acc
      (fetch_category_videos pc (api_key, category_id, code) now w).2.
Proof.
  intros Hm He. cbn [sweep]. unfold bind, fetch_category_videos.
  rewrite (cache_data_miss _ _ _ _ _ _ Hm), (category_body_fail _ _ _ _ _ _ He).
  reflexivity.
Qed.

(** C7: no fetcher and neither search lets an exception out.  On a cache
    miss, when the remote call raises (for the batched lookups: when the
    call of some batch raises), the keyword search returns the empty
    list and charges nothing, the trending listing returns the empty
    list with its region, and the statistics and subscriber lookups
    return the empty map.  In the sweep a failed country contributes no
    id and the remaining countries are still visited. *)
Theorem fetchers_degrade_to_empty api_key keyword region_code category_id region
    ids now w :
  (returns (fetch_videos_by_keyword pc (api_key, keyword, region_code) now) /\
   returns (fetch_category_videos pc (api_key, category_id, region) now) /\
   returns (fetch_stats pc py_int isodate_seconds (api_key, ids) now) /\
   returns (fetch_subscriber_counts pc py_int (api_key, ids) now) /\
   returns (keyword_search pc py_int isodate_seconds strptime
              api_key keyword region now) /\
   returns (category_search pc py_int isodate_seconds strptime
              api_key category_id now)) /\
  (cache_lookup (cache_keyword w) (api_key, keyword, region_code) now = None ->
   exec_search pc now api_key (keyword_params keyword region_code now) = None ->
   (fetch_videos_by_keyword pc (api_key, keyword, region_code) now w).1 = Some [] /\
   quota_used (fetch_videos_by_keyword pc (api_key, keyword, region_code) now w).2
   = quota_used w) /\
  (cache_lookup (cache_category w) (api_key, category_id, region) now = None ->
   exec_popular pc now api_key region category_id 5 = None ->
   (fetch_category_videos pc (api_key, category_id, region) now w).1
   = Some ([], region)) /\
  (cache_lookup (cache_stats w) (api_key, ids) now = None ->
   Exists (fun b => exec_videos pc now api_key b = None) (batches ids) ->
   (fetch_stats pc py_int isodate_seconds (api_key, ids) now w).1 = Some []) /\
  (cache_lookup (cache_subscribers w) (api_key, ids) now = None ->
   Exists (fun b => exec_channels pc now api_key b = None)
     (batches (distinct_ids ids)) ->
   (fetch_subscriber_counts pc py_int (api_key, ids) now w).1 = Some ∅) /\
  (forall name rest acc,
   cache_lookup (cache_category w) (api_key, category_id, region) now = None ->
   exec_popular pc now api_key region category_id 5 = None ->
   sweep pc api_key category_id now ((region, name) :: rest) acc w
   = sweep pc api_key category_id now rest acc
       (fetch_category_videos pc (api_key, category_id, region) now w).2).
Proof.
  split; [|split; [|split; [|split; [|split]]]].
  - repeat split.
    + apply fetch_videos_by_keyword_props.
    + apply fetch_category_videos_props.
    + apply fetch_stats_props.
    + apply fetch_subscriber_counts_props.
    + apply keyword_search_props.
    + apply category_search_props.
  - intros Hm He. unfold fetch_videos_by_keyword.
    rewrite (cache_data_miss _ _ _ _ _ _ Hm), (keyword_body_fail _ _ _ _ _ _ He).
    split; reflexivity.
  - intros Hm He. unfold fetch_category_videos.
    rewrite (cache_data_miss _ _ _ _ _ _ Hm), (category_body_fail _ _ _ _ _ _ He).
    reflexivity.
  - intros Hm He. apply cache_data_miss_value; [exact Hm|].
    apply fetch_stats_body_fail, He.
  - intros Hm He. apply cache_data_miss_value; [exact Hm|].
    apply fetch_subscriber_counts_body_fail, He.
  - intros name rest acc. apply sweep_failed_country.
Qed.

End Failures.

Lemma fetchers_degrade_to_empty_witness :
  (fetch_videos_by_keyword pc_down ("key", "cats", None) 0 empty_world).1 = Some [] /\
  (fetch_category_videos pc_down ("key", "10", "US") 0 empty_world).1
  = Some ([], "US") /\
  (fetch_stats pc_down no_int no_int ("key", ["a"; "b"]) 0 empty_world).1 = Some [] /\
  (fetch_subscriber_counts pc_down no_int ("key", ["a"; "b"]) 0 empty_world).1 = Some ∅.
Proof.
  pose proof (fetchers_degrade_to_empty pc_down no_int no_int no_int
                "key" "cats" None "10" "US" ["a"; "b"] 0 empty_world)
    as (_ & K & C & S & U & _).
  split; [apply K; reflexivity|].
  split; [apply C; reflexivity|].
  split; [apply S; [reflexivity | constructor; reflexivity]|].
  apply U; [reflexivity | constructor; reflexivity].
Defined.

(** ** Cached calls and the quota *)

Section CacheContract.
Context {K V : Type} `{Countable K}.
Context (get : world -> gmap K (Z * V)) (set : gmap K (Z * V) -> world -> world).
Context (body : K -> Z -> M V).
Hypothesis get_set : forall c w, get (set c w) = c.
Hypothesis quota_set : forall c w, quota_used (set c w) = quota_used w.
Hypothesis requests_set : forall c w, requests (set c w) = requests w.
Hypothesis body_returns : forall k t, returns (body k t).

Lemma cache_data_contract : cache_contract get set body (cache_data get set body).
Proof.
  intros k t1 w Hmiss.
  destruct (body_returns k t1 w) as [v Hv].
  destruct (body k t1 w) as [r w'] eqn:Eb. cbn in Hv. subst r.
  exists v, w'. split; [reflexivity|]. cbn zeta.
  assert (E1 : cache_data get set body k t1 w
               = (Some v, set (<[k := (t1, v)]> (get w')) w'))
    by (rewrite (cache_data_miss _ _ _ _ _ _ Hmiss), Eb; reflexivity).
  destruct (cache_data_twice get set body get_set k t1 w v _ Hmiss E1)
    as (_ & Hhit & Hexp).
  split; [exact E1|]. split; [apply quota_set|]. split; [apply requests_set|].
  split; [exact Hhit|].
  intros t3 Ht. rewrite (Hexp t3 Ht).
  destruct (body_returns k t3 (set (<[k := (t1, v)]> (get w')) w')) as [v3 Hv3].
  destruct (body k t3 _) as [r3 w3] eqn:Eb3. cbn in Hv3. subst r3.
  exists v3, w3. split; reflexivity.
Qed.

End CacheContract.

Section CachedFetchers.
Context (pc : PlatformClient).
Context (py_int : string -> option Z).
Context (isodate_seconds : string -> option Z).

Lemma fetch_subscriber_counts_body_ok api_key ids now w :
  Forall (channels_answered pc py_int api_key now) (batches (distinct_ids ids)) ->
  exists subscribers,
    fetch_subscriber_counts_body pc py_int (api_key, ids) now w
    = (Some subscribers,
       touch (quota_used w
              + QUOTA_COSTS Kchannels * Z.of_nat (length (batches (distinct_ids ids))))
         (requests w ++ map (ReqChannels api_key) (batches (distinct_ids ids))) w).
Proof.
  intros Ha. unfold batches in *. rewrite Forall_fmap in Ha.
  destruct (subscribers_loop_ok pc py_int api_key now _ _ Ha ∅ w) as [subs E].
  exists subs. unfold fetch_subscriber_counts_body, try_except. rewrite E.
  rewrite length_map, map_map. reflexivity.
Qed.

(** C4, as far as it holds.  Each of the four fetchers obeys the cache
    contract: after a call that found no live entry, a call with the same
    arguments within the hour returns the same value, sends no request
    and leaves the quota counter alone, so the two calls charge what the
    body charged once; a call after the hour runs the body again.  What
    the body charges: the keyword search and the trending listing add
    their weight once when the remote call returns a page whose items can
    all be read, and nothing when the call raises or when an item of the
    page cannot be read (the empty result is returned, and cached, all the
    same); the statistics and subscriber lookups add their weight once
    per batch when every batch is answered with items that convert. *)
Theorem cached_fetchers :
  cache_contract cache_keyword set_cache_keyword
    (fetch_videos_by_keyword_body pc) (fetch_videos_by_keyword pc) /\
  cache_contract cache_category set_cache_category
    (fetch_category_videos_body pc) (fetch_category_videos pc) /\
  cache_contract cache_stats set_cache_stats
    (fetch_stats_body pc py_int isodate_seconds)
    (fetch_stats pc py_int isodate_seconds) /\
  cache_contract cache_subscribers set_cache_subscribers
    (fetch_subscriber_counts_body pc py_int) (fetch_subscriber_counts pc py_int) /\
  (forall api_key keyword region_code now w,
     let rq := ReqSearch api_key (keyword_params keyword region_code now) in
     let run := fetch_videos_by_keyword_body pc (api_key, keyword, region_code) now w in
     (forall items ids,
        exec_search pc now api_key (keyword_params keyword region_code now) = Some items ->
        search_video_ids items = Some ids ->
        run = (Some ids, touch (quota_used w + 100) (requests w ++ [rq]) w)) /\
     (forall items,
        exec_search pc now api_key (keyword_params keyword region_code now) = Some items ->
        search_video_ids items = None ->
        run = (Some [], set_requests (requests w ++ [rq]) w)) /\
     (exec_search pc now api_key (keyword_params keyword region_code now) = None ->
        run = (Some [], set_requests (requests w ++ [rq]) w))) /\
  (forall api_key category_id region now w,
     let rq := ReqPopular api_key region category_id 5 in
     let run := fetch_category_videos_body pc (api_key, category_id, region) now w in
     (forall items ids,
        exec_popular pc now api_key region category_id 5 = Some items ->
        mapM vi_id items = Some ids ->
        run = (Some (ids, region), touch (quota_used w + 1) (requests w ++ [rq]) w)) /\
     (forall items,
        exec_popular pc now api_key region category_id 5 = Some items ->
        mapM vi_id items = None ->
        run = (Some ([], region), set_requests (requests w ++ [rq]) w)) /\
     (exec_popular pc now api_key region category_id 5 = None ->
        run = (Some ([], region), set_requests (requests w ++ [rq]) w))) /\
  (forall api_key ids now w,
     Forall (videos_answered pc py_int isodate_seconds api_key now) (batches ids) ->
     exists stats,
       fetch_stats_body pc py_int isodate_seconds (api_key, ids) now w
       = (Some stats,
          touch (quota_used w + 1 * Z.of_nat (length (batches ids)))
            (requests w ++ map (ReqVideos api_key) (batches ids)) w)) /\
  (forall api_key ids now w,
     Forall (channels_answered pc py_int api_key now) (batches (distinct_ids ids)) ->
     exists subscribers,
       fetch_subscriber_counts_body pc py_int (api_key, ids) now w
       = (Some subscribers,
          touch (quota_used w + 1 * Z.of_nat (length (batches (distinct_ids ids))))
            (requests w ++ map (ReqChannels api_key) (batches (distinct_ids ids))) w)).
Proof.
  repeat match goal with |- _ /\ _ => split end.
  - apply cache_data_contract; try reflexivity.
    intros k t. apply keyword_body_props.
  - apply cache_data_contract; try reflexivity.
    intros k t. apply category_body_props.
  - apply cache_data_contract; try reflexivity.
    intros k t. apply stats_body_props.
  - apply cache_data_contract; try reflexivity.
    intros k t. apply subscribers_body_props.
  - intros api_key keyword region_code now w rq run. split; [|split].
    + intros items ids. apply keyword_body_ok.
    + intros items. apply keyword_body_unreadable.
    + apply keyword_body_fail.
  - intros api_key category_id region now w rq run. split; [|split].
    + intros items ids. apply category_body_ok.
    + intros items. apply category_body_unreadable.
    + apply category_body_fail.
  - apply fetch_stats_body_ok.
  - apply fetch_subscriber_counts_body_ok.
Qed.

End CachedFetchers.

(** C4 fails when the remote call raises: on a platform that is down, two
    identical keyword searches ten seconds apart both return the empty
    list and the quota counter is still 0 after them, one request having
    been sent; and two identical statistics lookups of 120 ids on a
    platform that answers raise the counter three times, to 3.  The
    counter also stays at 0 when the search returns a page with an item
    that has no kind. *)
Lemma cached_calls_counterexample :
  let k := ("key", "cats", None) in
  let c1 := fetch_videos_by_keyword pc_down k 0 empty_world in
  let c2 := fetch_videos_by_keyword pc_down k 10 c1.2 in
  let s1 := fetch_stats pc_quiet no_int no_int ("key", ids_upto 120) 0 empty_world in
  let s2 := fetch_stats pc_quiet no_int no_int ("key", ids_upto 120) 10 s1.2 in
  let b1 := fetch_videos_by_keyword pc_broken k 0 empty_world in
  let b2 := fetch_videos_by_keyword pc_broken k 10 b1.2 in
  c1.1 = Some [] /\ c2.1 = Some [] /\
  quota_used c2.2 = 0 /\ length (requests c2.2) = 1%nat /\
  quota_used s1.2 = 3 /\ quota_used s2.2 = 3 /\ length (requests s2.2) = 3%nat /\
  b1.1 = Some [] /\ b2.1 = Some [] /\
  quota_used b2.2 = 0 /\ length (requests b2.2) = 1%nat.
Proof. vm_compute. repeat split. Qed.

Lemma cached_fetchers_witness :
  exists v w',
    fetch_videos_by_keyword_body pc_demo ("key", "cats", None) 0 empty_world
    = (Some v, w') /\
    let w1 := set_cache_keyword (<[("key", "cats", None) := (0, v)]> (cache_keyword w')) w' in
    fetch_videos_by_keyword pc_demo ("key", "cats", None) 0 empty_world = (Some v, w1) /\
    quota_used w1 = quota_used w' /\
    requests w1 = requests w' /\
    (forall t2, t2 < 0 + CACHE_TTL ->
       fetch_videos_by_keyword pc_demo ("key", "cats", None) t2 w1 = (Some v, w1)) /\
    (forall t3, 0 + CACHE_TTL <= t3 ->
       exists v3 w3,
         fetch_videos_by_keyword_body pc_demo ("key", "cats", None) t3 w1 = (Some v3, w3) /\
         fetch_videos_by_keyword pc_demo ("key", "cats", None) t3 w1
         = (Some v3,
            set_cache_keyword (<[("key", "cats", None) := (t3, v3)]> (cache_keyword w3)) w3)).
Proof.
  apply (proj1 (cached_fetchers pc_demo no_int no_int)). reflexivity.
Defined.

(** ** The quota counter *)

Section Quota.
Context (pc : PlatformClient).
Context (py_int : string -> option Z).
Context (isodate_seconds : string -> option Z).
Context (strptime : string -> option Z).

Lemma grows_world {A} (m : M A) w : grows m -> quota_used w <= quota_used (m w).2.
Proof. intros G. apply G. Qed.

Lemma oblivious_world {A} (m : M A) w q :
  oblivious m ->
  (m (set_quota_used q w)).2
  = set_quota_used (q + (quota_used (m w).2 - quota_used w)) (m w).2.
Proof. intros O. rewrite O. reflexivity. Qed.

Lemma run_op_grows op now w :
  is_reset op = false ->
  quota_used w <= quota_used (run_op pc py_int isodate_seconds strptime op now w).
Proof.
  intros Hr. destruct op; cbn [run_op]; try discriminate; apply grows_world.
  - apply fetch_videos_by_keyword_props.
  - apply fetch_category_videos_props.
  - apply fetch_stats_props.
  - apply fetch_subscriber_counts_props.
  - apply keyword_search_props.
  - apply category_search_props.
Qed.

Lemma run_ops_grows ops w :
  Forall (fun o : operation * Z => is_reset o.1 = false) ops ->
  quota_used w <= quota_used (run_ops pc py_int isodate_seconds strptime ops w).
Proof.
  intros Hf. revert w. induction Hf as [|[op now] ops Hr _ IH]; intros w; cbn.
  - lia.
  - etransitivity; [apply (run_op_grows op now w Hr) | apply IH].
Qed.

Lemma run_op_oblivious op now w q :
  is_reset op = false ->
  run_op pc py_int isodate_seconds strptime op now (set_quota_used q w)
  = set_quota_used
      (q + (quota_used (run_op pc py_int isodate_seconds strptime op now w)
            - quota_used w))
      (run_op pc py_int isodate_seconds strptime op now w).
Proof.
  intros Hr. destruct op; cbn [run_op]; try discriminate; apply oblivious_world.
  - apply fetch_videos_by_keyword_props.
  - apply fetch_category_videos_props.
  - apply fetch_stats_props.
  - apply fetch_subscriber_counts_props.
  - apply keyword_search_props.
  - apply category_search_props.
Qed.

Lemma keyword_miss_charged api_key keyword region_code now w items ids :
  cache_lookup (cache_keyword w) (api_key, keyword, region_code) now = None ->
  exec_search pc now api_key (keyword_params keyword region_code now) = Some items ->
  search_video_ids items = Some ids ->
  let w' := run_op pc py_int isodate_seconds strptime
              (OpKeyword api_key keyword region_code) now w in
  requests w'
  = requests w ++ [ReqSearch api_key (keyword_params keyword region_code now)] /\
  quota_used w' = quota_used w + 100 /\
  remaining w' = remaining w - 100.
Proof.
  intros Hm He Hi. cbn [run_op]. unfold fetch_videos_by_keyword.
  rewrite (cache_data_miss _ _ _ _ _ _ Hm), (keyword_body_ok _ _ _ _ _ _ _ _ He Hi).
  cbn. unfold remaining. cbn. repeat split. lia.
Qed.

End Quota.

(** C8: no fetcher and neither search lowers the quota counter, over one
    operation or any sequence of them; the reset sets it to 0.  No
    operation looks at the counter: started from any other value, over the
    limit or not, it sends the same requests, returns the same value and
    adds the same amount, and a keyword search that misses the cache and is
    answered sends its request and adds 100 whatever the counter was.  The
    remaining quota shown is 10000 minus the counter and is negative once
    the counter passes 10000, as after 101 answered searches an hour
    apart. *)
Theorem quota_counter_soft (pc : PlatformClient)
    (py_int isodate_seconds strptime : string -> option Z) :
  (forall op now w,
     is_reset op = false ->
     quota_used w <= quota_used (run_op pc py_int isodate_seconds strptime op now w)) /\
  (forall ops w,
     Forall (fun o : operation * Z => is_reset o.1 = false) ops ->
     quota_used w <= quota_used (run_ops pc py_int isodate_seconds strptime ops w)) /\
  (forall now w,
     quota_used (run_op pc py_int isodate_seconds strptime OpReset now w) = 0) /\
  (forall op now w q,
     is_reset op = false ->
     run_op pc py_int isodate_seconds strptime op now (set_quota_used q w)
     = set_quota_used
         (q + (quota_used (run_op pc py_int isodate_seconds strptime op now w)
               - quota_used w))
         (run_op pc py_int isodate_seconds strptime op now w)) /\
  (forall api_key keyword region_code now w items ids,
     cache_lookup (cache_keyword w) (api_key, keyword, region_code) now = None ->
     exec_search pc now api_key (keyword_params keyword region_code now) = Some items ->
     search_video_ids items = Some ids ->
     let w' := run_op pc py_int isodate_seconds strptime
                 (OpKeyword api_key keyword region_code) now w in
     requests w'
     = requests w ++ [ReqSearch api_key (keyword_params keyword region_code now)] /\
     quota_used w' = quota_used w + 100 /\
     remaining w' = remaining w - 100) /\
  (forall w,
     remaining w = DAILY_QUOTA_LIMIT - quota_used w /\
     (DAILY_QUOTA_LIMIT < quota_used w -> remaining w < 0)) /\
  quota_used (run_ops pc_demo no_int no_int no_int (hourly_searches 101) empty_world)
  = 10100 /\
  remaining (run_ops pc_demo no_int no_int no_int (hourly_searches 101) empty_world)
  = -100.
Proof.
  repeat match goal with |- _ /\ _ => split end.
  - apply run_op_grows.
  - apply run_ops_grows.
  - reflexivity.
  - apply run_op_oblivious.
  - apply keyword_miss_charged.
  - intros w. split; [reflexivity | unfold remaining, DAILY_QUOTA_LIMIT; lia].
  - vm_compute. reflexivity.
  - vm_compute. reflexivity.
Qed.

(** ** Merging the countries *)

Section Merge.

Lemma merge_ids_nil code acc : merge_ids code [] acc = acc.
Proof. reflexivity. Qed.

Lemma merge_ids_cons code v ids all (m : gmap string string) :
  merge_ids code (v :: ids) (all, m)
  = merge_ids code ids
      (match m !! v with
       | None => (all ++ [v], <[v := code]> m)
       | Some _ => (all, m)
       end).
Proof. reflexivity. Qed.

Lemma merged_ok_step code v all (m : gmap string string) :
  merged_ok (all, m) ->
  merged_ok (match m !! v with
             | None => (all ++ [v], <[v := code]> m)
             | Some _ => (all, m)
             end).
Proof.
  intros [Hnd Hdom]. destruct (m !! v) eqn:E; [split; assumption|].
  unfold merged_ok. cbn in *. split.
  - apply NoDup_app. split; [exact Hnd|]. split; [|apply NoDup_singleton].
    intros x Hx Hx'. apply list_elem_of_singleton in Hx'. subst x.
    apply Hdom in Hx. rewrite E in Hx. destruct Hx as [? [=]].
  - intros x. rewrite elem_of_app, list_elem_of_singleton, Hdom.
    destruct (decide (v = x)) as [->|N].
    + rewrite lookup_insert_eq. split; eauto.
    + rewrite lookup_insert_ne by exact N. split; [intros [?|?]; [assumption|congruence] | eauto].
Qed.

Lemma merge_ids_ok code ids acc : merged_ok acc -> merged_ok (merge_ids code ids acc).
Proof.
  revert acc. induction ids as [|v ids IH]; intros [all m] Hok; [exact Hok|].
  rewrite merge_ids_cons. apply IH, merged_ok_step, Hok.
Qed.

Lemma merge_ids_elem code ids acc v :
  v ∈ (merge_ids code ids acc).1 <-> v ∈ acc.1 \/ (v ∈ ids /\ acc.2 !! v = None).
Proof.
  revert acc. induction ids as [|x ids IH]; intros [all m].
  - cbn. split; [eauto | intros [?|[Hn _]]; [assumption | inversion Hn]].
  - rewrite merge_ids_cons, IH. cbn. rewrite elem_of_cons.
    destruct (m !! x) eqn:E; cbn.
    + split; [intros [?|[? ?]]; eauto | intros [?|[[->|?] ?]]; eauto; congruence].
    + rewrite elem_of_app, list_elem_of_singleton.
      destruct (decide (x = v)) as [->|N].
      * rewrite lookup_insert_eq. split; [intros [[?|?]|[? ?]]; eauto; congruence | eauto].
      * rewrite lookup_insert_ne by exact N.
        split; [intros [[?|?]|[? ?]]; eauto; congruence
               | intros [?|[[?|?] ?]]; eauto; congruence].
Qed.




Lemma merge_all_cons code ids fetched acc :
  merge_all ((code, ids) :: fetched) acc = merge_all fetched (merge_ids code ids acc).
Proof. reflexivity. Qed.


Lemma merge_all_elem fetched acc v :
  merged_ok acc ->
  v ∈ (merge_all fetched acc).1
  <-> v ∈ acc.1 \/ exists code ids, (code, ids) ∈ fetched /\ v ∈ ids.
Proof.
  revert acc. induction fetched as [|[code ids] fetched IH]; intros acc Hok.
  - cbn. split; [eauto | intros [?|(c & i & Hin & _)]; [assumption | inversion Hin]].
  - rewrite merge_all_cons, (IH _ (merge_ids_ok code ids acc Hok)), merge_ids_elem.
    split.
    + intros [[?|[Hin _]]|(c & i & Hin & Hv)]; [left; assumption | |].
      * right. exists code, ids. split; [apply list_elem_of_here | exact Hin].
      * right. exists c, i. split; [apply list_elem_of_further, Hin | exact Hv].
    + intros [?|(c & i & Hin & Hv)]; [left; left; assumption|].
      apply elem_of_cons in Hin as [[= -> ->]|Hin].
      * destruct (acc.2 !! v) eqn:E.
        -- left. left. apply Hok. rewrite E. eauto.
        -- left. right. split; [assumption | reflexivity].
      * right. exists c, i. split; assumption.
Qed.



End Merge.

(** ** The category search *)

Section CategorySearch.
Context (pc : PlatformClient).
Context (py_int : string -> option Z).
Context (isodate_seconds : string -> option Z).
Context (strptime : string -> option Z).


Lemma sweep_eq api_key category_id now countries acc w :
  sweep pc api_key category_id now countries acc w
  = (Some (merge_all (sweep_fetched pc api_key category_id now countries w).1 acc),
     (sweep_fetched pc api_key category_id now countries w).2).
Proof.
  revert acc w. induction countries as [|[code name] rest IH]; intros acc w;
    [reflexivity|].
  cbn [sweep sweep_fetched]. unfold bind.
  destruct (proj2 (proj2 (fetch_category_videos_props pc (api_key, category_id, code) now)) w)
    as [fetched Hf].
  destruct (fetch_category_videos pc (api_key, category_id, code) now w) as [r w1].
  cbn in Hf. subst r. cbn [fst snd]. rewrite IH. reflexivity.
Qed.

(** *** The requests of the lookups *)

Lemma stats_loop_requests api_key now ids starts stats w :
  exists n,
    requests (stats_loop pc py_int isodate_seconds api_key now ids starts stats w).2
    = requests w ++ map (fun i => ReqVideos api_key (slice ids i (i + 50))) (take n starts).
Proof.
  revert stats w. induction starts as [|i starts IH]; intros stats w.
  - exists 0%nat. cbn. rewrite app_nil_r. reflexivity.
  - cbn [stats_loop]. unfold bind at 1, send.
    destruct (exec_videos pc now api_key (slice ids i (i + 50))) as [items|].
    + unfold bind at 1, charge. unfold bind at 1.
      destruct (add_stats py_int isodate_seconds items stats) as [stats1|]; cbn [lift ret raise].
      * destruct (IH stats1 (set_quota_used
          (quota_used (set_requests (requests w ++ [ReqVideos api_key (slice ids i (i + 50))]) w)
           + QUOTA_COSTS Kvideos)
          (set_requests (requests w ++ [ReqVideos api_key (slice ids i (i + 50))]) w)))
          as [n ->].
        exists (S n). cbn. rewrite <- app_assoc. reflexivity.
      * exists 1%nat. cbn. rewrite take_0. reflexivity.
    + exists 1%nat. cbn. rewrite take_0. reflexivity.
Qed.

Lemma fetch_stats_requests api_key ids now w :
  exists n,
    requests (fetch_stats pc py_int isodate_seconds (api_key, ids) now w).2
    = requests w ++ map (ReqVideos api_key) (take n (batches ids)).
Proof.
  unfold fetch_stats, cache_data.
  destruct (cache_lookup (cache_stats w) (api_key, ids) now).
  - exists 0%nat. cbn. rewrite app_nil_r. reflexivity.
  - unfold fetch_stats_body, try_except.
    destruct (stats_loop_requests api_key now ids (py_range 0 (length ids) 50) [] w)
      as [n E].
    exists n. unfold batches. rewrite <- fmap_take, map_map.
    destruct (stats_loop _ _ _ _ _ _ _ _ _) as [[s|] w']; exact E.
Qed.

Lemma subscribers_loop_requests api_key now ids starts subscribers w :
  exists rqs,
    requests (subscribers_loop pc py_int api_key now ids starts subscribers w).2
    = requests w ++ rqs /\ Forall is_channels_request rqs.
Proof.
  revert subscribers w. induction starts as [|i starts IH]; intros subscribers w.
  - exists []. cbn. rewrite app_nil_r. split; [reflexivity | constructor].
  - cbn [subscribers_loop]. unfold bind at 1, send.
    destruct (exec_channels pc now api_key (slice ids i (i + 50))) as [items|].
    + unfold bind at 1, charge. unfold bind at 1.
      destruct (add_subscribers py_int items subscribers) as [subs1|]; cbn [lift ret raise].
      * destruct (IH subs1 (set_quota_used
          (quota_used (set_requests (requests w ++ [ReqChannels api_key (slice ids i (i + 50))]) w)
           + QUOTA_COSTS Kchannels)
          (set_requests (requests w ++ [ReqChannels api_key (slice ids i (i + 50))]) w)))
          as (rqs & -> & Hf).
        exists (ReqChannels api_key (slice ids i (i + 50)) :: rqs). cbn.
        rewrite <- app_assoc. split; [reflexivity | constructor; [exact I | exact Hf]].
      * eexists. cbn. split; [reflexivity | repeat constructor].
    + eexists. cbn. split; [reflexivity | repeat constructor].
Qed.

Lemma fetch_subscriber_counts_requests api_key ids now w :
  exists rqs,
    requests (fetch_subscriber_counts pc py_int (api_key, ids) now w).2
    = requests w ++ rqs /\ Forall is_channels_request rqs.
Proof.
  unfold fetch_subscriber_counts, cache_data.
  destruct (cache_lookup (cache_subscribers w) (api_key, ids) now).
  - exists []. cbn. rewrite app_nil_r. split; [reflexivity | constructor].
  - unfold fetch_subscriber_counts_body, try_except.
    destruct (subscribers_loop_requests api_key now (distinct_ids ids)
                (py_range 0 (length (distinct_ids ids)) 50) ∅ w) as (rqs & E & Hf).
    exists rqs. split; [|exact Hf].
    destruct (subscribers_loop _ _ _ _ _ _ _ _) as [[s|] w']; exact E.
Qed.

Lemma batches_short (ids : list string) :
  (length ids <= 50)%nat -> batches ids = match ids with [] => [] | _ => [ids] end.
Proof.
  intros L. unfold batches. rewrite py_range_50.
  destruct ids as [|x ids]; [reflexivity|].
  assert (E : ((length (x :: ids) + 49) / 50 = 1)%nat).
  { cbn [length] in *. replace (S (length ids) + 49)%nat with (1 * 50 + length ids)%nat by lia.
    rewrite Nat.div_add_l by lia. rewrite Nat.div_small by lia. reflexivity. }
  rewrite E. cbn [seq map]. unfold slice.
  rewrite drop_0, take_ge by (cbn [length] in *; lia). reflexivity.
Qed.

Lemma make_rows_country now subscribers country_of stats :
  Forall (fun row => r_search_country row = country_of (r_video_id row))
    (make_rows strptime now subscribers country_of stats).
Proof.
  unfold make_rows. apply Forall_forall. intros row Hrow.
  apply list_elem_of_omap in Hrow as ([vid data] & _ & Hm).
  unfold make_row in Hm.
  destruct (strptime (published_at data)) as [published|]; [|discriminate]. cbn in Hm.
  destruct (Py.div _ _) as [hours|]; [|discriminate]. cbn in Hm.
  destruct (counts_fit data); [|discriminate].
  destruct (row_velocity _ _) as [velocity|]; [|discriminate]. cbn in Hm.
  destruct (calc_global_score _ _ _ _ _) as [score|]; [|discriminate]. cbn in Hm.
  injection Hm as <-. reflexivity.
Qed.

Lemma enrich_effect api_key now ids country_of w :
  let w' := (enrich pc py_int isodate_seconds strptime api_key now ids country_of w).2 in
  (exists n rqs,
     requests w' = requests w ++ map (ReqVideos api_key) (take n (batches ids)) ++ rqs /\
     Forall is_channels_request rqs) /\
  Forall (fun row => r_search_country row = country_of (r_video_id row)) (results w').
Proof.
  unfold enrich, bind.
  destruct (fetch_stats_requests api_key ids now w) as [n En].
  destruct (proj2 (proj2 (fetch_stats_props pc py_int isodate_seconds (api_key, ids) now)) w)
    as [stats Hs].
  destruct (fetch_stats pc py_int isodate_seconds (api_key, ids) now w) as [r w1].
  cbn in Hs, En. subst r.
  destruct (fetch_subscriber_counts_requests api_key
              (map (fun s : string * video_stats => channel_id s.2) stats) now w1)
    as (rqs & Er & Hf).
  destruct (proj2 (proj2 (fetch_subscriber_counts_props pc py_int
              (api_key, map (fun s : string * video_stats => channel_id s.2) stats) now)) w1)
    as [subs Hu].
  destruct (fetch_subscriber_counts pc py_int _ now w1) as [r2 w2].
  cbn in Hu, Er. subst r2. cbn. split.
  - exists n, rqs. rewrite Er, En, <- app_assoc. split; [reflexivity | exact Hf].
  - apply make_rows_country.
Qed.

End CategorySearch.

Lemma merged_ok_empty : merged_ok ([], ∅).
Proof.
  split; [constructor|]. intros v. cbn [fst snd]. split.
  - intros Hin. inversion Hin.
  - intros [c Hc]. rewrite lookup_empty in Hc. discriminate.
Qed.

(** The session the category search leaves, in terms of what the sweep
    fetched. *)
Lemma category_search_final (pc : PlatformClient)
    (py_int isodate_seconds strptime : string -> option Z)
    (api_key category_id : string) (now : Z) (w : world) :
  api_key <> "" ->
  (category_search pc py_int isodate_seconds strptime api_key category_id now w).2
  = match (merge_all
             (sweep_fetched pc api_key category_id now GLOBAL_TOP_COUNTRIES w).1
             ([], ∅)).1 with
    | [] => (sweep_fetched pc api_key category_id now GLOBAL_TOP_COUNTRIES w).2
    | _ =>
        (enrich pc py_int isodate_seconds strptime api_key now
           (take 50
              (merge_all
                 (sweep_fetched pc api_key category_id now GLOBAL_TOP_COUNTRIES w).1
                 ([], ∅)).1)
           (fun video_id =>
              default "UNKNOWN"
                ((merge_all
                    (sweep_fetched pc api_key category_id now GLOBAL_TOP_COUNTRIES w).1
                    ([], ∅)).2 !! video_id))
           (sweep_fetched pc api_key category_id now GLOBAL_TOP_COUNTRIES w).2).2
    end.
Proof.
  intros Hkey. unfold category_search.
  destruct (decide (api_key = "")) as [E|_]; [contradiction|].
  unfold bind. rewrite sweep_eq.
  generalize (sweep_fetched pc api_key category_id now GLOBAL_TOP_COUNTRIES w).
  intros sf. destruct (merge_all sf.1 ([], ∅)) as [[|v all] m]; reflexivity.
Qed.



(** The sweep on the sample platform: "b" trends in the United States and
    in India and is listed once, tagged US; Japan fails and adds nothing
    (19 listings, one statistics and one channel request are charged);
    the statistics request carries the three merged ids. *)
Example category_sweep_demo :
  let sf := sweep_fetched pc_demo "key" "10" 0 GLOBAL_TOP_COUNTRIES empty_world in
  let merged := merge_all sf.1 ([], ∅) in
  let final := (category_search pc_demo no_int no_int no_int "key" "10" 0 empty_world).2 in
  merged.1 = ["a"; "b"; "c"] /\
  merged.2 !! "a" = Some "US" /\ merged.2 !! "b" = Some "US" /\
  merged.2 !! "c" = Some "IN" /\
  quota_used final = 21 /\
  drop 20 (requests final)
  = [ReqVideos "key" ["a"; "b"; "c"]; ReqChannels "key" [""]].
Proof. vm_compute. repeat split. Qed.

(* ================================================================= *)
(** * Further properties of the code *)

(** ** The region select box *)

Section RegionOptions.

Lemma append_cons c a b : String.append (String c a) b = String c (String.append a b).
Proof. reflexivity. Qed.

Lemma append_empty_r s : String.append s "" = s.
Proof.
  induction s as [|c s IH]; [reflexivity|].
  rewrite append_cons, IH. reflexivity.
Qed.

Lemma has_char_append c a b :
  has_char c (String.append a b) = has_char c a || has_char c b.
Proof.
  induction a as [|x a IH]; [reflexivity|].
  rewrite append_cons. cbn [has_char]. rewrite IH. apply orb_assoc.
Qed.

Lemma split_on_no_sep sep s : has_char sep s = false -> split_on sep s = [s].
Proof.
  induction s as [|c s IH]; cbn; [reflexivity|].
  intros H. apply orb_false_iff in H as [Hc Hs].
  apply bool_decide_eq_false in Hc.
  destruct (decide (c = sep)) as [E|_]; [contradiction|].
  rewrite (IH Hs). reflexivity.
Qed.

(** Splitting behind a prefix without separator: the prefix stays in
    front of the first piece. *)
Lemma split_on_append sep a b :
  has_char sep a = false ->
  split_on sep (String.append a b)
  = match split_on sep b with
    | piece :: pieces => String.append a piece :: pieces
    | [] => [a]
    end.
Proof.
  induction a as [|c a IH].
  - intros _. change (String.append "" b) with b.
    destruct (split_on sep b) as [|piece pieces] eqn:E; [|reflexivity].
    destruct b as [|x b]; cbn in E; [discriminate|].
    destruct (decide (x = sep)); [discriminate|].
    destruct (split_on sep b); discriminate.
  - cbn [has_char]. intros H. apply orb_false_iff in H as [Hc Ha].
    apply bool_decide_eq_false in Hc.
    rewrite append_cons. cbn [split_on].
    destruct (decide (c = sep)) as [E|_]; [contradiction|].
    rewrite (IH Ha). destruct (split_on sep b); reflexivity.
Qed.

(** The code of a country is read back from its entry of the select box:
    when its name has no opening parenthesis, its code no parenthesis, and
    the entry does not start with the word of the world-wide entry, line
    376 returns the code.  The world-wide entry gives "GLOBAL". *)
Theorem region_code_of_option name code :
  has_char "("%char name = false ->
  has_char "("%char code = false ->
  has_char ")"%char code = false ->
  String.prefix "전세계" (region_option name code) = false ->
  region_code_of (region_option name code) = Some code /\
  region_code_of REGION_ALL = Some "GLOBAL".
Proof.
  intros Hn Hc1 Hc2 Hp. split; [|reflexivity].
  unfold region_code_of. rewrite Hp. unfold region_option.
  rewrite (split_on_append _ _ _ Hn).
  change (String.append " (" (String.append code ")"))
    with (String " " (String "(" (String.append code ")"))).
  cbn [split_on].
  destruct (decide (" "%char = "("%char)) as [E|_]; [discriminate|].
  destruct (decide ("("%char = "("%char)) as [_|N]; [|contradiction].
  assert (Hcp : has_char "("%char (String.append code ")") = false)
    by (rewrite has_char_append, Hc1; reflexivity).
  rewrite (split_on_no_sep _ _ Hcp). cbn.
  rewrite (split_on_append _ _ _ Hc2).
  change (split_on ")"%char ")") with [""; ""]. cbn.
  rewrite append_empty_r. reflexivity.
Qed.

Lemma region_code_of_option_witness :
  region_code_of (region_option "미국" "US") = Some "US" /\
  region_code_of REGION_ALL = Some "GLOBAL".
Proof. apply (region_code_of_option "미국" "US"); reflexivity. Defined.

(** Every entry of the select box gives the code it was built from. *)
Example region_options_codes :
  map region_code_of region_options
  = Some "GLOBAL" :: map (fun c : string * string => Some c.1) GLOBAL_TOP_COUNTRIES.
Proof. vm_compute. reflexivity. Qed.

End RegionOptions.

(** ** The ids of a search page *)

Section SearchPage.

Lemma search_video_ids_cons item rest :
  search_video_ids (item :: rest)
  = match si_kind item with
    | None => None
    | Some kind =>
        if decide (kind = "youtube#video") then
          match si_videoId item with
          | None => None
          | Some vid => cons vid <$> search_video_ids rest
          end
        else search_video_ids rest
    end.
Proof.
  cbn [search_video_ids]. destruct (si_kind item) as [kind|]; [|reflexivity]. cbn.
  destruct (decide (kind = "youtube#video")); [|reflexivity].
  destruct (si_videoId item) as [vid|]; [|reflexivity]. cbn.
  destruct (search_video_ids rest); reflexivity.
Qed.

(** The comprehension returns the ids of the items of the video kind, in
    the order of the page, and nothing of the other items; it raises
    exactly when some item has no kind or is a video without id. *)
Theorem search_video_ids_spec items :
  (is_Some (search_video_ids items) <-> Forall readable_item items) /\
  (forall ids, search_video_ids items = Some ids -> ids = omap video_id_of items) /\
  (forall ids, search_video_ids items = Some ids -> (length ids <= length items)%nat).
Proof.
  induction items as [|item rest (IH1 & IH2 & IH3)].
  - split; [split|split].
    + intros _. constructor.
    + intros _. cbn. eauto.
    + intros ids [= <-]. reflexivity.
    + intros ids [= <-]. reflexivity.
  - rewrite search_video_ids_cons. unfold readable_item, video_id_of in *.
    cbn [omap list_omap length].
    destruct (si_kind item) as [kind|] eqn:Ek.
    2:{ split; [split|split].
        - intros [? [=]].
        - intros Hf. apply Forall_cons in Hf as [[Hs _] _].
          rewrite Ek in Hs. destruct Hs as [? [=]].
        - intros ids [=].
        - intros ids [=]. }
    destruct (decide (kind = "youtube#video")) as [->|Hk].
    + destruct (decide (Some "youtube#video" = Some "youtube#video")) as [_|N];
        [|contradiction].
      destruct (si_videoId item) as [vid|] eqn:Ev.
      * destruct (search_video_ids rest) as [ids'|]; cbn.
        -- split; [split|split].
           ++ intros _. constructor; [|apply IH1; eauto].
              rewrite Ek, Ev. split; eauto.
           ++ eauto.
           ++ intros ids [= <-]. f_equal. apply IH2. reflexivity.
           ++ intros ids [= <-]. cbn. specialize (IH3 ids' eq_refl). lia.
        -- split; [split|split].
           ++ intros [? [=]].
           ++ intros Hf. apply Forall_cons in Hf as [_ Hf]. apply IH1 in Hf.
              destruct Hf as [? [=]].
           ++ intros ids [=].
           ++ intros ids [=].
      * split; [split|split].
        -- intros [? [=]].
        -- intros Hf. apply Forall_cons in Hf as [[_ Hv] _].
           rewrite Ek, Ev in Hv. destruct (Hv eq_refl) as [? [=]].
        -- intros ids [=].
        -- intros ids [=].
    + destruct (decide (Some kind = Some "youtube#video")) as [[= E]|_];
        [contradiction|].
      split; [split|split].
      * intros Hs. constructor; [|apply IH1, Hs].
        rewrite Ek. split; [eauto | intros [= E]; contradiction].
      * intros Hf. apply Forall_cons in Hf as [_ Hf]. apply IH1, Hf.
      * apply IH2.
      * intros ids Hi. specialize (IH3 ids Hi). lia.
Qed.

End SearchPage.

(** ** Items that do not convert *)

Section Unreadable.
Context (pc : PlatformClient).
Context (py_int : string -> option Z).
Context (isodate_seconds : string -> option Z).

Lemma int_field_none field :
  int_field py_int field = None <-> exists s, field = Some s /\ py_int s = None.
Proof.
  unfold int_field. destruct field as [s|]; split.
  - intros E. exists s. split; [reflexivity | exact E].
  - intros (s' & [= <-] & E). exact E.
  - discriminate.
  - intros (s' & [=] & _).
Qed.

Lemma stats_of_item_none item :
  stats_of_item py_int isodate_seconds item = None <->
  vi_id item = None \/
  exists s,
    (vi_viewCount item = Some s \/ vi_likeCount item = Some s
     \/ vi_commentCount item = Some s) /\
    py_int s = None.
Proof.
  unfold stats_of_item. split.
  - destruct (vi_id item) as [vid|]; [|left; reflexivity]. cbn.
    destruct (int_field py_int (vi_viewCount item)) as [v|] eqn:Ev; cbn.
    2:{ apply int_field_none in Ev as (s & E & N). right. exists s. eauto. }
    destruct (int_field py_int (vi_likeCount item)) as [l|] eqn:El; cbn.
    2:{ apply int_field_none in El as (s & E & N). right. exists s. eauto. }
    destruct (int_field py_int (vi_commentCount item)) as [c|] eqn:Ec; cbn.
    2:{ apply int_field_none in Ec as (s & E & N). right. exists s. eauto. }
    discriminate.
  - intros [E|(s & [E|[E|E]] & N)].
    + rewrite E. reflexivity.
    + destruct (vi_id item); [|reflexivity]. cbn.
      rewrite E. cbn. rewrite N. reflexivity.
    + destruct (vi_id item); [|reflexivity]. cbn.
      destruct (int_field py_int (vi_viewCount item)); [|reflexivity]. cbn.
      rewrite E. cbn. rewrite N. reflexivity.
    + destruct (vi_id item); [|reflexivity]. cbn.
      destruct (int_field py_int (vi_viewCount item)); [|reflexivity]. cbn.
      destruct (int_field py_int (vi_likeCount item)); [|reflexivity]. cbn.
      rewrite E. cbn. rewrite N. reflexivity.
Qed.

Lemma add_stats_none items :
  Exists (unreadable_video py_int isodate_seconds) items ->
  forall stats, add_stats py_int isodate_seconds items stats = None.
Proof.
  unfold unreadable_video.
  induction items as [|item items IH]; intros Hex stats; [inversion Hex|].
  cbn [add_stats].
  destruct (stats_of_item py_int isodate_seconds item) as [[vid data]|] eqn:E;
    [|reflexivity].
  cbn. apply IH. inversion Hex as [? ? Hh|? ? Ht]; subst; [congruence | exact Ht].
Qed.

Lemma stats_loop_unreadable api_key now ids starts :
  Exists (fun i => exists items,
            exec_videos pc now api_key (slice ids i (i + 50)) = Some items /\
            Exists (unreadable_video py_int isodate_seconds) items) starts ->
  forall stats w,
    (stats_loop pc py_int isodate_seconds api_key now ids starts stats w).1 = None.
Proof.
  induction starts as [|i starts IH]; intros Hex stats w.
  - inversion Hex.
  - cbn [stats_loop]. unfold bind at 1, send.
    destruct (exec_videos pc now api_key (slice ids i (i + 50))) as [items|] eqn:He;
      [|reflexivity].
    unfold bind at 1, charge. unfold bind at 1.
    destruct (add_stats py_int isodate_seconds items stats) as [stats1|] eqn:Ea;
      [|reflexivity].
    cbn [lift ret]. apply IH.
    inversion Hex as [? ? (items' & He' & Hbad)|? ? Ht]; subst; [|exact Ht].
    rewrite He in He'. injection He' as <-.
    rewrite (add_stats_none items Hbad stats) in Ea. discriminate.
Qed.

(** One item that does not convert voids the whole lookup.  An item
    converts unless it has no id or one of its three counts is present and
    rejected by [int] (a missing count is 0).  When a batch of a lookup that
    misses the cache is answered with such an item, [fetch_stats] returns
    the empty dictionary, whatever the other items and batches held; when
    it is the first batch, that one request was sent and charged. *)
Theorem fetch_stats_unreadable_item api_key ids now w :
  cache_lookup (cache_stats w) (api_key, ids) now = None ->
  Exists (fun b => exists items,
            exec_videos pc now api_key b = Some items /\
            Exists (unreadable_video py_int isodate_seconds) items) (batches ids) ->
  let run := fetch_stats pc py_int isodate_seconds (api_key, ids) now w in
  run.1 = Some [] /\
  (forall item,
     unreadable_video py_int isodate_seconds item <->
     vi_id item = None \/
     exists s,
       (vi_viewCount item = Some s \/ vi_likeCount item = Some s
        \/ vi_commentCount item = Some s) /\
       py_int s = None) /\
  (forall b rest items,
     batches ids = b :: rest ->
     exec_videos pc now api_key b = Some items ->
     Exists (unreadable_video py_int isodate_seconds) items ->
     requests run.2 = requests w ++ [ReqVideos api_key b] /\
     quota_used run.2 = quota_used w + 1).
Proof.
  intros Hmiss Hex run. split; [|split].
  - subst run. apply cache_data_miss_value; [exact Hmiss|].
    unfold batches in Hex. rewrite Exists_fmap in Hex.
    pose proof (stats_loop_unreadable api_key now ids _ Hex [] w) as E.
    unfold fetch_stats_body, try_except.
    destruct (stats_loop _ _ _ _ _ _ _ _ _) as [[s|] w']; cbn in *;
      [discriminate | reflexivity].
  - intros item. apply stats_of_item_none.
  - intros b rest items Hb He Hbad. subst run. unfold fetch_stats.
    rewrite (cache_data_miss _ _ _ _ _ _ Hmiss).
    unfold fetch_stats_body, try_except.
    unfold batches in Hb.
    destruct (py_range 0 (length ids) 50) as [|i starts]; [discriminate|].
    cbn [map] in Hb. injection Hb as Hb _.
    cbn [stats_loop]. unfold bind, send, charge. rewrite Hb, He.
    rewrite (add_stats_none items Hbad []). cbn. split; reflexivity.
Qed.

End Unreadable.

Lemma fetch_stats_unreadable_item_witness :
  let py_int := fun s : string => if decide (s = "12") then Some 12 else None in
  let pc :=
    {| exec_search := fun _ _ _ => None;
       exec_popular := fun _ _ _ _ _ => None;
       exec_videos := fun _ _ _ =>
         Some [plain_video "a";
               {| vi_id := Some "b"; vi_title := None; vi_channelTitle := None;
                  vi_channelId := None; vi_publishedAt := None; vi_duration := None;
                  vi_viewCount := Some "12"; vi_likeCount := Some "many";
                  vi_commentCount := None; vi_thumbnail := None |}];
       exec_channels := fun _ _ _ => None |} in
  let run := fetch_stats pc py_int no_int ("key", ["a"; "b"]) 0 empty_world in
  run.1 = Some [] /\ quota_used run.2 = 1.
Proof.
  intros py_int pc run.
  assert (Hbad : Exists (unreadable_video py_int no_int)
                   [plain_video "a";
                    {| vi_id := Some "b"; vi_title := None; vi_channelTitle := None;
                       vi_channelId := None; vi_publishedAt := None; vi_duration := None;
                       vi_viewCount := Some "12"; vi_likeCount := Some "many";
                       vi_commentCount := None; vi_thumbnail := None |}])
    by (apply Exists_cons_tl, Exists_cons_hd; reflexivity).
  destruct (fetch_stats_unreadable_item pc py_int no_int "key" ["a"; "b"] 0 empty_world)
    as (E1 & _ & E3).
  - reflexivity.
  - apply Exists_cons_hd. eexists. split; [reflexivity | exact Hbad].
  - split; [exact E1|].
    destruct (E3 ["a"; "b"] [] _ eq_refl eq_refl Hbad) as [_ Q]. exact Q.
Defined.

(** ** The rows built from the statistics *)

Section Rows.
Context (strptime : string -> option Z).
Local Open Scope Q_scope.

Lemma row_velocity_some v h : is_Some (row_velocity v h).
Proof.
  unfold row_velocity.
  assert (P : 0 < Py.max h (1 # 10))
    by (destruct (py_max_spec h (1 # 10)) as [[L ->]|[L ->]]; lra).
  rewrite py_div_some by lra. eauto.
Qed.

Lemma make_row_none now subscribers country vid data :
  strptime (published_at data) = None ->
  make_row strptime now subscribers country vid data = None.
Proof. intros E. unfold make_row. rewrite E. reflexivity. Qed.

Lemma make_row_overflow now subscribers country vid data :
  counts_fit data = false ->
  make_row strptime now subscribers country vid data = None.
Proof.
  intros E. unfold make_row.
  destruct (strptime (published_at data)) as [published|]; [|reflexivity]. cbn.
  destruct (Py.div _ _) as [hours|]; [|reflexivity]. cbn.
  rewrite E. reflexivity.
Qed.

Lemma make_row_some now subscribers country vid data published :
  strptime (published_at data) = Some published ->
  counts_fit data = true ->
  exists row,
    make_row strptime now subscribers country vid data = Some row /\
    r_video_id row = vid /\ row_consistent row.
Proof.
  intros E F. unfold make_row. rewrite E. cbn.
  rewrite py_div_some by discriminate. cbn. rewrite F.
  destruct (row_velocity_some (views data) (inject_Z (now - published) / 3600))
    as [velocity Ev].
  rewrite Ev. cbn. rewrite calc_global_score_eq. cbn.
  eexists. split; [reflexivity|]. split; [reflexivity|].
  split; cbn; [apply calc_global_score_eq | exact Ev].
Qed.

Lemma counts_fit_spec data :
  counts_fit data = true <->
  F64.fits (inject_Z (views data)) /\
  F64.fits (inject_Z (likes data + comments data * 2)
            / inject_Z (Z.max (views data) 1)).
Proof.
  unfold counts_fit. rewrite andb_true_iff, !fitsb_spec. reflexivity.
Qed.

(** The result loop keeps exactly the videos whose publish time parses and
    whose counts fit a float, in the order of the statistics, one row
    each; the others are dropped without a trace.  The counts fit exactly
    when the float arithmetic of lines 407-411 raises nothing, whatever
    the subscribers and the age.  Every row kept shows the numbers its
    score and its velocity were computed from. *)
Theorem make_rows_spec now subscribers country_of
    (stats : list (string * video_stats)) :
  map r_video_id (make_rows strptime now subscribers country_of stats)
  = map fst (filter (kept strptime) stats) /\
  Forall row_consistent (make_rows strptime now subscribers country_of stats) /\
  (forall data channel_subs hours_since,
     counts_fit data = true <->
     (exists v, F64.row_velocity (views data) hours_since = F64.Ok v) /\
     (exists r, F64.calc_global_score (views data) (likes data) (comments data)
                  channel_subs hours_since = F64.Ok r)).
Proof.
  split; [|split].
  - unfold make_rows. induction stats as [|[vid data] stats IH]; [reflexivity|].
    cbn [omap list_omap].
    destruct (strptime (published_at data)) as [published|] eqn:E.
    + destruct (counts_fit data) eqn:F.
      * destruct (make_row_some now subscribers (country_of vid) vid data published E F)
          as (row & -> & Hid & _).
        rewrite filter_cons_True
          by (split; [unfold dated; cbn; rewrite E; eauto | exact F]).
        cbn. rewrite Hid. f_equal. exact IH.
      * rewrite (make_row_overflow now subscribers (country_of vid) vid data F).
        rewrite filter_cons_False by (intros [_ C]; cbn in C; congruence).
        exact IH.
    + rewrite (make_row_none now subscribers (country_of vid) vid data E).
      rewrite filter_cons_False
        by (intros [C _]; unfold dated in C; cbn in C; rewrite E in C;
            destruct C as [? [=]]).
      exact IH.
  - unfold make_rows. induction stats as [|[vid data] stats IH]; [constructor|].
    cbn [omap list_omap].
    destruct (strptime (published_at data)) as [published|] eqn:E.
    + destruct (counts_fit data) eqn:F.
      * destruct (make_row_some now subscribers (country_of vid) vid data published E F)
          as (row & -> & _ & Hc).
        constructor; assumption.
      * rewrite (make_row_overflow now subscribers (country_of vid) vid data F).
        exact IH.
    + rewrite (make_row_none now subscribers (country_of vid) vid data E). exact IH.
  - intros data channel_subs hours_since. rewrite counts_fit_spec.
    apply float_score_returns.
Qed.

End Rows.

(** ** Country names, formats and the exported table *)

Section ExportNames.

Lemma dict_of_pairs_snoc pairs p :
  dict_of_pairs (pairs ++ [p]) = <[p.1 := p.2]> (dict_of_pairs pairs).
Proof. unfold dict_of_pairs. rewrite foldl_app. reflexivity. Qed.

(** Looking up a key of a table whose keys are distinct gives its value. *)
Lemma dict_of_pairs_lookup pairs k v :
  NoDup (map fst pairs) -> (k, v) ∈ pairs -> dict_of_pairs pairs !! k = Some v.
Proof.
  induction pairs as [|p pairs IH] using rev_ind; intros Hnd Hin; [inversion Hin|].
  rewrite dict_of_pairs_snoc. rewrite map_app in Hnd.
  apply NoDup_app in Hnd as (Hnd & Hdis & _).
  apply elem_of_app in Hin as [Hin|Hin].
  - rewrite lookup_insert_ne; [apply IH; assumption|].
    intros <-. apply (Hdis p.1); [|cbn; left].
    apply list_elem_of_fmap. exists (p.1, v). split; [reflexivity | exact Hin].
  - apply list_elem_of_singleton in Hin. subst p. apply lookup_insert_eq.
Qed.

Lemma dict_of_pairs_missing pairs k :
  k ∉ map fst pairs -> dict_of_pairs pairs !! k = None.
Proof.
  induction pairs as [|p pairs IH] using rev_ind; intros Hn; [apply lookup_empty|].
  rewrite dict_of_pairs_snoc. rewrite map_app in Hn.
  apply not_elem_of_app in Hn as [Hn Hp].
  rewrite lookup_insert_ne; [apply IH, Hn|].
  intros E. apply Hp. cbn. rewrite E. left.
Qed.

Lemma country_codes_distinct : NoDup (map fst GLOBAL_TOP_COUNTRIES).
Proof.
  apply (bool_decide_unpack (NoDup (map fst GLOBAL_TOP_COUNTRIES))).
  vm_compute. exact I.
Qed.

(** The name shown for a search country: each of the 20 codes gives the
    name listed with it, and any other code, such as GLOBAL of a world-wide
    keyword search or UNKNOWN, is shown as it is. *)
Theorem country_name_spec :
  (forall code name, (code, name) ∈ GLOBAL_TOP_COUNTRIES -> country_name code = name) /\
  (forall code, code ∉ map fst GLOBAL_TOP_COUNTRIES -> country_name code = code).
Proof.
  split.
  - intros code name Hin. unfold country_name, COUNTRY_CODE_TO_NAME.
    rewrite (dict_of_pairs_lookup _ code name country_codes_distinct Hin). reflexivity.
  - intros code Hn. unfold country_name, COUNTRY_CODE_TO_NAME.
    rewrite (dict_of_pairs_missing _ code Hn). reflexivity.
Qed.

End ExportNames.

(** ** The sorted list *)

Section SortOrder.
Local Open Scope Q_scope.

Lemma Sorted_weaken {A} (R R' : A -> A -> Prop) l :
  (forall a b, R a b -> R' a b) -> Sorted R l -> Sorted R' l.
Proof.
  intros Hi Hs. induction Hs as [|x l Hs IH Hh]; constructor; [exact IH|].
  destruct Hh; constructor. apply Hi. assumption.
Qed.

Lemma Qltb_false a b : Qltb a b = false <-> b <= a.
Proof.
  unfold Qltb. rewrite negb_false_iff. apply Qle_bool_iff.
Qed.

Lemma Qltb_asym a b : Qltb a b = true -> Qltb b a = false.
Proof.
  unfold Qltb. rewrite negb_true_iff. intros E. apply Qltb_false.
  destruct (Qlt_le_dec b a) as [L|L]; [|exact L].
  apply Qlt_le_weak, Qle_bool_iff in L. congruence.
Qed.

(** Whatever the sort entry, the displayed list has the same rows as the
    stored one, none lost and none repeated.  Under the score entry the
    scores never increase down the list, under the views entry the views
    never increase, and under the upload entry the ages never decrease. *)
Theorem sort_results_ordered sort_option rows :
  sort_results sort_option rows ≡ₚ rows /\
  Sorted (fun a b => r_score b <= r_score a) (sort_results SORT_SCORE rows) /\
  Sorted (fun a b => (r_views b <= r_views a)%Z) (sort_results SORT_VIEWS rows) /\
  Sorted (fun a b => r_hours_since a <= r_hours_since b) (sort_results SORT_UPLOAD rows).
Proof.
  split; [|split; [|split]].
  - unfold sort_results.
    destruct (py_in "떡상점수" sort_option); [apply py_sort_perm|].
    destruct (py_in "조회수" sort_option); [apply py_sort_perm|].
    destruct (py_in "시간당" sort_option); [apply py_sort_perm|].
    destruct (py_in "업로드" sort_option); [apply py_sort_perm | reflexivity].
  - rewrite sort_results_score.
    apply (Sorted_weaken (fun a b => by_score_desc b a = false)).
    + intros a b. unfold by_score_desc. apply Qltb_false.
    + apply py_sort_sorted. intros a b. apply Qltb_asym.
  - rewrite sort_results_views.
    apply (Sorted_weaken (fun a b => by_views_desc b a = false)).
    + intros a b. unfold by_views_desc. intros E. apply Z.ltb_ge in E. exact E.
    + apply py_sort_sorted. intros a b. unfold by_views_desc.
      intros E. apply Z.ltb_lt in E. apply Z.ltb_ge. lia.
  - rewrite sort_results_upload.
    apply (Sorted_weaken (fun a b => by_hours_asc b a = false)).
    + intros a b. unfold by_hours_asc. apply Qltb_false.
    + apply py_sort_sorted. intros a b. apply Qltb_asym.
Qed.

End SortOrder.

(** ** Durations *)

Section Durations.
Context (py_int : string -> option Z).
Context (isodate_seconds : string -> option Z).

(** A video is labelled Shorts exactly when its duration is at most 180
    seconds.  A duration that does not parse is stored as 0, so such a
    video is labelled Shorts. *)
Theorem unparsed_duration_is_shorts item vid data :
  stats_of_item py_int isodate_seconds item = Some (vid, data) ->
  isodate_seconds (default "PT0S" (vi_duration item)) = None ->
  duration data = 0 /\
  format_text (duration data) = "Shorts" /\
  (forall d, format_text d = "Shorts" <-> d <= 180).
Proof.
  intros Hs Hd. unfold stats_of_item in Hs.
  destruct (vi_id item) as [vid'|]; [|discriminate]. cbn in Hs.
  destruct (int_field py_int (vi_viewCount item)); [|discriminate]. cbn in Hs.
  destruct (int_field py_int (vi_likeCount item)); [|discriminate]. cbn in Hs.
  destruct (int_field py_int (vi_commentCount item)); [|discriminate]. cbn in Hs.
  injection Hs as <- <-. cbn [duration]. unfold parse_duration. rewrite Hd.
  split; [reflexivity|]. split; [reflexivity|].
  intros d. unfold format_text, SHORTS_DURATION_LIMIT.
  destruct (d <=? 180) eqn:E.
  - apply Z.leb_le in E. split; [intros _; exact E | reflexivity].
  - apply Z.leb_gt in E. split; [discriminate | lia].
Qed.

End Durations.

Lemma unparsed_duration_is_shorts_witness :
  let item :=
    {| vi_id := Some "a"; vi_title := None; vi_channelTitle := None;
       vi_channelId := None; vi_publishedAt := None; vi_duration := Some "soon";
       vi_viewCount := None; vi_likeCount := None; vi_commentCount := None;
       vi_thumbnail := None |} in
  exists data,
    stats_of_item no_int no_int item = Some ("a", data) /\
    duration data = 0 /\ format_text (duration data) = "Shorts".
Proof.
  intros item. eexists. split; [reflexivity|].
  destruct (unparsed_duration_is_shorts no_int no_int item "a" _ eq_refl eq_refl)
    as (E1 & E2 & _).
  split; [exact E1 | exact E2].
Defined.

(** ** What the requests cost *)

Section Accounting.
Context (pc : PlatformClient).
Context (py_int : string -> option Z).
Context (isodate_seconds : string -> option Z).
Context (strptime : string -> option Z).

Lemma cost_of_app rqs1 rqs2 : cost_of (rqs1 ++ rqs2) = cost_of rqs1 + cost_of rqs2.
Proof.
  unfold cost_of. induction rqs1 as [|rq rqs1 IH]; cbn; [reflexivity|].
  rewrite IH. lia.
Qed.

Lemma request_cost_nonneg rq : 0 <= request_cost rq.
Proof. destruct rq; cbn; lia. Qed.

Lemma cost_of_nonneg rqs : 0 <= cost_of rqs.
Proof.
  unfold cost_of. induction rqs as [|rq rqs IH]; cbn; [lia|].
  pose proof (request_cost_nonneg rq). lia.
Qed.

Lemma accounted_ret {A} (x : A) : accounted (ret x).
Proof. intros w. exists []. cbn. rewrite app_nil_r. split; [reflexivity | lia]. Qed.

Lemma accounted_raise {A} : accounted (@raise A).
Proof. intros w. exists []. cbn. rewrite app_nil_r. split; [reflexivity | lia]. Qed.

Lemma accounted_lift {A} (o : option A) : accounted (lift o).
Proof. destruct o; [apply accounted_ret | apply accounted_raise]. Qed.

Lemma accounted_bind {A B} (m : M A) (f : A -> M B) :
  accounted m -> (forall x, accounted (f x)) -> accounted (bind m f).
Proof.
  intros Hm Hf w. unfold bind. destruct (Hm w) as (rqs1 & E1 & Q1).
  destruct (m w) as [[x|] w1]; cbn in *.
  - destruct (Hf x w1) as (rqs2 & E2 & Q2).
    exists (rqs1 ++ rqs2). rewrite E2, E1, <- app_assoc, cost_of_app.
    split; [reflexivity | lia].
  - exists rqs1. split; [exact E1 | exact Q1].
Qed.

Lemma accounted_try_except {A} (m : M A) h : accounted m -> accounted (try_except m h).
Proof.
  intros Hm w. unfold try_except. destruct (Hm w) as (rqs & E & Q).
  destruct (m w) as [[x|] w1]; exists rqs; split; assumption.
Qed.

(** A request followed by its charge. *)
Lemma accounted_call {A B} rq (answer : option A) kind (f : A -> M B) :
  request_cost rq = QUOTA_COSTS kind ->
  (forall x, accounted (f x)) ->
  accounted (bind (send rq answer) (fun x => bind (charge kind) (fun _ => f x))).
Proof.
  intros Hc Hf w. unfold bind, send, charge.
  destruct answer as [x|].
  - destruct (Hf x (set_quota_used
                      (quota_used (set_requests (requests w ++ [rq]) w) + QUOTA_COSTS kind)
                      (set_requests (requests w ++ [rq]) w))) as (rqs & E & Q).
    exists (rq :: rqs). rewrite E.
    cbn [fst snd requests quota_used set_quota_used set_requests] in *.
    rewrite <- app_assoc.
    split; [reflexivity|]. change (cost_of (rq :: rqs)) with (request_cost rq + cost_of rqs).
    pose proof (request_cost_nonneg rq). lia.
  - exists [rq]. cbn. split; [reflexivity|].
    pose proof (request_cost_nonneg rq). lia.
Qed.

Lemma accounted_cache_data {K V} `{Countable K}
    (get : world -> gmap K (Z * V)) set (body : K -> Z -> M V) k now :
  (forall c w, quota_used (set c w) = quota_used w) ->
  (forall c w, requests (set c w) = requests w) ->
  accounted (body k now) -> accounted (cache_data get set body k now).
Proof.
  intros Hq Hr Hb w. unfold cache_data.
  destruct (cache_lookup (get w) k now).
  - exists []. cbn. rewrite app_nil_r. split; [reflexivity | lia].
  - destruct (Hb w) as (rqs & E & Q).
    destruct (body k now w) as [[v|] w1]; cbn in *; exists rqs.
    + rewrite Hq, Hr. split; assumption.
    + split; assumption.
Qed.

Lemma accounted_keyword_body args now :
  accounted (fetch_videos_by_keyword_body pc args now).
Proof.
  destruct args as [[api_key keyword] region_code]. intros w.
  fold (keyword_params keyword region_code now).
  unfold fetch_videos_by_keyword_body, try_except, bind, send.
  fold (keyword_params keyword region_code now).
  exists [ReqSearch api_key (keyword_params keyword region_code now)].
  destruct (exec_search pc now api_key (keyword_params keyword region_code now))
    as [items|]; cbn.
  - destruct (search_video_ids items); cbn; split; try reflexivity; lia.
  - split; [reflexivity | lia].
Qed.

Lemma accounted_category_body args now :
  accounted (fetch_category_videos_body pc args now).
Proof.
  destruct args as [[api_key category_id] region_code]. intros w.
  unfold fetch_category_videos_body, try_except, bind, send.
  exists [ReqPopular api_key region_code category_id 5].
  destruct (exec_popular pc now api_key region_code category_id 5) as [items|]; cbn.
  - destruct (mapM vi_id items); cbn; split; try reflexivity; lia.
  - split; [reflexivity | lia].
Qed.

Lemma accounted_stats_loop api_key now ids starts stats :
  accounted (stats_loop pc py_int isodate_seconds api_key now ids starts stats).
Proof.
  revert stats. induction starts as [|i starts IH]; intros stats; cbn [stats_loop].
  - apply accounted_ret.
  - apply accounted_call; [reflexivity|]. intros items.
    apply accounted_bind; [apply accounted_lift | exact IH].
Qed.

Lemma accounted_subscribers_loop api_key now ids starts subscribers :
  accounted (subscribers_loop pc py_int api_key now ids starts subscribers).
Proof.
  revert subscribers. induction starts as [|i starts IH]; intros subscribers;
    cbn [subscribers_loop].
  - apply accounted_ret.
  - apply accounted_call; [reflexivity|]. intros items.
    apply accounted_bind; [apply accounted_lift | exact IH].
Qed.

Lemma accounted_fetchers :
  (forall args now, accounted (fetch_videos_by_keyword pc args now)) /\
  (forall args now, accounted (fetch_category_videos pc args now)) /\
  (forall args now, accounted (fetch_stats pc py_int isodate_seconds args now)) /\
  (forall args now, accounted (fetch_subscriber_counts pc py_int args now)).
Proof.
  repeat split; intros args now.
  - apply accounted_cache_data; [reflexivity | reflexivity | apply accounted_keyword_body].
  - apply accounted_cache_data; [reflexivity | reflexivity | apply accounted_category_body].
  - apply accounted_cache_data; [reflexivity | reflexivity |].
    destruct args as [api_key ids]. apply accounted_try_except, accounted_stats_loop.
  - apply accounted_cache_data; [reflexivity | reflexivity |].
    destruct args as [api_key ids]. apply accounted_try_except, accounted_subscribers_loop.
Qed.

Lemma accounted_enrich api_key now ids country_of :
  accounted (enrich pc py_int isodate_seconds strptime api_key now ids country_of).
Proof.
  destruct accounted_fetchers as (_ & _ & Hs & Hu).
  unfold enrich. apply accounted_bind; [apply Hs|]. intros stats.
  apply accounted_bind; [apply Hu|]. intros subscribers w.
  exists []. cbn. rewrite app_nil_r. split; [reflexivity | lia].
Qed.

Lemma accounted_sweep api_key category_id now countries acc :
  accounted (sweep pc api_key category_id now countries acc).
Proof.
  destruct accounted_fetchers as (_ & Hc & _ & _).
  revert acc. induction countries as [|[code name] rest IH]; intros acc; cbn [sweep].
  - apply accounted_ret.
  - apply accounted_bind; [apply Hc | intros fetched; apply IH].
Qed.

Lemma accounted_run_op op now :
  is_reset op = false ->
  accounted (fun w => (Some tt, run_op pc py_int isodate_seconds strptime op now w)).
Proof.
  destruct accounted_fetchers as (Hk & Hc & Hs & Hu).
  intros Hr w. cbn [fst snd]. destruct op; cbn [run_op]; try discriminate.
  - apply Hk.
  - apply Hc.
  - apply Hs.
  - apply Hu.
  - unfold keyword_search.
    destruct (decide (api_key = "")); [apply accounted_ret|].
    destruct (decide (keyword = "")); [apply accounted_ret|].
    apply accounted_bind; [apply Hk|].
    intros [|v ids]; [apply accounted_ret | apply accounted_enrich].
  - unfold category_search.
    destruct (decide (api_key = "")); [apply accounted_ret|].
    apply accounted_bind; [apply accounted_sweep|].
    intros [[|v all] m]; [apply accounted_ret | apply accounted_enrich].
Qed.

End Accounting.

(** Every unit on the quota counter is backed by a request: a fetcher or a
    search raises the counter by at most the weights of the requests it
    sent (100 for a search request, 1 for any other), and by nothing when
    it sent none. *)
Theorem quota_backed_by_requests (pc : PlatformClient)
    (py_int isodate_seconds strptime : string -> option Z)
    (op : operation) (now : Z) (w : world) :
  is_reset op = false ->
  let w' := run_op pc py_int isodate_seconds strptime op now w in
  exists rqs,
    requests w' = requests w ++ rqs /\
    quota_used w <= quota_used w' <= quota_used w + cost_of rqs /\
    (rqs = [] -> quota_used w' = quota_used w).
Proof.
  intros Hr w'.
  destruct (accounted_run_op pc py_int isodate_seconds strptime op now Hr w)
    as (rqs & E & Q).
  exists rqs. cbn in E, Q. split; [exact E|]. split; [exact Q|].
  intros ->. cbn in Q. subst w'. lia.
Qed.

Lemma quota_backed_by_requests_witness :
  let w' := run_op pc_demo no_int no_int no_int (OpKeywordSearch "key" "cats" "GLOBAL")
              0 empty_world in
  exists rqs,
    requests w' = requests empty_world ++ rqs /\
    quota_used empty_world <= quota_used w' <= quota_used empty_world + cost_of rqs /\
    (rqs = [] -> quota_used w' = quota_used empty_world).
Proof.
  apply (quota_backed_by_requests pc_demo no_int no_int no_int
           (OpKeywordSearch "key" "cats" "GLOBAL") 0 empty_world).
  reflexivity.
Defined.

(** ** What a fetcher leaves alone *)

Section Frames.
Context (pc : PlatformClient).
Context (py_int : string -> option Z).
Context (isodate_seconds : string -> option Z).

Lemma touch_id w : touch (quota_used w) (requests w) w = w.
Proof. destruct w. reflexivity. Qed.

Lemma frames_ret {A} (x : A) : frames (ret x).
Proof. intros w. exists (quota_used w), (requests w). cbn. symmetry. apply touch_id. Qed.

Lemma frames_raise {A} : frames (@raise A).
Proof. intros w. exists (quota_used w), (requests w). cbn. symmetry. apply touch_id. Qed.

Lemma frames_lift {A} (o : option A) : frames (lift o).
Proof. destruct o; [apply frames_ret | apply frames_raise]. Qed.

Lemma frames_charge kind : frames (charge kind).
Proof.
  intros w. exists (quota_used w + QUOTA_COSTS kind), (requests w).
  destruct w. reflexivity.
Qed.

Lemma frames_send {A} rq (answer : option A) : frames (send rq answer).
Proof.
  intros w. exists (quota_used w), (requests w ++ [rq]).
  unfold send. destruct answer; destruct w; reflexivity.
Qed.

Lemma frames_bind {A B} (m : M A) (f : A -> M B) :
  frames m -> (forall x, frames (f x)) -> frames (bind m f).
Proof.
  intros Hm Hf w. unfold bind. destruct (Hm w) as (q1 & r1 & E1).
  destruct (m w) as [[x|] w1]; cbn in *; subst w1.
  - destruct (Hf x (touch q1 r1 w)) as (q2 & r2 & E2).
    exists q2, r2. rewrite E2. reflexivity.
  - exists q1, r1. reflexivity.
Qed.

Lemma frames_try_except {A} (m : M A) h : frames m -> frames (try_except m h).
Proof.
  intros Hm w. unfold try_except. destruct (Hm w) as (q & r & E).
  destruct (m w) as [[x|] w1]; cbn in *; exists q, r; exact E.
Qed.

Lemma frames_bodies :
  (forall args now, frames (fetch_videos_by_keyword_body pc args now)) /\
  (forall args now, frames (fetch_category_videos_body pc args now)) /\
  (forall args now, frames (fetch_stats_body pc py_int isodate_seconds args now)) /\
  (forall args now, frames (fetch_subscriber_counts_body pc py_int args now)).
Proof.
  repeat split.
  - intros [[api_key keyword] region_code] now. unfold fetch_videos_by_keyword_body.
    apply frames_try_except, frames_bind; [apply frames_send|]. intros items.
    apply frames_bind; [apply frames_lift|]. intros ids.
    apply frames_bind; [apply frames_charge | intros _; apply frames_ret].
  - intros [[api_key category_id] region_code] now. unfold fetch_category_videos_body.
    apply frames_try_except, frames_bind; [apply frames_send|]. intros items.
    apply frames_bind; [apply frames_lift|]. intros ids.
    apply frames_bind; [apply frames_charge | intros _; apply frames_ret].
  - intros [api_key ids] now. unfold fetch_stats_body. apply frames_try_except.
    generalize (@nil (string * video_stats)).
    induction (py_range 0 (length ids) 50) as [|i starts IH]; intros stats;
      cbn [stats_loop]; [apply frames_ret|].
    apply frames_bind; [apply frames_send|]. intros items.
    apply frames_bind; [apply frames_charge|]. intros _.
    apply frames_bind; [apply frames_lift | exact IH].
  - intros [api_key ids] now. unfold fetch_subscriber_counts_body.
    apply frames_try_except.
    generalize (∅ : gmap string Z).
    induction (py_range 0 (length (distinct_ids ids)) 50) as [|i starts IH];
      intros subscribers; cbn [subscribers_loop]; [apply frames_ret|].
    apply frames_bind; [apply frames_send|]. intros items.
    apply frames_bind; [apply frames_charge|]. intros _.
    apply frames_bind; [apply frames_lift | exact IH].
Qed.

Lemma cache_data_keeps_others {K V} `{Countable K}
    (get : world -> gmap K (Z * V)) set (body : K -> Z -> M V) k now w :
  (forall c w, get (set c w) = c) ->
  (forall c w, results (set c w) = results w) ->
  (forall q r w, get (touch q r w) = get w) ->
  frames (body k now) ->
  keeps_others get k w (cache_data get set body k now w).2.
Proof.
  intros Hgs Hrs Hgt Hb. unfold cache_data.
  destruct (cache_lookup (get w) k now); [split; reflexivity|].
  destruct (Hb w) as (q & r & E).
  destruct (body k now w) as [[v|] w1]; cbn in *; subst w1.
  - split.
    + intros k' Hne. rewrite Hgs, Hgt. apply lookup_insert_ne. congruence.
    + rewrite Hrs. reflexivity.
  - split; [intros k' _; rewrite Hgt|]; reflexivity.
Qed.

Lemma cache_data_other_field {K V F} `{Countable K}
    (get : world -> gmap K (Z * V)) set (body : K -> Z -> M V) k now w
    (field : world -> F) :
  (forall c w, field (set c w) = field w) ->
  (forall q r w, field (touch q r w) = field w) ->
  frames (body k now) ->
  field (cache_data get set body k now w).2 = field w.
Proof.
  intros Hs Ht Hb. unfold cache_data.
  destruct (cache_lookup (get w) k now); [reflexivity|].
  destruct (Hb w) as (q & r & E).
  destruct (body k now w) as [[v|] w1]; cbn in *; subst w1.
  - rewrite Hs. apply Ht.
  - apply Ht.
Qed.

(** Only the entry of the call is written: a fetcher leaves the entries
    stored under any other arguments (another key, keyword, region or id
    list) as they were, and never touches the results or the stores of the
    other three fetchers. *)
Theorem fetchers_keep_other_entries now w :
  (forall k,
     let w' := (fetch_videos_by_keyword pc k now w).2 in
     keeps_others cache_keyword k w w' /\
     cache_category w' = cache_category w /\ cache_stats w' = cache_stats w /\
     cache_subscribers w' = cache_subscribers w) /\
  (forall k,
     let w' := (fetch_category_videos pc k now w).2 in
     keeps_others cache_category k w w' /\
     cache_keyword w' = cache_keyword w /\ cache_stats w' = cache_stats w /\
     cache_subscribers w' = cache_subscribers w) /\
  (forall k,
     let w' := (fetch_stats pc py_int isodate_seconds k now w).2 in
     keeps_others cache_stats k w w' /\
     cache_keyword w' = cache_keyword w /\ cache_category w' = cache_category w /\
     cache_subscribers w' = cache_subscribers w) /\
  (forall k,
     let w' := (fetch_subscriber_counts pc py_int k now w).2 in
     keeps_others cache_subscribers k w w' /\
     cache_keyword w' = cache_keyword w /\ cache_category w' = cache_category w /\
     cache_stats w' = cache_stats w).
Proof.
  destruct frames_bodies as (Fk & Fc & Fs & Fu).
  split; [|split; [|split]]; intros k w'; subst w'.
  - split; [apply cache_data_keeps_others; try reflexivity; apply Fk|].
    unfold fetch_videos_by_keyword.
    repeat split; apply cache_data_other_field; try reflexivity; apply Fk.
  - split; [apply cache_data_keeps_others; try reflexivity; apply Fc|].
    unfold fetch_category_videos.
    repeat split; apply cache_data_other_field; try reflexivity; apply Fc.
  - split; [apply cache_data_keeps_others; try reflexivity; apply Fs|].
    unfold fetch_stats.
    repeat split; apply cache_data_other_field; try reflexivity; apply Fs.
  - split; [apply cache_data_keeps_others; try reflexivity; apply Fu|].
    unfold fetch_subscriber_counts.
    repeat split; apply cache_data_other_field; try reflexivity; apply Fu.
Qed.

End Frames.

(** ** The reset button and the caches *)

Section ResetAndCache.
Context (pc : PlatformClient).
Context (py_int : string -> option Z).
Context (isodate_seconds : string -> option Z).

Lemma call_reset_call_cached {K V} `{Countable K}
    (get : world -> gmap K (Z * V)) set (body : K -> Z -> M V) k t1 t2 w :
  cache_contract get set body (cache_data get set body) ->
  oblivious (cache_data get set body k t2) ->
  cache_lookup (get w) k t1 = None ->
  t2 < t1 + CACHE_TTL ->
  exists v w1,
    cache_data get set body k t1 w = (Some v, w1) /\
    call_reset_call (cache_data get set body) k t1 t2 w
    = (Some v, Some v, set_quota_used 0 w1).
Proof.
  intros Hc Ho Hmiss Ht.
  destruct (Hc k t1 w Hmiss) as (v & w' & _ & E1 & _ & _ & Hhit & _).
  eexists v, _. split; [exact E1|].
  unfold call_reset_call. rewrite E1. cbn [fst snd reset_quota].
  rewrite Ho, (Hhit t2 Ht). cbn [fst snd].
  rewrite Z.sub_diag. reflexivity.
Qed.

(** Resetting the counter does not empty the caches: when a call found no
    live entry, the counter is reset, and the same call is made again
    within the hour, the second call returns the value of the first, sends
    nothing and leaves the counter at 0.  This holds for each of the four
    fetchers. *)
Theorem reset_keeps_cache t1 t2 :
  t2 < t1 + CACHE_TTL ->
  (forall k w,
     cache_lookup (cache_keyword w) k t1 = None ->
     exists v w1,
       fetch_videos_by_keyword pc k t1 w = (Some v, w1) /\
       call_reset_call (fetch_videos_by_keyword pc) k t1 t2 w
       = (Some v, Some v, set_quota_used 0 w1)) /\
  (forall k w,
     cache_lookup (cache_category w) k t1 = None ->
     exists v w1,
       fetch_category_videos pc k t1 w = (Some v, w1) /\
       call_reset_call (fetch_category_videos pc) k t1 t2 w
       = (Some v, Some v, set_quota_used 0 w1)) /\
  (forall k w,
     cache_lookup (cache_stats w) k t1 = None ->
     exists v w1,
       fetch_stats pc py_int isodate_seconds k t1 w = (Some v, w1) /\
       call_reset_call (fetch_stats pc py_int isodate_seconds) k t1 t2 w
       = (Some v, Some v, set_quota_used 0 w1)) /\
  (forall k w,
     cache_lookup (cache_subscribers w) k t1 = None ->
     exists v w1,
       fetch_subscriber_counts pc py_int k t1 w = (Some v, w1) /\
       call_reset_call (fetch_subscriber_counts pc py_int) k t1 t2 w
       = (Some v, Some v, set_quota_used 0 w1)).
Proof.
  intros Ht. split; [|split; [|split]]; intros k w Hmiss.
  - apply call_reset_call_cached; try assumption.
    + apply cache_data_contract; try reflexivity. intros k' t. apply keyword_body_props.
    + apply fetch_videos_by_keyword_props.
  - apply call_reset_call_cached; try assumption.
    + apply cache_data_contract; try reflexivity. intros k' t. apply category_body_props.
    + apply fetch_category_videos_props.
  - apply call_reset_call_cached; try assumption.
    + apply cache_data_contract; try reflexivity. intros k' t. apply stats_body_props.
    + apply (fetch_stats_props pc py_int isodate_seconds).
  - apply call_reset_call_cached; try assumption.
    + apply cache_data_contract; try reflexivity. intros k' t.
      apply subscribers_body_props.
    + apply (fetch_subscriber_counts_props pc py_int).
Qed.

End ResetAndCache.

Lemma reset_keeps_cache_witness :
  exists v w1,
    fetch_videos_by_keyword pc_demo ("key", "cats", None) 0 empty_world = (Some v, w1) /\
    call_reset_call (fetch_videos_by_keyword pc_demo) ("key", "cats", None) 0 1800
      empty_world
    = (Some v, Some v, set_quota_used 0 w1).
Proof.
  apply (proj1 (reset_keeps_cache pc_demo no_int no_int 0 1800 eq_refl)).
  reflexivity.
Defined.

(** ** Channels are looked up once *)

Section Channels.
Context (pc : PlatformClient).
Context (py_int : string -> option Z).

Lemma subscribers_loop_sent api_key now ids starts subscribers w :
  exists n,
    requests (subscribers_loop pc py_int api_key now ids starts subscribers w).2
    = requests w
      ++ map (fun i => ReqChannels api_key (slice ids i (i + 50))) (take n starts).
Proof.
  revert subscribers w. induction starts as [|i starts IH]; intros subscribers w.
  - exists 0%nat. cbn. rewrite app_nil_r. reflexivity.
  - cbn [subscribers_loop]. unfold bind at 1, send.
    destruct (exec_channels pc now api_key (slice ids i (i + 50))) as [items|].
    + unfold bind at 1, charge. unfold bind at 1.
      destruct (add_subscribers py_int items subscribers) as [subs1|];
        cbn [lift ret raise].
      * destruct (IH subs1 (set_quota_used
          (quota_used (set_requests (requests w ++ [ReqChannels api_key (slice ids i (i + 50))]) w)
           + QUOTA_COSTS Kchannels)
          (set_requests (requests w ++ [ReqChannels api_key (slice ids i (i + 50))]) w)))
          as [n ->].
        exists (S n). cbn. rewrite <- app_assoc. reflexivity.
      * exists 1%nat. cbn. rewrite take_0. reflexivity.
    + exists 1%nat. cbn. rewrite take_0. reflexivity.
Qed.

Lemma distinct_ids_spec ids :
  NoDup (distinct_ids ids) /\ forall c, c ∈ distinct_ids ids <-> c ∈ ids.
Proof.
  unfold distinct_ids. split; [apply NoDup_elements|].
  intros c. rewrite elem_of_elements, elem_of_list_to_set. reflexivity.
Qed.

(** The channel ids sent by one call are pairwise distinct and all come
    from the input, however often an id occurs in it; on a cache miss with
    every batch answered, each id of the input is sent in exactly one
    request, and the counter rises by the number of batches of the
    distinct ids. *)
Theorem fetch_subscriber_counts_once api_key ids now w :
  let w' := (fetch_subscriber_counts pc py_int (api_key, ids) now w).2 in
  exists sent,
    requests w' = requests w ++ map (ReqChannels api_key) sent /\
    NoDup (concat sent) /\
    (forall c, c ∈ concat sent -> c ∈ ids) /\
    (cache_lookup (cache_subscribers w) (api_key, ids) now = None ->
     Forall (channels_answered pc py_int api_key now) (batches (distinct_ids ids)) ->
     (forall c, c ∈ ids -> c ∈ concat sent) /\
     quota_used w'
     = quota_used w + Z.of_nat ((length (distinct_ids ids) + 49) / 50)).
Proof.
  intros w'. destruct (distinct_ids_spec ids) as [Hnd Hel].
  assert (Hpre : forall n,
            NoDup (concat (take n (batches (distinct_ids ids)))) /\
            forall c, c ∈ concat (take n (batches (distinct_ids ids))) -> c ∈ ids).
  { intros n.
    pose proof (batches_concat (distinct_ids ids)) as Hc.
    rewrite <- (take_drop n (batches (distinct_ids ids))), concat_app in Hc.
    rewrite <- Hc in Hnd. apply NoDup_app in Hnd as (Hnd1 & _ & _).
    split; [exact Hnd1|]. intros c Hin. apply Hel. rewrite <- Hc.
    apply elem_of_app. left. exact Hin. }
  subst w'. unfold fetch_subscriber_counts.
  destruct (cache_lookup (cache_subscribers w) (api_key, ids) now) as [v|] eqn:Hl.
  - exists []. rewrite (cache_data_hit _ _ _ _ _ _ _ Hl). cbn.
    rewrite app_nil_r. split; [reflexivity|]. split; [constructor|].
    split; [intros c Hin; inversion Hin | discriminate].
  - rewrite (cache_data_miss _ _ _ _ _ _ Hl).
    destruct (subscribers_loop_sent api_key now (distinct_ids ids)
                (py_range 0 (length (distinct_ids ids)) 50) ∅ w) as [n En].
    exists (take n (batches (distinct_ids ids))).
    destruct (Hpre n) as [Hn1 Hn2].
    split; [|split; [exact Hn1 | split; [exact Hn2|]]].
    + unfold fetch_subscriber_counts_body, try_except.
      unfold batches. rewrite <- fmap_take, map_map.
      destruct (subscribers_loop _ _ _ _ _ _ _ _) as [[s|] w1]; exact En.
    + intros _ Ha.
      destruct (fetch_subscriber_counts_body_ok pc py_int api_key ids now w Ha)
        as [subs Eb].
      rewrite Eb in *. cbn [snd requests quota_used touch set_requests set_quota_used] in *.
      unfold fetch_subscriber_counts_body, try_except in En.
      assert (Esent : take n (batches (distinct_ids ids)) = batches (distinct_ids ids)).
      { pose proof (subscribers_loop_ok pc py_int api_key now (distinct_ids ids)
                      (py_range 0 (length (distinct_ids ids)) 50)) as Hok.
        unfold batches in Ha. rewrite Forall_fmap in Ha.
        destruct (Hok Ha ∅ w) as [subs' Eloop]. rewrite Eloop in En.
        cbn [snd requests touch set_requests set_quota_used] in En.
        apply app_inv_head in En.
        assert (Hlen : length (py_range 0 (length (distinct_ids ids)) 50)
                       = length (take n (py_range 0 (length (distinct_ids ids)) 50)))
          by (rewrite <- (length_map (fun i => ReqChannels api_key
                 (slice (distinct_ids ids) i (i + 50)))), En, length_map; reflexivity).
        unfold batches. rewrite <- fmap_take. f_equal.
        rewrite length_take in Hlen. apply take_ge. lia. }
      rewrite Esent, batches_concat, batches_length. split.
      * intros c Hin. apply Hel. exact Hin.
      * cbn. lia.
Qed.

End Channels.

(** ** The requests of a category search *)

Section CategoryRequests.
Context (pc : PlatformClient).
Context (py_int : string -> option Z).
Context (isodate_seconds : string -> option Z).
Context (strptime : string -> option Z).

Lemma fetch_category_videos_requests api_key category_id code now w :
  requests (fetch_category_videos pc (api_key, category_id, code) now w).2 = requests w \/
  requests (fetch_category_videos pc (api_key, category_id, code) now w).2
  = requests w ++ [ReqPopular api_key code category_id 5].
Proof.
  unfold fetch_category_videos, cache_data.
  destruct (cache_lookup (cache_category w) (api_key, category_id, code) now);
    [left; reflexivity|].
  right. unfold fetch_category_videos_body, try_except, bind, send.
  destruct (exec_popular pc now api_key code category_id 5) as [items|]; cbn;
    [|reflexivity].
  destruct (mapM vi_id items); reflexivity.
Qed.

Lemma sweep_fetched_requests api_key category_id now countries w :
  exists rqs,
    requests (sweep_fetched pc api_key category_id now countries w).2 = requests w ++ rqs /\
    rqs `sublist_of`
      map (fun c : string * string => ReqPopular api_key c.1 category_id 5) countries.
Proof.
  revert w. induction countries as [|[code name] rest IH]; intros w.
  - exists []. cbn. rewrite app_nil_r. split; [reflexivity | constructor].
  - cbn [sweep_fetched fst snd map].
    destruct (IH (fetch_category_videos pc (api_key, category_id, code) now w).2)
      as (rqs & E & Hs).
    destruct (fetch_category_videos_requests api_key category_id code now w) as [E1|E1];
      rewrite E, E1.
    + exists rqs. split; [reflexivity | apply sublist_cons, Hs].
    + exists (ReqPopular api_key code category_id 5 :: rqs).
      rewrite <- app_assoc. split; [reflexivity | apply sublist_skip, Hs].
Qed.

Lemma cost_of_unit rqs :
  Forall (fun rq => request_cost rq = 1) rqs -> cost_of rqs = Z.of_nat (length rqs).
Proof.
  induction 1 as [|rq rqs Hc _ IH]; [reflexivity|].
  change (cost_of (rq :: rqs)) with (request_cost rq + cost_of rqs).
  rewrite Hc, IH. cbn [length]. lia.
Qed.

(** One category search sends, in this order: trending requests, at most
    one per country and in the order of the country list (a country served
    from the cache sends none); at most one statistics request; then
    channel requests.  It never sends a search request, so it raises the
    counter by at most 21 plus the number of channel requests. *)
Theorem category_search_requests api_key category_id now w :
  let w' :=
    (category_search pc py_int isodate_seconds strptime api_key category_id now w).2 in
  exists prqs vrqs crqs,
    requests w' = requests w ++ prqs ++ vrqs ++ crqs /\
    prqs `sublist_of`
      map (fun c : string * string => ReqPopular api_key c.1 category_id 5)
        GLOBAL_TOP_COUNTRIES /\
    (length prqs <= 20)%nat /\
    (vrqs = [] \/ exists ids, vrqs = [ReqVideos api_key ids] /\ (length ids <= 50)%nat) /\
    Forall is_channels_request crqs /\
    quota_used w' <= quota_used w + 21 + Z.of_nat (length crqs).
Proof.
  intros w'.
  assert (Hshape : exists prqs vrqs crqs,
    requests w' = requests w ++ prqs ++ vrqs ++ crqs /\
    prqs `sublist_of`
      map (fun c : string * string => ReqPopular api_key c.1 category_id 5)
        GLOBAL_TOP_COUNTRIES /\
    (vrqs = [] \/ exists ids, vrqs = [ReqVideos api_key ids] /\ (length ids <= 50)%nat) /\
    Forall is_channels_request crqs).
  { subst w'. destruct (decide (api_key = "")) as [Ek|Ek].
    - exists [], [], []. unfold category_search.
      destruct (decide (api_key = "")); [|contradiction]. cbn [ret snd].
      rewrite app_nil_r. split; [reflexivity|]. split; [apply sublist_nil_l|].
      split; [left; reflexivity | constructor].
    - rewrite (category_search_final pc py_int isodate_seconds strptime
                 api_key category_id now w Ek).
      destruct (sweep_fetched_requests api_key category_id now GLOBAL_TOP_COUNTRIES w)
        as (prqs & Ep & Hs).
      revert Ep.
      generalize (sweep_fetched pc api_key category_id now GLOBAL_TOP_COUNTRIES w).
      intros sf Ep.
      destruct (merge_all sf.1 ([], ∅)) as [all m]. cbn [fst snd].
      destruct all as [|v all].
      + exists prqs, [], []. rewrite Ep, !app_nil_r.
        split; [reflexivity|]. split; [exact Hs|]. split; [left; reflexivity | constructor].
      + destruct (enrich_effect pc py_int isodate_seconds strptime api_key now
                    (take 50 (v :: all))
                    (fun video_id => default "UNKNOWN" (m !! video_id)) sf.2)
          as [(n & crqs & Er & Hf) _].
        rewrite batches_short in Er by (rewrite length_take; lia).
        change (take 50 (v :: all)) with (v :: take 49 all) in Er at 2.
        cbv iota in Er.
        exists prqs, (map (ReqVideos api_key) (take n [take 50 (v :: all)])), crqs.
        rewrite Er, Ep, <- !app_assoc.
        split; [reflexivity|]. split; [exact Hs|]. split; [|exact Hf].
        destruct n as [|n]; [left; reflexivity | right].
        exists (take 50 (v :: all)).
        change (take (S n) [take 50 (v :: all)])
          with (take 50 (v :: all) :: take n []).
        rewrite take_nil. split; [reflexivity | rewrite length_take; lia]. }
  destruct Hshape as (prqs & vrqs & crqs & Er & Hs & Hv & Hc).
  assert (Hlen : (length prqs <= 20)%nat).
  { apply sublist_length in Hs. rewrite length_map in Hs. exact Hs. }
  exists prqs, vrqs, crqs.
  split; [exact Er|]. split; [exact Hs|]. split; [exact Hlen|].
  split; [exact Hv|]. split; [exact Hc|].
  destruct (accounted_run_op pc py_int isodate_seconds strptime
              (OpCategorySearch api_key category_id) now eq_refl w) as (rqs & Ea & Q).
  cbn [fst snd run_op] in Ea, Q. fold w' in Ea, Q. rewrite Er in Ea.
  apply app_inv_head in Ea. subst rqs.
  assert (Hcost : cost_of (prqs ++ vrqs ++ crqs)
                  = Z.of_nat (length prqs + length vrqs + length crqs)).
  { rewrite cost_of_unit; [rewrite !length_app; lia|].
    apply Forall_app. split.
    - apply Forall_forall. intros rq Hin.
      apply (elem_of_sublist _ _ _ Hin), list_elem_of_fmap in Hs as (c & -> & _).
      reflexivity.
    - apply Forall_app. split.
      + destruct Hv as [->|(ids & -> & _)]; repeat constructor.
      + apply (Forall_impl _ _ _ Hc). intros [] Hrq; try contradiction. reflexivity. }
  assert (Hvl : (length vrqs <= 1)%nat)
    by (destruct Hv as [->|(ids & -> & _)]; cbn; lia).
  lia.
Qed.

End CategoryRequests.

(** ** The order of the merged ids *)

Section MergeOrder.

Lemma merge_ids_prefix code ids acc : acc.1 `prefix_of` (merge_ids code ids acc).1.
Proof.
  revert acc. induction ids as [|v ids IH]; intros [all m]; [reflexivity|].
  rewrite merge_ids_cons. etransitivity; [|apply IH].
  destruct (m !! v); cbn; [reflexivity | apply prefix_app_r; reflexivity].
Qed.

Lemma merge_all_prefix fetched acc : acc.1 `prefix_of` (merge_all fetched acc).1.
Proof.
  revert acc. induction fetched as [|[code ids] fetched IH]; intros acc; [reflexivity|].
  rewrite merge_all_cons. etransitivity; [apply (merge_ids_prefix code ids) | apply IH].
Qed.

Lemma merge_all_app fetched1 fetched2 acc :
  merge_all (fetched1 ++ fetched2) acc = merge_all fetched2 (merge_all fetched1 acc).
Proof. unfold merge_all. apply foldl_app. Qed.

(** The merged list follows the order of the countries: what the first
    countries returned comes first, and an id seen for the first time in a
    later country stands behind every id of the earlier ones.  So when the
    earlier countries already fill the 50 places, the truncation keeps
    only their ids. *)
Theorem merged_in_country_order fetched1 fetched2 v v' :
  (exists c ids, (c, ids) ∈ fetched1 /\ v ∈ ids) ->
  (forall c ids, (c, ids) ∈ fetched1 -> v' ∉ ids) ->
  (exists c ids, (c, ids) ∈ fetched2 /\ v' ∈ ids) ->
  let early := (merge_all fetched1 ([], ∅)).1 in
  let merged := (merge_all (fetched1 ++ fetched2) ([], ∅)).1 in
  early `prefix_of` merged /\
  occurs_before v v' merged /\
  ((50 <= length early)%nat -> take 50 merged = take 50 early /\ v' ∉ take 50 merged).
Proof.
  intros Hv Hn' Hv' early merged.
  assert (Hpre : early `prefix_of` merged).
  { subst early merged. rewrite merge_all_app. apply merge_all_prefix. }
  destruct Hpre as [rest Hrest].
  assert (Hin : v ∈ early).
  { subst early. apply (merge_all_elem _ _ _ merged_ok_empty). right. exact Hv. }
  assert (Hout : v' ∉ early).
  { subst early. rewrite (merge_all_elem _ _ _ merged_ok_empty).
    intros [Hin'|(c & ids & Hc & Hi)]; [inversion Hin'|].
    exact (Hn' c ids Hc Hi). }
  assert (Hin' : v' ∈ rest).
  { assert (Hm : v' ∈ merged).
    { subst merged. apply (merge_all_elem _ _ _ merged_ok_empty). right.
      destruct Hv' as (c & ids & Hc & Hi). exists c, ids.
      split; [apply elem_of_app; right; exact Hc | exact Hi]. }
    rewrite Hrest in Hm. apply elem_of_app in Hm as [Hm|Hm]; [contradiction | exact Hm]. }
  split; [exists rest; exact Hrest|]. split.
  - unfold occurs_before. rewrite Hrest.
    change [v; v'] with ([v] ++ [v']).
    apply sublist_app; apply singleton_sublist_l; assumption.
  - intros Hlen. rewrite Hrest, take_app_le by exact Hlen.
    split; [reflexivity|]. intros Ht. apply Hout.
    apply (elem_of_sublist _ _ _ Ht), sublist_take.
Qed.

Lemma merged_in_country_order_witness :
  let fetched1 := [("US", ["a"; "b"])] in
  let fetched2 := [("IN", ["b"; "c"])] in
  let early := (merge_all fetched1 ([], ∅)).1 in
  let merged := (merge_all (fetched1 ++ fetched2) ([], ∅)).1 in
  early `prefix_of` merged /\
  occurs_before "a" "c" merged /\
  ((50 <= length early)%nat -> take 50 merged = take 50 early /\ "c" ∉ take 50 merged).
Proof.
  apply (merged_in_country_order [("US", ["a"; "b"])] [("IN", ["b"; "c"])] "a" "c").
  - exists "US", ["a"; "b"]. split; [left | left].
  - intros c ids Hin Hc. apply list_elem_of_singleton in Hin. injection Hin as -> ->.
    apply elem_of_cons in Hc as [Hc|Hc]; [discriminate|].
    apply list_elem_of_singleton in Hc. discriminate.
  - exists "IN", ["b"; "c"]. split; [left | right; left].
Defined.

End MergeOrder.

(** ** The requests of a keyword search *)

Section KeywordRequests.
Context (pc : PlatformClient).
Context (py_int : string -> option Z).
Context (isodate_seconds : string -> option Z).
Context (strptime : string -> option Z).

Lemma fetch_videos_by_keyword_requests api_key keyword region_code now w :
  requests (fetch_videos_by_keyword pc (api_key, keyword, region_code) now w).2
  = requests w \/
  requests (fetch_videos_by_keyword pc (api_key, keyword, region_code) now w).2
  = requests w ++ [ReqSearch api_key (keyword_params keyword region_code now)].
Proof.
  unfold fetch_videos_by_keyword, cache_data.
  destruct (cache_lookup (cache_keyword w) (api_key, keyword, region_code) now);
    [left; reflexivity|].
  right. unfold fetch_videos_by_keyword_body, try_except, bind, send.
  fold (keyword_params keyword region_code now).
  destruct (exec_search pc now api_key (keyword_params keyword region_code now))
    as [items|]; cbn; [|reflexivity].
  destruct (search_video_ids items); reflexivity.
Qed.

Lemma fetch_videos_by_keyword_results args now w :
  results (fetch_videos_by_keyword pc args now w).2 = results w.
Proof.
  unfold fetch_videos_by_keyword. apply cache_data_other_field.
  - reflexivity.
  - reflexivity.
  - apply (proj1 (frames_bodies pc py_int isodate_seconds)).
Qed.

(** Without an API key or without a keyword the button does nothing.
    Otherwise the search sends at most one search request, for the keyword
    and at most 50 videos published in the last seven days, with a region
    code exactly when a country is selected; then statistics requests of
    at most 50 ids each; then channel requests.  When it stores new
    results, every row carries the selected region. *)
Theorem keyword_search_requests api_key keyword region_code now w :
  let w' :=
    (keyword_search pc py_int isodate_seconds strptime
       api_key keyword region_code now w).2 in
  let params := keyword_params keyword (region_argument region_code) now in
  (api_key = "" \/ keyword = "" -> w' = w) /\
  (exists srqs vrqs crqs,
     requests w' = requests w ++ srqs ++ vrqs ++ crqs /\
     (srqs = [] \/ srqs = [ReqSearch api_key params]) /\
     Forall (is_videos_batch api_key) vrqs /\
     Forall is_channels_request crqs) /\
  sp_q params = keyword /\ sp_maxResults params = 50 /\
  sp_publishedAfter params = now - 604800 /\
  (sp_regionCode params = None <-> region_code = "GLOBAL" \/ region_code = "") /\
  (results w' = results w \/
   Forall (fun row => r_search_country row = region_code) (results w')).
Proof.
  intros w' params.
  split; [|split; [|split; [|split; [|split; [|split]]]]].
  - subst w'. unfold keyword_search. intros [ -> | -> ].
    + reflexivity.
    + destruct (decide (api_key = "")); reflexivity.
  - subst w'. unfold keyword_search.
    destruct (decide (api_key = "")) as [|Ek].
    { exists [], [], []. cbn. rewrite app_nil_r.
      split; [reflexivity|]. split; [left; reflexivity|]. split; constructor. }
    destruct (decide (keyword = "")) as [|Eq].
    { exists [], [], []. cbn. rewrite app_nil_r.
      split; [reflexivity|]. split; [left; reflexivity|]. split; constructor. }
    unfold bind. fold (region_argument region_code).
    pose proof (fetch_videos_by_keyword_requests api_key keyword
                  (region_argument region_code) now w) as Hs.
    destruct (proj2 (proj2 (fetch_videos_by_keyword_props pc
                (api_key, keyword, region_argument region_code) now)) w) as [ids Hi].
    destruct (fetch_videos_by_keyword pc _ now w) as [r w1]. cbn in Hi, Hs. subst r.
    assert (Hsr : exists srqs, requests w1 = requests w ++ srqs /\
                    (srqs = [] \/ srqs = [ReqSearch api_key params])).
    { destruct Hs as [E|E]; [exists [] | eexists]; rewrite E.
      - rewrite app_nil_r. split; [reflexivity | left; reflexivity].
      - split; [reflexivity | right; reflexivity]. }
    destruct Hsr as (srqs & Es & Hsr).
    destruct ids as [|v ids].
    + exists srqs, [], []. cbn. rewrite app_nil_r.
      split; [exact Es|]. split; [exact Hsr|]. split; constructor.
    + destruct (enrich_effect pc py_int isodate_seconds strptime api_key now (v :: ids)
                  (fun _ => region_code) w1) as [(n & crqs & Er & Hf) _].
      exists srqs, (map (ReqVideos api_key) (take n (batches (v :: ids)))), crqs.
      rewrite Er, Es, <- !app_assoc.
      split; [reflexivity|]. split; [exact Hsr|]. split; [|exact Hf].
      apply Forall_fmap, Forall_forall. intros b Hb. exists b. split; [reflexivity|].
      assert (Hb' : b ∈ batches (v :: ids))
        by (apply (elem_of_sublist _ _ _ Hb), sublist_take).
      pose proof (batches_sizes (v :: ids)) as Hsz.
      rewrite Forall_forall in Hsz. apply Hsz in Hb'. lia.
  - reflexivity.
  - reflexivity.
  - reflexivity.
  - subst params. unfold keyword_params, region_argument, search_region.
    cbn [sp_regionCode].
    destruct (decide (region_code = "GLOBAL")) as [E|E].
    + split; [intros _; left; exact E | reflexivity].
    + destruct (decide (region_code = "")) as [E'|E'].
      * split; [intros _; right; exact E' | reflexivity].
      * destruct (decide (region_code = "GLOBAL")); [contradiction|].
        split; [discriminate | intros [?|?]; contradiction].
  - subst w'. unfold keyword_search.
    destruct (decide (api_key = "")); [left; reflexivity|].
    destruct (decide (keyword = "")); [left; reflexivity|].
    unfold bind. fold (region_argument region_code).
    pose proof (fetch_videos_by_keyword_results
                  (api_key, keyword, region_argument region_code) now w) as Hr.
    destruct (proj2 (proj2 (fetch_videos_by_keyword_props pc
                (api_key, keyword, region_argument region_code) now)) w) as [ids Hi].
    destruct (fetch_videos_by_keyword pc _ now w) as [r w1]. cbn in Hi, Hr. subst r.
    destruct ids as [|v ids]; [left; exact Hr | right].
    apply (enrich_effect pc py_int isodate_seconds strptime api_key now (v :: ids)
             (fun _ => region_code) w1).
Qed.

End KeywordRequests.

(** ** No video twice *)

Section Unique.
Context (pc : PlatformClient).
Context (py_int : string -> option Z).
Context (isodate_seconds : string -> option Z).
Context (strptime : string -> option Z).

Lemma od_set_keys {V} k (v : V) (d : list (string * V)) :
  map fst (od_set k v d)
  = if decide (k ∈ map fst d) then map fst d else map fst d ++ [k].
Proof.
  induction d as [|[k' v'] d IH]; cbn [od_set map fst].
  - destruct (decide (k ∈ [])) as [Hin|_]; [inversion Hin | reflexivity].
  - destruct (decide (k = k')) as [->|Hne].
    + destruct (decide (k' ∈ k' :: map fst d)) as [_|N]; [reflexivity|].
      exfalso. apply N. left.
    + cbn [map fst]. rewrite IH.
      destruct (decide (k ∈ map fst d)) as [Hin|Hn];
        destruct (decide (k ∈ k' :: map fst d)) as [Hin'|Hn']; try reflexivity.
      * exfalso. apply Hn'. right. exact Hin.
      * exfalso. apply elem_of_cons in Hin' as [?|?]; contradiction.
Qed.

Lemma od_set_unique {V} k (v : V) (d : list (string * V)) :
  unique_keys d -> unique_keys (od_set k v d).
Proof.
  unfold unique_keys. intros Hnd. rewrite od_set_keys.
  destruct (decide (k ∈ map fst d)) as [_|Hn]; [exact Hnd|].
  apply NoDup_app. split; [exact Hnd|]. split; [|apply NoDup_singleton].
  intros x Hx Hx'. apply list_elem_of_singleton in Hx'. subst x. contradiction.
Qed.

Lemma add_stats_unique items stats stats' :
  unique_keys stats ->
  add_stats py_int isodate_seconds items stats = Some stats' -> unique_keys stats'.
Proof.
  revert stats. induction items as [|item items IH]; intros stats Hu E; cbn in E.
  - injection E as <-. exact Hu.
  - destruct (stats_of_item py_int isodate_seconds item) as [[vid data]|];
      [|discriminate].
    cbn in E. apply (IH _ (od_set_unique vid data stats Hu) E).
Qed.

Lemma stats_loop_unique api_key now ids starts stats w stats' :
  unique_keys stats ->
  (stats_loop pc py_int isodate_seconds api_key now ids starts stats w).1 = Some stats' ->
  unique_keys stats'.
Proof.
  revert stats w. induction starts as [|i starts IH]; intros stats w Hu E.
  - cbn in E. injection E as <-. exact Hu.
  - cbn [stats_loop] in E. unfold bind at 1, send in E.
    destruct (exec_videos pc now api_key (slice ids i (i + 50))) as [items|];
      [|discriminate].
    unfold bind at 1, charge in E. unfold bind at 1 in E.
    destruct (add_stats py_int isodate_seconds items stats) as [stats1|] eqn:Ea;
      [|discriminate].
    cbn [lift ret] in E. apply (IH _ _ (add_stats_unique _ _ _ Hu Ea) E).
Qed.

Lemma fetch_stats_body_unique args now w v :
  (fetch_stats_body pc py_int isodate_seconds args now w).1 = Some v -> unique_keys v.
Proof.
  destruct args as [api_key ids]. unfold fetch_stats_body, try_except.
  destruct (stats_loop _ _ _ _ _ _ _ _ _) as [[s|] w1] eqn:E; cbn; intros [= <-].
  - apply (stats_loop_unique api_key now ids (py_range 0 (length ids) 50) [] w s).
    + constructor.
    + rewrite E. reflexivity.
  - constructor.
Qed.

Lemma session_ok_same w w' :
  cache_stats w' = cache_stats w -> results w' = results w ->
  session_ok w -> session_ok w'.
Proof. intros Ec Er [H1 H2]. split; [rewrite Ec; exact H1 | rewrite Er; exact H2]. Qed.

Lemma session_ok_empty : session_ok empty_world.
Proof.
  split; [|constructor]. intros k stored stats E. cbn in E.
  rewrite lookup_empty in E. discriminate.
Qed.

Lemma fetch_stats_session args now w :
  session_ok w ->
  session_ok (fetch_stats pc py_int isodate_seconds args now w).2 /\
  forall v, (fetch_stats pc py_int isodate_seconds args now w).1 = Some v -> unique_keys v.
Proof.
  intros [Hc Hr]. unfold fetch_stats, cache_data.
  destruct (cache_lookup (cache_stats w) args now) as [v|] eqn:El.
  - split; [split; assumption|]. intros v' [= <-].
    unfold cache_lookup in El.
    destruct (cache_stats w !! args) as [[stored v']|] eqn:Ek; [|discriminate].
    destruct (now <? stored + CACHE_TTL); [|discriminate]. injection El as ->.
    apply (Hc args stored v Ek).
  - destruct (proj1 (proj2 (proj2 (frames_bodies pc py_int isodate_seconds))) args now w)
      as (q & r & E).
    pose proof (fetch_stats_body_unique args now w) as Hu.
    destruct (fetch_stats_body pc py_int isodate_seconds args now w) as [[v|] w1];
      cbn in *; subst w1.
    + split; [|intros v' [= <-]; apply Hu; reflexivity].
      split; [|exact Hr]. cbn. intros k stored stats Ek.
      destruct (decide (args = k)) as [->|Hne].
      * rewrite lookup_insert_eq in Ek. injection Ek as <- <-. apply Hu. reflexivity.
      * rewrite lookup_insert_ne in Ek by exact Hne. apply (Hc k stored stats Ek).
    + split; [split; assumption | discriminate].
Qed.

Lemma other_fetchers_session now w :
  session_ok w ->
  (forall args, session_ok (fetch_videos_by_keyword pc args now w).2) /\
  (forall args, session_ok (fetch_category_videos pc args now w).2) /\
  (forall args, session_ok (fetch_subscriber_counts pc py_int args now w).2).
Proof.
  intros Hok. destruct (frames_bodies pc py_int isodate_seconds) as (Fk & Fc & _ & Fu).
  split; [|split]; intros args; (apply (session_ok_same w); [| |exact Hok]).
  - unfold fetch_videos_by_keyword. apply cache_data_other_field; try reflexivity; auto.
  - unfold fetch_videos_by_keyword. apply cache_data_other_field; try reflexivity; auto.
  - unfold fetch_category_videos. apply cache_data_other_field; try reflexivity; auto.
  - unfold fetch_category_videos. apply cache_data_other_field; try reflexivity; auto.
  - unfold fetch_subscriber_counts. apply cache_data_other_field; try reflexivity; auto.
  - unfold fetch_subscriber_counts. apply cache_data_other_field; try reflexivity; auto.
Qed.

Lemma make_rows_keys now subscribers country_of (stats : list (string * video_stats)) :
  map r_video_id (make_rows strptime now subscribers country_of stats)
  `sublist_of` map fst stats.
Proof.
  unfold make_rows. induction stats as [|[vid data] stats IH]; [constructor|].
  cbn [omap list_omap map fst].
  destruct (strptime (published_at data)) as [published|] eqn:E.
  - destruct (counts_fit data) eqn:F.
    + destruct (make_row_some strptime now subscribers (country_of vid) vid data
                  published E F) as (row & -> & Hid & _).
      cbn [map]. rewrite Hid. apply sublist_skip, IH.
    + rewrite (make_row_overflow strptime now subscribers (country_of vid) vid data F).
      apply sublist_cons, IH.
  - rewrite (make_row_none strptime now subscribers (country_of vid) vid data E).
    apply sublist_cons, IH.
Qed.

Lemma enrich_session api_key now ids country_of w :
  session_ok w ->
  session_ok (enrich pc py_int isodate_seconds strptime api_key now ids country_of w).2.
Proof.
  intros Hok. unfold enrich, bind.
  destruct (fetch_stats_session (api_key, ids) now w Hok) as [Hok1 Hu].
  destruct (proj2 (proj2 (fetch_stats_props pc py_int isodate_seconds (api_key, ids) now)) w)
    as [stats Hs].
  destruct (fetch_stats pc py_int isodate_seconds (api_key, ids) now w) as [r w1].
  cbn in Hs, Hok1, Hu. subst r. specialize (Hu stats eq_refl).
  destruct (other_fetchers_session now w1 Hok1) as (_ & _ & Hsub).
  specialize (Hsub (api_key, map (fun s : string * video_stats => channel_id s.2) stats)).
  destruct (proj2 (proj2 (fetch_subscriber_counts_props pc py_int
              (api_key, map (fun s : string * video_stats => channel_id s.2) stats) now)) w1)
    as [subs Hb].
  destruct (fetch_subscriber_counts pc py_int _ now w1) as [r2 w2].
  cbn in Hb, Hsub. subst r2. cbn. destruct Hsub as [Hc _].
  split; [exact Hc|]. cbn.
  eapply sublist_NoDup; [exact Hu|]. apply make_rows_keys.
Qed.

Lemma sweep_session api_key category_id now countries acc w :
  session_ok w -> session_ok (sweep pc api_key category_id now countries acc w).2.
Proof.
  revert acc w. induction countries as [|[code name] rest IH]; intros acc w Hok;
    [exact Hok|].
  cbn [sweep]. unfold bind.
  destruct (other_fetchers_session now w Hok) as (_ & Hc & _).
  specialize (Hc (api_key, category_id, code)).
  destruct (proj2 (proj2 (fetch_category_videos_props pc
              (api_key, category_id, code) now)) w) as [fetched Hf].
  destruct (fetch_category_videos pc (api_key, category_id, code) now w) as [r w1].
  cbn in Hf, Hc. subst r. apply IH, Hc.
Qed.

Lemma run_op_session op now w :
  session_ok w -> session_ok (run_op pc py_int isodate_seconds strptime op now w).
Proof.
  intros Hok. destruct (other_fetchers_session now w Hok) as (Hk & Hc & Hu).
  destruct op; cbn [run_op].
  - apply Hk.
  - apply Hc.
  - apply fetch_stats_session, Hok.
  - apply Hu.
  - unfold keyword_search.
    destruct (decide (api_key = "")); [exact Hok|].
    destruct (decide (keyword = "")); [exact Hok|].
    unfold bind.
    specialize (Hk (api_key, keyword,
                    if decide (region_code = "GLOBAL") then None else Some region_code)).
    destruct (proj2 (proj2 (fetch_videos_by_keyword_props pc
                (api_key, keyword,
                 if decide (region_code = "GLOBAL") then None else Some region_code) now)) w)
      as [ids Hi].
    destruct (fetch_videos_by_keyword pc _ now w) as [r w1]. cbn in Hi, Hk. subst r.
    destruct ids as [|v ids]; [exact Hk | apply enrich_session, Hk].
  - unfold category_search.
    destruct (decide (api_key = "")); [exact Hok|].
    unfold bind.
    pose proof (sweep_session api_key category_id now GLOBAL_TOP_COUNTRIES ([], ∅) w Hok)
      as Hs.
    destruct (proj2 (proj2 (sweep_props pc api_key category_id now
                GLOBAL_TOP_COUNTRIES ([], ∅))) w) as [merged Hm].
    destruct (sweep pc api_key category_id now GLOBAL_TOP_COUNTRIES ([], ∅) w) as [r w1].
    cbn [fst snd] in Hm, Hs. subst r.
    destruct merged as [[|v all] m]; [exact Hs | apply enrich_session, Hs].
  - destruct Hok as [H1 H2]. split; assumption.
Qed.

Lemma run_ops_session ops w :
  session_ok w -> session_ok (run_ops pc py_int isodate_seconds strptime ops w).
Proof.
  revert w. induction ops as [|[op now] ops IH]; intros w Hok; [exact Hok|].
  cbn [run_ops]. apply IH, run_op_session, Hok.
Qed.

End Unique.

(** However the fetchers, the two searches and the reset button are used
    from the start of a session, the results never list a video twice,
    and every dictionary of statistics in the cache has each video once.
    These two facts are kept by every single operation. *)
Theorem results_hold_each_video_once (pc : PlatformClient)
    (py_int isodate_seconds strptime : string -> option Z)
    (ops : list (operation * Z)) :
  NoDup (map r_video_id
           (results (run_ops pc py_int isodate_seconds strptime ops empty_world))) /\
  (forall k stored stats,
     cache_stats (run_ops pc py_int isodate_seconds strptime ops empty_world) !! k
     = Some (stored, stats) -> NoDup (map fst stats)) /\
  (forall op now w,
     session_ok w -> session_ok (run_op pc py_int isodate_seconds strptime op now w)).
Proof.
  destruct (run_ops_session pc py_int isodate_seconds strptime ops empty_world
              session_ok_empty) as [H1 H2].
  split; [exact H2|]. split; [exact H1|].
  intros op now w. apply run_op_session.
Qed.

(** ** The table shown *)

Section Table.

Lemma sort_results_permutation sort_option rows : sort_results sort_option rows ≡ₚ rows.
Proof.
  unfold sort_results.
  destruct (py_in "떡상점수" sort_option); [apply py_sort_perm|].
  destruct (py_in "조회수" sort_option); [apply py_sort_perm|].
  destruct (py_in "시간당" sort_option); [apply py_sort_perm|].
  destruct (py_in "업로드" sort_option); [apply py_sort_perm | reflexivity].
Qed.

Lemma append_inj_l p a b : String.append p a = String.append p b -> a = b.
Proof.
  induction p as [|c p IH]; [intros E; exact E|].
  rewrite !append_cons. intros [= E]. apply IH, E.
Qed.

Lemma imap_project {A B C} (g : nat -> A -> B) (h : B -> C) (h' : A -> C) l :
  (forall i x, h (g i x) = h' x) -> map h (imap g l) = map h' l.
Proof.
  revert g. induction l as [|x l IH]; intros g Hg; [reflexivity|].
  cbn. rewrite Hg. f_equal. apply IH. intros i y. apply Hg.
Qed.

Lemma imap_ranks {A B} (g : nat -> A -> B) (h : B -> Z) k l :
  (forall i x, h (g i x) = Z.of_nat (k + i) + 1) ->
  map h (imap g l) = map (fun i => Z.of_nat i + 1) (seq k (length l)).
Proof.
  revert g k. induction l as [|x l IH]; intros g k Hg; [reflexivity|].
  cbn. rewrite Hg, Nat.add_0_r. f_equal.
  apply IH. intros i y. unfold compose. rewrite Hg. f_equal. lia.
Qed.

(** The table has one row per stored result, ranked 1 to n from the top;
    its links are those of the stored videos, each video id giving its own
    link; and in every session reachable from the start no link appears
    twice, whatever the sort entry. *)
Theorem displayed_table (pc : PlatformClient)
    (py_int isodate_seconds strptime : string -> option Z)
    (ops : list (operation * Z)) (sort_option : string) :
  let w := run_ops pc py_int isodate_seconds strptime ops empty_world in
  let table := displayed sort_option w in
  length table = length (results w) /\
  map e_rank table = map (fun i => Z.of_nat i + 1) (seq 0 (length table)) /\
  map e_url table ≡ₚ map (fun r => watch_url (r_video_id r)) (results w) /\
  (forall a b, watch_url a = watch_url b -> a = b) /\
  NoDup (map e_url table).
Proof.
  intros w table.
  assert (Hperm : sort_results sort_option (results w) ≡ₚ results w)
    by apply sort_results_permutation.
  assert (Hurl : map e_url table
                 = map (fun r => watch_url (r_video_id r))
                     (sort_results sort_option (results w)))
    by (apply imap_project; reflexivity).
  assert (Hinj : forall a b, watch_url a = watch_url b -> a = b)
    by (intros a b; apply append_inj_l).
  split; [|split; [|split; [|split]]].
  - subst table. unfold displayed, export_rows. rewrite length_imap.
    apply Permutation_length, Hperm.
  - subst table. unfold displayed, export_rows. rewrite length_imap.
    apply imap_ranks. reflexivity.
  - rewrite Hurl, Hperm. reflexivity.
  - exact Hinj.
  - rewrite Hurl, Hperm.
    destruct (run_ops_session pc py_int isodate_seconds strptime ops empty_world
                session_ok_empty) as [_ Hnd].
    fold w in Hnd.
    change (map (fun r => watch_url (r_video_id r)) (results w))
      with (map (watch_url ∘ r_video_id) (results w)).
    rewrite (list_fmap_compose r_video_id watch_url).
    apply NoDup_fmap_2_strong; [|exact Hnd].
    intros a b _ _. apply Hinj.
Qed.

End Table.

(** ** A bound on the statistics lookup *)

Section StatsBound.
Context (pc : PlatformClient).
Context (py_int : string -> option Z).
Context (isodate_seconds : string -> option Z).

Lemma take_length_take {A} n (l : list A) : take (length (take n l)) l = take n l.
Proof.
  rewrite length_take. destruct (le_lt_dec n (length l)) as [L|L].
  - rewrite Nat.min_l by exact L. reflexivity.
  - rewrite Nat.min_r by lia. rewrite !take_ge by lia. reflexivity.
Qed.

(** Whatever the platform answers, and whether or not the cache is hit,
    one statistics lookup of n ids sends the first few of its ceil(n/50)
    batches, in order, and nothing else, and raises the counter by at most
    the number of requests it sent: never more than ceil(n/50), and
    nothing at all for an empty list of ids. *)
Theorem fetch_stats_at_most api_key ids now w :
  let w' := (fetch_stats pc py_int isodate_seconds (api_key, ids) now w).2 in
  exists n,
    (n <= (length ids + 49) / 50)%nat /\
    requests w' = requests w ++ map (ReqVideos api_key) (take n (batches ids)) /\
    length (take n (batches ids)) = n /\
    quota_used w <= quota_used w' <= quota_used w + Z.of_nat n /\
    (ids = [] -> requests w' = requests w /\ quota_used w' = quota_used w).
Proof.
  intros w'.
  destruct (fetch_stats_requests pc py_int isodate_seconds api_key ids now w) as [n0 Er].
  fold w' in Er.
  destruct (proj1 (proj2 (proj2 (accounted_fetchers pc py_int isodate_seconds)))
              (api_key, ids) now w) as (rqs & Ea & Q).
  fold w' in Ea, Q. rewrite Er in Ea. apply app_inv_head in Ea. subst rqs.
  rewrite cost_of_unit, length_map in Q
    by (apply Forall_fmap, Forall_forall; intros b _; reflexivity).
  set (n := length (take n0 (batches ids))) in *.
  assert (Hn : (n <= (length ids + 49) / 50)%nat).
  { subst n. rewrite length_take, batches_length. lia. }
  assert (Ht : take n (batches ids) = take n0 (batches ids))
    by apply take_length_take.
  exists n. split; [exact Hn|]. rewrite Ht.
  split; [exact Er|]. split; [reflexivity|]. split; [exact Q|].
  intros ->. cbn in Hn. assert (n = 0)%nat as Hz by lia.
  rewrite Er, <- Ht, Hz, take_0. cbn. rewrite app_nil_r.
  split; [reflexivity | lia].
Qed.

End StatsBound.
